(** * BrainPy native-operator runtime: a shallow embedding

    The development follows three source files:

    - [extensions/brainpylib/operator/cpu_op.py]  (module [CpuOp]):
      registration of numba kernels as JAX primitives, the eager
      evaluation rule and the XLA translation rule;
    - [brainpy/_src/dependency_check.py]          (module [DependencyCheck]):
      the lazy, version-gated loader of the brainpylib extension;
    - [brainpy/math/operators.py]                 (module [Operators]):
      the scatter/gather operator library and its event-driven variants.

    Python exceptions are values of [exn]; code that can raise returns a
    [result]; code that also mutates process-wide globals is written in
    the state-and-exception monad [M], in which the state reached when an
    exception is raised is kept, as in Python.  The texts of the
    messages are kept up to quoting and line breaks. *)

From Stdlib Require Import List String Ascii Arith Bool Lia ZArith.
From Stdlib Require Import DecimalString Reals Lra.
From stdpp Require Import base list.
Import ListNotations.

Set Implicit Arguments.

(* ================================================================== *)
(** * Python exceptions, results and the effect monad *)
(* ================================================================== *)

Module Py.

Inductive exn : Type :=
| ValueError (msg : string)
| AttributeError (msg : string)
| ImportError (msg : string)
| SystemError (msg : string)
| NotImplementedError (msg : string)
| PackageMissingError (msg : string)
| MathError (msg : string)
| TypeError (msg : string)
| IndexError (msg : string)
| TypingError (msg : string)
| Exception (msg : string).

Inductive result (A : Type) : Type :=
| Ok (a : A)
| Raise (e : exn).
Arguments Ok {A} a.
Arguments Raise {A} e.

Definition rbind {A B} (r : result A) (k : A -> result B) : result B :=
  match r with
  | Ok a => k a
  | Raise e => Raise e
  end.

Fixpoint rmap {A B} (f : A -> result B) (l : list A) : result (list B) :=
  match l with
  | [] => Ok []
  | x :: xs =>
      rbind (f x) (fun y => rbind (rmap f xs) (fun ys => Ok (y :: ys)))
  end.

Definition is_ok {A} (r : result A) : bool :=
  match r with Ok _ => true | Raise _ => false end.

(** Stateful code: the globals reached are returned also when the
    computation raises. *)
Definition M (S A : Type) : Type := S -> result A * S.

Definition ret {S A} (a : A) : M S A := fun s => (Ok a, s).
Definition raise {S A} (e : exn) : M S A := fun s => (Raise e, s).
Definition bind {S A B} (m : M S A) (k : A -> M S B) : M S B :=
  fun s => match m s with
           | (Ok a, s') => k a s'
           | (Raise e, s') => (Raise e, s')
           end.
Definition get {S} : M S S := fun s => (Ok s, s).
Definition modify {S} (f : S -> S) : M S unit := fun s => (Ok tt, f s).
Definition lift {S A} (r : result A) : M S A := fun s => (r, s).

(** [for x in l: body x] *)
Fixpoint for_each {S A} (l : list A) (body : A -> M S unit) : M S unit :=
  match l with
  | [] => ret tt
  | x :: xs => bind (body x) (fun _ => for_each xs body)
  end.

(** [a < b] on two Python [str]: lexicographic on code points, a
    proper prefix being smaller. *)
Definition str_lt (a b : string) : bool := String.ltb a b.

(** [str(n)] for a non-negative integer. *)
Definition str_of_nat (n : nat) : string :=
  NilZero.string_of_uint (Nat.to_uint n).

End Py.
Import Py.

Declare Scope py_scope.
Delimit Scope py_scope with py.
Notation "'let!' x ':=' m 'in' k" := (bind m (fun x => k))
  (at level 10, x name, m at level 100, k at level 200) : py_scope.
Notation "'do!' m 'in' k" := (bind m (fun _ => k))
  (at level 10, m at level 100, k at level 200) : py_scope.
Notation "'try!' x ':=' r 'in' k" := (rbind r (fun x => k))
  (at level 10, x name, r at level 100, k at level 200) : py_scope.

(* ================================================================== *)
(** * cpu_op.py *)
(* ================================================================== *)

Module CpuOp.

Local Open Scope string_scope.
Local Open Scope py_scope.

(** ** Arrays and their descriptors *)

Inductive dtype : Type :=
| float32 | float64 | int32 | int64 | uint8 | bool_.

(** [jax.abstract_arrays.ShapedArray]: shape and dtype, no buffer. *)
Record ShapedArray : Type := mkShaped {
  shape : list nat;
  dtype_of : dtype }.

(** A numpy buffer.  Its elements are numbers, here integers (also
    those of a floating-point buffer, which are taken small enough to be
    exact); [np.zeros] fills a buffer with 0. *)
Record ndarray : Type := mkArray {
  arr_shape : list nat;
  arr_dtype : dtype;
  arr_data : list Z }.

Definition size_of (sh : list nat) : nat := fold_right Nat.mul 1 sh.

Definition np_zeros (sh : list nat) (dt : dtype) : ndarray :=
  {| arr_shape := sh; arr_dtype := dt; arr_data := repeat 0%Z (size_of sh) |}.

Definition descriptor (a : ndarray) : ShapedArray :=
  {| shape := arr_shape a; dtype_of := arr_dtype a |}.

(** [n] blocks of [size] elements each. *)
Fixpoint chunks (n size : nat) (l : list Z) : list (list Z) :=
  match n with
  | 0 => []
  | S k => firstn size l :: chunks k size (skipn size l)
  end.

(** [for row in a]: iterating over an array goes along its first
    axis.  The elements of an array of shape (d, ...) are its d
    sub-arrays; those of a one-dimensional array are its numbers (numpy
    scalars, whose shape is empty); a 0-d array cannot be iterated
    over. *)
Definition rows (a : ndarray) : result (list ndarray) :=
  match arr_shape a with
  | [] => Raise (TypeError "iteration over a 0-d array")
  | d :: rest =>
      Ok (map (fun c => {| arr_shape := rest; arr_dtype := arr_dtype a;
                           arr_data := c |})
              (chunks d (size_of rest) (arr_data a)))
  end.

(** What Python hands to, and gets back from, an output-shape
    function: duck-typed objects.  Both a [ShapedArray] and a concrete
    array answer [.shape] and [.dtype]; anything else does not. *)
Inductive pyobj : Type :=
| PShaped (s : ShapedArray)
| PArray (a : ndarray)
| POther (type_name : string).

(** [isinstance(elem, ShapedArray)] *)
Definition is_ShapedArray (o : pyobj) : bool :=
  match o with PShaped _ => true | _ => false end.

Definition type_name_of (o : pyobj) : string :=
  match o with
  | PShaped _ => "ShapedArray"
  | PArray _ => "ndarray"
  | POther t => t
  end.

(** [(o.shape, o.dtype)] *)
Definition shape_dtype (o : pyobj) : result ShapedArray :=
  match o with
  | PShaped s => Ok s
  | PArray a => Ok (descriptor a)
  | POther t => Raise (AttributeError (t ++ " object has no attribute shape"))
  end.

(** The value returned by a user-supplied output-shape function: a
    single object, or a list or tuple of objects. *)
Inductive shapes_ret : Type :=
| RetOne (o : pyobj)
| RetCollection (l : list pyobj).

(** The [out_shapes] argument of [register_cpu_op], by the cases the
    code distinguishes: [callable(out_shapes)],
    [isinstance(out_shapes, ShapedArray)],
    [isinstance(out_shapes, (tuple, list))], and the rest. *)
Inductive out_spec : Type :=
| OutCallable (f : list pyobj -> result shapes_ret)
| OutShaped (s : ShapedArray)
| OutSeq (elems : list pyobj)
| OutOther (type_name : string).

(** ** Kernels *)

(** What a kernel receives as [outs] and as [ins]: a tuple of arrays,
    or an array passed as it is. *)
Inductive pyarg (A : Type) : Type :=
| ArgTuple (l : list A)
| ArgArray (a : A).
Arguments ArgTuple {A} l.
Arguments ArgArray {A} a.

Definition arg_map {A B} (f : A -> B) (x : pyarg A) : pyarg B :=
  match x with
  | ArgTuple l => ArgTuple (map f l)
  | ArgArray a => ArgArray (f a)
  end.

(** The arrays an argument holds. *)
Definition arg_items {A} (x : pyarg A) : list A :=
  match x with
  | ArgTuple l => l
  | ArgArray a => [a]
  end.

(** The type numba gives to an array argument: its element type and
    its number of dimensions. *)
Record array_type : Type := mkArrayType {
  t_dtype : dtype;
  t_ndim : nat }.

Definition type_of (a : ndarray) : array_type :=
  {| t_dtype := arr_dtype a; t_ndim := List.length (arr_shape a) |}.

(** A kernel [func(outputs, inputs)] writes into the output buffers in
    place.  [k_typable] tells whether numba can compile it for arguments
    of the types given; [k_run] gives the contents of the arrays that
    [outputs] holds after the call, and the exception the call ends
    with, if any.  [k_is_function] is [isinstance(func, LambdaType)] (true
    of every plain Python function), [k_name] is [func.__name__] and
    [k_is_dispatcher] is [isinstance(func, Dispatcher)]. *)
Record kernel : Type := mkKernel {
  k_name : string;
  k_is_function : bool;
  k_is_dispatcher : bool;
  k_typable : pyarg array_type -> pyarg array_type -> bool;
  k_run : pyarg ndarray -> pyarg ndarray -> list (list Z) * option exn }.

(** [numba.jit(fastmath=True, nopython=True)(func)]: nothing is
    compiled before the first call. *)
Definition numba_jit (func : kernel) : kernel :=
  {| k_name := k_name func;
     k_is_function := false;
     k_is_dispatcher := true;
     k_typable := k_typable func;
     k_run := k_run func |}.

(** What numba raises when it cannot type a function. *)
Definition nopython_failure : exn :=
  TypingError "Failed in nopython mode pipeline (step: nopython frontend)".

(** In-place writes keep the buffers, their shapes and their dtypes;
    only the contents change. *)
Fixpoint store (bufs : list ndarray) (contents : list (list Z)) : list ndarray :=
  match bufs, contents with
  | b :: bs, d :: ds =>
      {| arr_shape := arr_shape b; arr_dtype := arr_dtype b; arr_data := d |}
      :: store bs ds
  | bs, [] => bs
  | [], _ :: _ => []
  end.

(** [func(outputs, inputs)] on two tuples of arrays, [func] being a
    dispatcher: it is compiled for the types of the arguments, then
    run. *)
Definition call_kernel (func : kernel) (outputs inputs : list ndarray)
  : result (list ndarray) :=
  if k_typable func (ArgTuple (map type_of outputs))
                    (ArgTuple (map type_of inputs))
  then match k_run func (ArgTuple outputs) (ArgTuple inputs) with
       | (contents, None) => Ok (store outputs contents)
       | (_, Some e) => Raise e
       end
  else Raise nopython_failure.

(** ** Process-wide state *)

(** The capsule handed to XLA: an address and the marker string. *)
Record capsule : Type := mkCapsule {
  address : nat;
  capsule_name : string }.

(** The function compiled by [numba.cfunc]: the generated
    [xla_cpu_custom_call_target] closed over its [code_scope]. *)
Record trampoline : Type := mkTrampoline {
  func_to_call : kernel;
  input_dtypes : list dtype;
  input_shapes : list (list nat);
  output_dtypes : list dtype;
  output_shapes : list (list nat) }.

(** The text between the parentheses of [args_out = ( ... )] in the
    generated source is the views joined by commas: a tuple, unless
    there is exactly one view, which then stands for itself. *)
Definition parenthesized {A} (args : list A) : pyarg A :=
  match args with
  | [a] => ArgArray a
  | _ => ArgTuple args
  end.

(** [carray(ptr, shape, dtype=dtype)]: a view, of the shape and dtype
    given, of the memory [ptr] points to. *)
Definition carray (memory : list Z) (sh : list nat) (dt : dtype) : ndarray :=
  {| arr_shape := sh; arr_dtype := dt;
     arr_data := firstn (size_of sh) memory |}.

(** [carray(ptrs[i], shapes[i], dtype=dtypes[i]) for i in range(len(shapes))] *)
Fixpoint carrays (ptrs : list (list Z)) (shapes : list (list nat))
    (dtypes : list dtype) : list ndarray :=
  match ptrs, shapes, dtypes with
  | p :: ptrs', sh :: shapes', dt :: dtypes' =>
      carray p sh dt :: carrays ptrs' shapes' dtypes'
  | _, _, _ => []
  end.

(** The types of these views. *)
Fixpoint carray_types (shapes : list (list nat)) (dtypes : list dtype)
  : list array_type :=
  match shapes, dtypes with
  | sh :: shapes', dt :: dtypes' =>
      {| t_dtype := dt; t_ndim := List.length sh |}
      :: carray_types shapes' dtypes'
  | _, _ => []
  end.

(** The generated [xla_cpu_custom_call_target(output_ptrs, input_ptrs)],
    closed over the [code_scope] kept in the trampoline: the memory
    behind each pointer is given, and the memory behind the output
    pointers after the call is returned.  An exception raised inside a
    native function does not leave it. *)
Definition xla_cpu_custom_call_target (t : trampoline)
    (output_ptrs input_ptrs : list (list Z)) : list (list Z) :=
  let views_out := carrays output_ptrs (output_shapes t) (output_dtypes t) in
  let views_in := carrays input_ptrs (input_shapes t) (input_dtypes t) in
  let args_out := parenthesized views_out in
  let args_in := parenthesized views_in in
  map arr_data
      (store views_out (fst (k_run (func_to_call t) args_out args_in))).

(** Whether [numba.cfunc] can compile the generated function: it can
    when the kernel can be typed on the arguments the function builds. *)
Definition compiles (new_f : trampoline) : bool :=
  k_typable (func_to_call new_f)
    (parenthesized (carray_types (output_shapes new_f) (output_dtypes new_f)))
    (parenthesized (carray_types (input_shapes new_f) (input_dtypes new_f))).

(** A [core.Primitive] object.  [core.Primitive] defines neither
    [__eq__] nor [__hash__]: a primitive used as a dictionary key is
    identified by the object, here by its allocation number. *)
Record Primitive : Type := mkPrimitive {
  prim_obj : nat;
  name : string;
  multiple_results : bool;
  abstract_eval : list pyobj -> result (list pyobj);
  impl : list ndarray -> result (list ndarray) }.

Record runtime : Type := mkRuntime {
  _lambda_no : nat;
  next_obj : nat;
  (** [xla.backend_specific_translations['cpu']], latest binding first;
      the value is [partial(_func_translation, func, abs_eval_rule)] *)
  cpu_translations : list (nat * (kernel * (list pyobj -> result (list pyobj))));
  (** the functions compiled so far; the address of one is its index *)
  compiled : list trampoline;
  (** [xla_client]'s registry of custom call targets, latest first *)
  custom_call_targets : list (string * capsule * string) }.

(** The state of a fresh process: [_lambda_no = 0]. *)
Definition initial : runtime :=
  {| _lambda_no := 0; next_obj := 0; cpu_translations := [];
     compiled := []; custom_call_targets := [] |}.

Definition xla_register_custom_call_target
    (target_name : string) (c : capsule) (platform : string) : M runtime unit :=
  modify (fun st =>
    {| _lambda_no := _lambda_no st; next_obj := next_obj st;
       cpu_translations := cpu_translations st;
       compiled := compiled st;
       custom_call_targets := (target_name, c, platform) :: custom_call_targets st |}).

(** [wrapper(new_f)]: compiles at once, and returns the address of the
    new native function; when the function cannot be compiled the
    exception of numba leaves the call and nothing has changed. *)
Definition numba_cfunc (new_f : trampoline) : M runtime nat :=
  fun st =>
    if compiles new_f
    then (Ok (List.length (compiled st)),
          {| _lambda_no := _lambda_no st; next_obj := next_obj st;
             cpu_translations := cpu_translations st;
             compiled := (compiled st ++ [new_f])%list;
             custom_call_targets := custom_call_targets st |})
    else (Raise nopython_failure, st).

Section Translation.

(** [xla_c_rule.native_name] of the function at a given address: the
    name numba's mangler gives it. *)
Variable native_name : nat -> string.

Definition _compile_cpu_signature (func : kernel)
    (input_dtypes0 : list dtype) (input_shapes0 : list (list nat))
    (output_dtypes0 : list dtype) (output_shapes0 : list (list nat))
  : M runtime string :=
  let new_f := {| func_to_call := func;
                  input_dtypes := input_dtypes0;
                  input_shapes := input_shapes0;
                  output_dtypes := output_dtypes0;
                  output_shapes := output_shapes0 |} in
  let! addr := numba_cfunc new_f in
  let target_name := native_name addr in
  let capsule0 := {| address := addr;
                     capsule_name := "xla._CUSTOM_CALL_TARGET" |} in
  do! xla_register_custom_call_target target_name capsule0 "cpu" in
  ret target_name.

(** An operand of the computation under construction and what
    [c.get_shape] answers for it. *)
Record xla_shape : Type := mkXlaShape {
  dimensions : list nat;
  element_type : dtype;
  minor_to_major : list nat }.

Record xla_op : Type := mkXlaOp {
  op_id : nat;
  get_shape : xla_shape }.

(** The node built by [xla_client.ops.CustomCallWithLayout]. *)
Record custom_call : Type := mkCustomCall {
  call_target_name : string;
  operands : list xla_op;
  operand_shapes_with_layout : list xla_shape;
  shape_with_layout : list xla_shape }.

(** [range(len(shape) - 1, -1, -1)] *)
Definition output_layout (sh : list nat) : list nat :=
  rev (seq 0 (List.length sh)).

(** The builder [c] is asked for the shapes of the operands only; the
    operands carry them here. *)
Definition _func_translation (func : kernel)
    (abs_eval_fn : list pyobj -> result (list pyobj))
    (inputs : list xla_op) : M runtime custom_call :=
  let input_shapes0 := map get_shape inputs in
  let input_dtypes0 := map element_type input_shapes0 in
  let input_dimensions := map dimensions input_shapes0 in
  let! output_abstract_arrays :=
    lift (abs_eval_fn
            (map (fun sh => PShaped (mkShaped (dimensions sh) (element_type sh)))
                 input_shapes0)) in
  let! descs := lift (rmap shape_dtype output_abstract_arrays) in
  let output_shapes0 := map shape descs in
  let output_dtypes0 := map dtype_of descs in
  let xla_output_shapes :=
    map (fun d => mkXlaShape (shape d) (dtype_of d) (output_layout (shape d)))
        descs in
  let! target_name := _compile_cpu_signature func
                   input_dtypes0 input_dimensions
                   output_dtypes0 output_shapes0 in
  ret {| call_target_name := target_name;
         operands := inputs;
         operand_shapes_with_layout := input_shapes0;
         shape_with_layout := xla_output_shapes |}.

(** What the backend does when it lowers an occurrence of a
    primitive on the cpu platform: it calls the rule found in
    [xla.backend_specific_translations['cpu']] under the primitive. *)
Definition lookup_translation (p : Primitive) (st : runtime)
  : option (kernel * (list pyobj -> result (list pyobj))) :=
  match find (fun e => Nat.eqb (fst e) (prim_obj p)) (cpu_translations st) with
  | Some e => Some (snd e)
  | None => None
  end.

Definition lower (p : Primitive) (inputs : list xla_op) : M runtime custom_call :=
  let! st := get in
  match lookup_translation p st with
  | Some (func, abs_eval_fn) => _func_translation func abs_eval_fn inputs
  | None => raise (NotImplementedError
                     ("XLA translation rule for primitive " ++ name p ++ " not found"))
  end.


End Translation.

(** ** [register_cpu_op] and the three closures it builds *)

(** [abs_eval_rule], closed over [out_shapes].  What it returns is
    given by the list of its elements, which is all that its callers
    use: the elements of the list or tuple, the object itself when it is
    no [collections.abc.Collection]; an array is one, and stands for
    the elements that iterating over it gives. *)
Definition abs_eval_rule (out_shapes : out_spec) (input_shapes0 : list pyobj)
  : result (list pyobj) :=
  try! shapes :=
    match out_shapes with
    | OutCallable f => f input_shapes0
    | OutShaped s => Ok (RetCollection [PShaped s])
    | OutSeq elems =>
        match find (fun elem => negb (is_ShapedArray elem)) elems with
        | Some elem =>
            Raise (ValueError
              ("Elements in 'out_shapes' must be instances of "
               ++ "jax.abstract_arrays.ShapedArray, but we got "
               ++ type_name_of elem))
        | None => Ok (RetCollection elems)
        end
    | OutOther t =>
        Raise (ValueError
          ("Unknown type " ++ t ++ ", only supports function, ShapedArray or "
           ++ "list/tuple of ShapedArray."))
    end in
  match shapes with
  | RetOne (PArray a) => try! elements := rows a in Ok (map PArray elements)
  | RetOne o => Ok [o]
  | RetCollection l => Ok l
  end.

(** [eval_rule], closed over [out_shapes] and [func]. *)
Definition eval_rule (out_shapes : out_spec) (func : kernel) (inputs : list ndarray)
  : result (list ndarray) :=
  try! output_shapes0 := abs_eval_rule out_shapes (map PArray inputs) in
  try! outputs := rmap (fun o => try! s := shape_dtype o in
                                 Ok (np_zeros (shape s) (dtype_of s)))
                       output_shapes0 in
  call_kernel func outputs inputs.

(** What the returned operator hands back: [result[0]] or [result]. *)
Inductive py_value : Type :=
| Single (a : ndarray)
| Tuple (l : list ndarray).

(** [prim.bind] outside of any trace: the implementation rule
    is applied to the concrete inputs. *)
Definition prim_bind (prim : Primitive) (inputs : list ndarray)
  : M runtime (list ndarray) :=
  lift (impl prim inputs).

(** [bind_primitive], closed over [prim]. *)
Definition bind_primitive (prim : Primitive) (inputs : list ndarray)
  : M runtime py_value :=
  let! result0 := prim_bind prim inputs in
  ret (match result0 with
       | [r] => Single r
       | _ => Tuple result0
       end).

(** [core.Primitive(name)]: a new object. *)
Definition new_object : M runtime nat :=
  fun st =>
    (Ok (next_obj st),
     {| _lambda_no := _lambda_no st; next_obj := S (next_obj st);
        cpu_translations := cpu_translations st;
        compiled := compiled st;
        custom_call_targets := custom_call_targets st |}).

(** [xla.backend_specific_translations['cpu'][prim] = rule] *)
Definition set_cpu_translation (prim : Primitive)
    (rule : kernel * (list pyobj -> result (list pyobj))) : M runtime unit :=
  modify (fun st =>
    {| _lambda_no := _lambda_no st; next_obj := next_obj st;
       cpu_translations := (prim_obj prim, rule) :: cpu_translations st;
       compiled := compiled st;
       custom_call_targets := custom_call_targets st |}).

(** The name given to the primitive. *)
Definition primitive_name (func : kernel) (lambda_no : nat) : string :=
  if k_is_function func && (k_name func =? "<lambda>")
  then "_lambda_func" ++ str_of_nat lambda_no
  else k_name func.

(** The operator returned is the closure [bind_primitive], that is the
    primitive it is closed over. *)
Definition register_cpu_op (func : kernel) (out_shapes : out_spec)
  : M runtime Primitive :=
  let! st := get in
  let! obj := new_object in
  let prim_name := primitive_name func (_lambda_no st) in
  let func := if k_is_dispatcher func then func else numba_jit func in
  let prim := {| prim_obj := obj;
                 name := prim_name;
                 multiple_results := true;
                 abstract_eval := abs_eval_rule out_shapes;
                 impl := eval_rule out_shapes func |} in
  do! set_cpu_translation prim (func, abs_eval_rule out_shapes) in
  ret prim.

End CpuOp.

(* ================================================================== *)
(** * dependency_check.py *)
(* ================================================================== *)

Module DependencyCheck.

Local Open Scope string_scope.
Local Open Scope py_scope.

Definition _minimal_brainpylib_version : string := "0.1.10".

(** [brainpylib.cpu_ops] or [brainpylib.gpu_ops]: what
    [registrations()] answers, in the order of [.items()]. *)
Record ops_module : Type := mkOps {
  registrations : list (string * CpuOp.capsule) }.

(** The installed [brainpylib] package.  A submodule that cannot be
    imported is [None]; [check_brainpy_version] is [None] when the
    attribute is absent, and otherwise tells how the call ends. *)
Record brainpylib_package : Type := mkPackage {
  __version__ : string;
  cpu_ops : option ops_module;
  gpu_ops : option ops_module;
  check_brainpy_version : option (result unit) }.

(** The module's globals, and [xla_client]'s registry of custom call
    targets (latest first). *)
Record globals : Type := mkGlobals {
  brainpylib_cpu_ops : option ops_module;
  brainpylib_gpu_ops : option ops_module;
  custom_call_targets : list (string * CpuOp.capsule * string) }.

Definition initial : globals :=
  {| brainpylib_cpu_ops := None; brainpylib_gpu_ops := None;
     custom_call_targets := [] |}.

Definition set_brainpylib_cpu_ops (m : ops_module) : M globals unit :=
  modify (fun g =>
    {| brainpylib_cpu_ops := Some m;
       brainpylib_gpu_ops := brainpylib_gpu_ops g;
       custom_call_targets := custom_call_targets g |}).

Definition set_brainpylib_gpu_ops (m : ops_module) : M globals unit :=
  modify (fun g =>
    {| brainpylib_cpu_ops := brainpylib_cpu_ops g;
       brainpylib_gpu_ops := Some m;
       custom_call_targets := custom_call_targets g |}).

Definition register_custom_call_target
    (target_name : string) (value : CpuOp.capsule) (platform : string)
  : M globals unit :=
  modify (fun g =>
    {| brainpylib_cpu_ops := brainpylib_cpu_ops g;
       brainpylib_gpu_ops := brainpylib_gpu_ops g;
       custom_call_targets :=
         (target_name, value, platform) :: custom_call_targets g |}).

(** [try: body except ImportError: raise ImportError(msg)] *)
Definition except_ImportError {A} (body : M globals A) (msg : string)
  : M globals A :=
  fun g => match body g with
           | (Raise (ImportError _), g') => (Raise (ImportError msg), g')
           | r => r
           end.

(** [from brainpylib import cpu_ops]: fails with an [ImportError]
    ([ModuleNotFoundError] is one) when the package or the submodule is
    missing. *)
Definition import_from (site : option brainpylib_package)
    (submodule : brainpylib_package -> option ops_module) (what : string)
  : M globals ops_module :=
  match site with
  | None => raise (ImportError "No module named 'brainpylib'")
  | Some pkg =>
      match submodule pkg with
      | Some m => ret m
      | None => raise (ImportError ("cannot import name '" ++ what
                                    ++ "' from 'brainpylib'"))
      end
  end.

(** [import brainpylib] *)
Definition import_brainpylib (site : option brainpylib_package)
  : M globals brainpylib_package :=
  match site with
  | None => raise (ImportError "No module named 'brainpylib'")
  | Some pkg => ret pkg
  end.

(** The version check shared by the two loaders. *)
Definition check_version (brainpylib : brainpylib_package) : M globals unit :=
  if str_lt (__version__ brainpylib) _minimal_brainpylib_version
  then raise (SystemError ("This version of brainpy needs brainpylib >= "
                           ++ _minimal_brainpylib_version ++ "."))
  else match check_brainpy_version brainpylib with
       | Some outcome => lift outcome
       | None => ret tt
       end.

Definition import_brainpylib_cpu_ops (site : option brainpylib_package)
  : M globals ops_module :=
  let! g := get in
  match brainpylib_cpu_ops g with
  | Some ops => ret ops
  | None =>
      except_ImportError
        (let! ops := import_from site cpu_ops "cpu_ops" in
         (* the import statement binds the global at once *)
         do! set_brainpylib_cpu_ops ops in
         do! for_each (registrations ops)
               (fun item => register_custom_call_target
                              (fst item) (snd item) "cpu") in
         let! brainpylib := import_brainpylib site in
         do! check_version brainpylib in
         ret ops)
        ("Please install brainpylib. "
         ++ "See https://brainpy.readthedocs.io for installation instructions.")
  end.

Definition import_brainpylib_gpu_ops (site : option brainpylib_package)
  : M globals ops_module :=
  let! g := get in
  match brainpylib_gpu_ops g with
  | Some ops => ret ops
  | None =>
      except_ImportError
        (let! ops := import_from site gpu_ops "gpu_ops" in
         do! set_brainpylib_gpu_ops ops in
         do! for_each (registrations ops)
               (fun item => register_custom_call_target
                              (fst item) (snd item) "gpu") in
         let! brainpylib := import_brainpylib site in
         do! check_version brainpylib in
         ret ops)
        ("Please install GPU version of brainpylib. "
         ++ "See https://brainpy.readthedocs.io for installation instructions.")
  end.

End DependencyCheck.

(* ================================================================== *)
(** * math/operators.py *)
(* ================================================================== *)

Module Operators.

Local Open Scope string_scope.
Local Open Scope py_scope.
Local Open Scope R_scope.

(** ** Floating-point values, idealised

    A finite value is a real number; the two infinities and NaN are
    kept, with the arithmetic IEEE 754 gives them (zero is unsigned:
    a non-zero number over zero takes the sign of the numerator). *)

Inductive fval : Type :=
| Fin (x : R)
| PInf
| NInf
| NaN.

Definition fneg (a : fval) : fval :=
  match a with
  | Fin x => Fin (- x)
  | PInf => NInf
  | NInf => PInf
  | NaN => NaN
  end.

Definition fadd (a b : fval) : fval :=
  match a, b with
  | NaN, _ | _, NaN => NaN
  | PInf, NInf | NInf, PInf => NaN
  | PInf, _ | _, PInf => PInf
  | NInf, _ | _, NInf => NInf
  | Fin x, Fin y => Fin (x + y)
  end.

Definition fsub (a b : fval) : fval := fadd a (fneg b).

(** The sign of a finite number: [Lt], [Eq] or [Gt]. *)
Definition sign (x : R) : comparison :=
  if Rlt_dec x 0 then Lt else if Rlt_dec 0 x then Gt else Eq.

Definition signed_inf (positive : bool) : fval :=
  if positive then PInf else NInf.

Definition fmul (a b : fval) : fval :=
  match a, b with
  | NaN, _ | _, NaN => NaN
  | Fin x, Fin y => Fin (x * y)
  | Fin x, PInf | PInf, Fin x =>
      match sign x with Eq => NaN | Gt => PInf | Lt => NInf end
  | Fin x, NInf | NInf, Fin x =>
      match sign x with Eq => NaN | Gt => NInf | Lt => PInf end
  | PInf, PInf | NInf, NInf => PInf
  | PInf, NInf | NInf, PInf => NInf
  end.

Definition fdiv (a b : fval) : fval :=
  match a, b with
  | NaN, _ | _, NaN => NaN
  | Fin x, Fin y =>
      if Req_dec_T y 0
      then match sign x with Eq => NaN | Gt => PInf | Lt => NInf end
      else Fin (x / y)
  | Fin _, PInf | Fin _, NInf => Fin 0
  | PInf, Fin y => signed_inf (negb (if Rlt_dec y 0 then true else false))
  | NInf, Fin y => signed_inf (if Rlt_dec y 0 then true else false)
  | PInf, PInf | PInf, NInf | NInf, PInf | NInf, NInf => NaN
  end.

Definition fmax (a b : fval) : fval :=
  match a, b with
  | NaN, _ | _, NaN => NaN
  | PInf, _ | _, PInf => PInf
  | NInf, x | x, NInf => x
  | Fin x, Fin y => Fin (Rmax x y)
  end.

Definition fmin (a b : fval) : fval :=
  match a, b with
  | NaN, _ | _, NaN => NaN
  | NInf, _ | _, NInf => NInf
  | PInf, x | x, PInf => x
  | Fin x, Fin y => Fin (Rmin x y)
  end.

Definition fexp (a : fval) : fval :=
  match a with
  | Fin x => Fin (exp x)
  | PInf => PInf
  | NInf => Fin 0
  | NaN => NaN
  end.

(** ** Arrays *)

(** A one-dimensional array, by dtype: booleans or floating-point
    numbers. *)
Inductive array : Type :=
| BoolArray (l : list bool)
| NumArray (l : list fval).

(** [jnp.asarray(a, dtype=jnp.int32) if a.dtype == jnp.bool_ else a] *)
Definition promote_bool (a : array) : list fval :=
  match a with
  | BoolArray l => map (fun b : bool => if b then Fin 1 else Fin 0) l
  | NumArray l => l
  end.

(** [a.dtype == jnp.bool_] *)
Definition is_boolean (a : array) : bool :=
  match a with
  | BoolArray _ => true
  | NumArray _ => false
  end.

(** [pre_values]: [jnp.ndim(pre_values) == 0] or not. *)
Inductive pre_value : Type :=
| Scalar (x : fval)
| Vector (l : list fval).

Definition zeros (n : nat) : list fval := replicate n (Fin 0).
Definition ones_like (l : list fval) : list fval := map (fun _ => Fin 1) l.

(** Reading [a] at each of [ids]: an index beyond the end reads the
    last element. *)
Definition read_clamped (a : list fval) (ids : list nat) : list fval :=
  map (fun i => nth (Nat.min i (List.length a - 1)) a NaN) ids.

(** [a[ids]], an array indexed by an array of indices.  Nothing can be
    read from an empty array: the gather is rejected, unless there is no
    index at all, in which case no gather is built. *)
Definition gather (a : list fval) (ids : list nat) : result (list fval) :=
  match a, ids with
  | [], _ :: _ =>
      Raise (TypeError "Slice size at index 0 in gather op is out of range")
  | _, _ => Ok (read_clamped a ids)
  end.

(** [_pre2syn = vmap(lambda pre_id, pre_vs: pre_vs[pre_id], in_axes=(0, None))]:
    the mapped function indexes with one integer, which an empty array
    rejects whatever the indices are. *)
Definition _pre2syn (pre_ids : list nat) (pre_vs : list fval)
  : result (list fval) :=
  match pre_vs with
  | [] => Raise (IndexError "index is out of bounds for axis 0 with size 0")
  | _ :: _ => Ok (read_clamped pre_vs pre_ids)
  end.

(** The updates of [out.at[ids].op(updates)]: a scalar and an array of
    length one are broadcast to the indices. *)
Definition broadcast_to (n : nat) (v : pre_value) : result (list fval) :=
  match v with
  | Scalar x => Ok (replicate n x)
  | Vector l =>
      if Nat.eqb (List.length l) n then Ok l
      else match l with
           | [x] => Ok (replicate n x)
           | _ => Raise (ValueError "Incompatible shapes for broadcasting")
           end
  end.

(** [for i, v in zip(ids, updates): out[i] = op(out[i], v)]; an index
    beyond the end of [out] is dropped. *)
Definition scatter (op : fval -> fval -> fval)
    (out : list fval) (ids : list nat) (updates : list fval) : list fval :=
  fold_left (fun acc iv => alter (fun x => op x (snd iv)) (fst iv) acc)
            (combine ids updates) out.

(** [out.at[ids].add(v)], [.multiply(v)], [.min(v)], [.max(v)], [.set(v)] *)
Definition at_ (op : fval -> fval -> fval)
    (out : list fval) (ids : list nat) (v : pre_value) : result (list fval) :=
  try! updates := broadcast_to (List.length ids) v in
  Ok (scatter op out ids updates).

Definition set_op (_ new : fval) : fval := new.

(** [jax.ops.segment_sum] and its siblings: a vector of the identity
    of the operation, updated at [segment_ids] with [data] as by [at_]
    (data of length one are broadcast to the ids).  [indices_are_sorted]
    is a hint to the backend. *)
Definition segment (op : fval -> fval -> fval) (identity : fval)
    (data : list fval) (segment_ids : list nat) (num_segments : nat)
    (indices_are_sorted : bool) : result (list fval) :=
  at_ op (replicate num_segments identity) segment_ids (Vector data).

(** The extreme values of [int32]. *)
Definition int32_min : R := - 2147483648.
Definition int32_max : R := 2147483647.

Definition _jit_seg_sum := segment fadd (Fin 0).
Definition _jit_seg_prod := segment fmul (Fin 1).

(** The identity of a maximum or a minimum is that of the dtype of the
    data: an infinity for floating-point data, the extreme [int32] for
    the integers a boolean array is promoted to.  [integer] tells which
    dtype the data have. *)
Definition _jit_seg_max (integer : bool) :=
  segment fmax (if integer then Fin int32_min else NInf).
Definition _jit_seg_min (integer : bool) :=
  segment fmin (if integer then Fin int32_max else PInf).

(** [jnp.unique]: the elements, sorted, each once. *)
Definition unique (l : list nat) : list nat :=
  List.filter (fun i => existsb (Nat.eqb i) l) (seq 0 (S (list_max l))).

(** [op] position by position. *)
Fixpoint zip_op (op : fval -> fval -> fval) (a b : list fval) : list fval :=
  match a, b with
  | x :: a', y :: b' => op x y :: zip_op op a' b'
  | _, _ => []
  end.

(** A binary operation on two arrays: position by position, an array
    of length one being broadcast along the other.  (Here the two
    lengths are equal, or one of them is one, wherever it is called.) *)
Definition elementwise (op : fval -> fval -> fval) (a b : list fval)
  : list fval :=
  match a, b with
  | [x], _ :: _ :: _ => map (op x) b
  | _ :: _ :: _, [y] => map (fun x => op x y) a
  | _, _ => zip_op op a b
  end.

(** [a / b] and [a - b] *)
Definition divide : list fval -> list fval -> list fval := elementwise fdiv.
Definition subtract : list fval -> list fval -> list fval := elementwise fsub.

(** ** The event-driven operators and their gate *)

Definition _BRAINPYLIB_MINIMAL_VERSION : string := "0.0.3".

(** The [brainpylib] module as [operators.py] sees it: its version and
    the two operators called here. *)
Record brainpylib_module : Type := mkBrainpylib {
  __version__ : string;
  event_sum : list bool -> list nat * list nat -> nat -> pre_value
              -> result (list fval);
  event_prod : list bool -> list nat * list nat -> nat -> pre_value
               -> result (list fval) }.

(** The operators of the extension invoked so far, oldest first. *)
Definition invocations : Type := list string.

Definition invoke (operator : string) (outcome : result (list fval))
  : M invocations (list fval) :=
  fun log => (outcome, (log ++ [operator])%list).

(** [brainpylib] is the module global bound by
    [try: import brainpylib / except ModuleNotFoundError: brainpylib = None]. *)
Definition _check_brainpylib (brainpylib : option brainpylib_module)
    (ops_name : string) : result unit :=
  match brainpylib with
  | Some lib =>
      if str_lt (__version__ lib) _BRAINPYLIB_MINIMAL_VERSION
      then Raise (PackageMissingError
             ("'" ++ ops_name ++ "' operator need 'brainpylib>="
              ++ _BRAINPYLIB_MINIMAL_VERSION ++ "'. "
              ++ "Please install it through: "
              ++ ">>> pip install brainpylib>="
              ++ _BRAINPYLIB_MINIMAL_VERSION ++ " -U"))
      else Ok tt
  | None =>
      Raise (PackageMissingError
        ("'brainpylib' must be installed when the user "
         ++ "wants to use '" ++ ops_name ++ "' operator. "
         ++ "Please install 'brainpylib>=" ++ _BRAINPYLIB_MINIMAL_VERSION
         ++ "' through: "
         ++ ">>> pip install brainpylib>=" ++ _BRAINPYLIB_MINIMAL_VERSION))
  end.

Definition pre2post_event_sum (brainpylib : option brainpylib_module)
    (events : list bool) (pre2post : list nat * list nat) (post_num : nat)
    (values : pre_value) : M invocations (list fval) :=
  do! lift (_check_brainpylib brainpylib "pre2post_event_sum") in
  let (indices, idnptr) := pre2post in
  match brainpylib with
  | Some lib =>
      invoke "event_sum" (event_sum lib events (indices, idnptr) post_num values)
  | None => raise (AttributeError "NoneType object has no attribute event_sum")
  end.

Definition pre2post_event_prod (brainpylib : option brainpylib_module)
    (events : list bool) (pre2post : list nat * list nat) (post_num : nat)
    (values : pre_value) : M invocations (list fval) :=
  do! lift (_check_brainpylib brainpylib "pre2post_event_prod") in
  let (indices, idnptr) := pre2post in
  match brainpylib with
  | Some lib =>
      invoke "event_prod" (event_prod lib events (indices, idnptr) post_num values)
  | None => raise (AttributeError "NoneType object has no attribute event_prod")
  end.

Section Numeric.

(** The largest finite number of the floating-point type in use. *)
Variable finfo_max : R.

(** [jnp.nan_to_num] *)
Definition nan_to_num (a : list fval) : list fval :=
  map (fun x => match x with
                | Fin _ => x
                | PInf => Fin finfo_max
                | NInf => Fin (- finfo_max)
                | NaN => Fin 0
                end) a.

(** *** pre-to-post *)

Definition _raise_pre_ids_is_none (pre_ids : option (list nat)) : result unit :=
  match pre_ids with
  | None => Raise (MathError
              ("pre2post synaptic computation needs 'pre_ids' "
               ++ "when providing heterogeneous 'pre_values' "
               ++ "(brainpy.math.ndim(pre_values) != 0)."))
  | Some _ => Ok tt
  end.

(** [as_device_array(pre_ids)], to be used as an index array: [None]
    is none. *)
Definition as_device_array (pre_ids : option (list nat)) : result (list nat) :=
  match pre_ids with
  | Some ids => Ok ids
  | None => Raise (TypeError "NoneType is not a valid index array")
  end.

Definition pre2post_sum (pre_values : pre_value) (post_num : nat)
    (post_ids : list nat) (pre_ids : option (list nat)) : result (list fval) :=
  let out := zeros post_num in
  try! pre_values :=
    match pre_values with
    | Scalar _ => Ok pre_values
    | Vector l =>
        try! _ := _raise_pre_ids_is_none pre_ids in
        try! pre_ids := as_device_array pre_ids in
        try! gathered := gather l pre_ids in
        Ok (Vector gathered)
    end in
  at_ fadd out post_ids pre_values.

Definition pre2post_prod (pre_values : pre_value) (post_num : nat)
    (post_ids : list nat) (pre_ids : option (list nat)) : result (list fval) :=
  let out := zeros post_num in
  try! pre_values :=
    match pre_values with
    | Scalar _ => Ok pre_values
    | Vector l =>
        try! _ := _raise_pre_ids_is_none pre_ids in
        try! pre_ids := as_device_array pre_ids in
        try! gathered := gather l pre_ids in
        Ok (Vector gathered)
    end in
  at_ fmul out post_ids pre_values.

Definition pre2post_min (pre_values : pre_value) (post_num : nat)
    (post_ids : list nat) (pre_ids : option (list nat)) : result (list fval) :=
  let out := zeros post_num in
  try! pre_values :=
    match pre_values with
    | Scalar _ => Ok pre_values
    | Vector l =>
        try! _ := _raise_pre_ids_is_none pre_ids in
        try! pre_ids := as_device_array pre_ids in
        try! gathered := gather l pre_ids in
        Ok (Vector gathered)
    end in
  at_ fmin out post_ids pre_values.

Definition pre2post_max (pre_values : pre_value) (post_num : nat)
    (post_ids : list nat) (pre_ids : option (list nat)) : result (list fval) :=
  let out := zeros post_num in
  try! pre_values :=
    match pre_values with
    | Scalar _ => Ok pre_values
    | Vector l =>
        try! _ := _raise_pre_ids_is_none pre_ids in
        try! pre_ids := as_device_array pre_ids in
        try! gathered := gather l pre_ids in
        Ok (Vector gathered)
    end in
  at_ fmax out post_ids pre_values.

(** *** pre-to-syn *)

Definition pre2syn (pre_values : pre_value) (pre_ids : list nat)
  : result (list fval) :=
  match pre_values with
  | Scalar x =>
      Ok (map (fun one => fmul one x) (replicate (List.length pre_ids) (Fin 1)))
  | Vector l => _pre2syn pre_ids l
  end.

(** *** syn-to-post *)

Definition syn2post_sum (syn_values : array) (post_ids : list nat)
    (post_num : nat) (indices_are_sorted : bool) : result (list fval) :=
  _jit_seg_sum (promote_bool syn_values) post_ids post_num indices_are_sorted.

Definition syn2post_prod (syn_values : array) (post_ids : list nat)
    (post_num : nat) (indices_are_sorted : bool) : result (list fval) :=
  _jit_seg_prod (promote_bool syn_values) post_ids post_num indices_are_sorted.

Definition syn2post_max (syn_values : array) (post_ids : list nat)
    (post_num : nat) (indices_are_sorted : bool) : result (list fval) :=
  _jit_seg_max (is_boolean syn_values) (promote_bool syn_values)
               post_ids post_num indices_are_sorted.

Definition syn2post_min (syn_values : array) (post_ids : list nat)
    (post_num : nat) (indices_are_sorted : bool) : result (list fval) :=
  _jit_seg_min (is_boolean syn_values) (promote_bool syn_values)
               post_ids post_num indices_are_sorted.

Definition syn2post_mean (syn_values : array) (post_ids : list nat)
    (post_num : nat) (indices_are_sorted : bool) : result (list fval) :=
  let syn_values := promote_bool syn_values in
  try! nominator :=
    _jit_seg_sum syn_values post_ids post_num indices_are_sorted in
  try! denominator :=
    _jit_seg_sum (ones_like syn_values) post_ids post_num indices_are_sorted in
  Ok (nan_to_num (divide nominator denominator)).

Definition syn2post_softmax (syn_values : array) (post_ids : list nat)
    (post_num : nat) (indices_are_sorted : bool) : result (list fval) :=
  let integer := is_boolean syn_values in
  let syn_values := promote_bool syn_values in
  try! syn_maxs :=
    _jit_seg_max integer syn_values post_ids post_num indices_are_sorted in
  try! maxs_of_ids := gather syn_maxs post_ids in
  let syn_values := subtract syn_values maxs_of_ids in
  let syn_values := map fexp syn_values in
  try! normalizers :=
    _jit_seg_sum syn_values post_ids post_num indices_are_sorted in
  try! normalizers_of_ids := gather normalizers post_ids in
  let softmax := divide syn_values normalizers_of_ids in
  Ok (nan_to_num softmax).

Definition pre2post_mean (pre_values : pre_value) (post_num : nat)
    (post_ids : list nat) (pre_ids : option (list nat)) : result (list fval) :=
  let out := zeros post_num in
  match pre_values with
  | Scalar _ => at_ set_op out (unique post_ids) pre_values
  | Vector _ =>
      try! _ := _raise_pre_ids_is_none pre_ids in
      try! pre_ids := as_device_array pre_ids in
      try! pre_values := pre2syn pre_values pre_ids in
      syn2post_mean (NumArray pre_values) post_ids post_num true
  end.

End Numeric.

End Operators.

(* ================================================================== *)
(** * Statements about cpu_op.py: auxiliary definitions *)
(* ================================================================== *)

Module CpuOpSpec.

Import CpuOp.
Local Open Scope string_scope.
Local Open Scope py_scope.

(** The descriptors an output-shape specification yields on given
    arguments: the shape and dtype read off each returned object. *)
Definition out_descriptors (out_shapes : out_spec) (args : list pyobj)
  : result (list ShapedArray) :=
  try! shapes := abs_eval_rule out_shapes args in
  rmap shape_dtype shapes.

(** An abstract evaluator is a function of shape and dtype alone: on
    concrete arrays it yields the descriptors it yields on the
    descriptors of those arrays. *)
Definition reads_descriptors_only (out_shapes : out_spec) : Prop :=
  forall inputs : list ndarray,
    out_descriptors out_shapes (map PArray inputs)
    = out_descriptors out_shapes (map (fun a => PShaped (descriptor a)) inputs).

(** ** The eager path, in the words of the specification *)

(** The function from descriptors to descriptors that an output-shape
    specification stands for.  A callable stands for [evaluator] when,
    on arguments of the shapes and dtypes [descs], it returns a list or
    tuple of objects of the shapes and dtypes [evaluator descs] (or the
    one descriptor itself), and raises what [evaluator] raises; a
    descriptor and a sequence of descriptors stand for the constant
    function; nothing else stands for a function. *)
Definition denotes (out_shapes : out_spec)
    (evaluator : list ShapedArray -> result (list ShapedArray)) : Prop :=
  match out_shapes with
  | OutCallable f =>
      forall args descs,
        rmap shape_dtype args = Ok descs ->
        match evaluator descs with
        | Ok outs =>
            (exists objs, f args = Ok (RetCollection objs)
                          /\ rmap shape_dtype objs = Ok outs)
            \/ (exists d, f args = Ok (RetOne (PShaped d)) /\ outs = [d])
        | Raise e => f args = Raise e
        end
  | OutShaped s => forall descs, evaluator descs = Ok [s]
  | OutSeq elems =>
      exists outs, elems = map PShaped outs
                   /\ forall descs, evaluator descs = Ok outs
  | OutOther _ => False
  end.

(** A zero-initialised buffer matching a descriptor. *)
Definition zero_buffer (d : ShapedArray) : ndarray :=
  {| arr_shape := shape d;
     arr_dtype := dtype_of d;
     arr_data := map (fun _ => 0%Z) (seq 0 (fold_left Nat.mul (shape d) 1)) |}.

(** The buffers after the kernel has written in place: the buffer at
    position [k] holds the contents the kernel left at position [k]. *)
Definition written (buffers : list ndarray) (contents : list (list Z))
  : list ndarray :=
  imap (fun k b => {| arr_shape := arr_shape b;
                      arr_dtype := arr_dtype b;
                      arr_data := nth k contents (arr_data b) |})
       buffers.

(** The eager execution path as the specification words it: run the
    abstract evaluation on the descriptors of the inputs, allocate
    zero-initialised buffers matching the descriptors returned, invoke
    the kernel on (outputs, inputs), which writes in place, and return
    the outputs, a single one unwrapped. *)
Definition eager_spec (func : kernel)
    (evaluator : list ShapedArray -> result (list ShapedArray))
    (inputs : list ndarray) : result py_value :=
  try! descriptors := evaluator (map descriptor inputs) in
  let outputs := map zero_buffer descriptors in
  match k_typable func (ArgTuple (map type_of outputs))
                       (ArgTuple (map type_of inputs)),
        k_run func (ArgTuple outputs) (ArgTuple inputs) with
  | false, _ => Raise nopython_failure
  | true, (_, Some e) => Raise e
  | true, (contents, None) =>
      Ok (match written outputs contents with
          | [single] => Single single
          | outputs => Tuple outputs
          end)
  end.

(** The abstract evaluation of a primitive run on descriptors. *)
Definition on_descriptors (abs_eval_fn : list pyobj -> result (list pyobj))
    (descs : list ShapedArray) : result (list ShapedArray) :=
  try! out := abs_eval_fn (map PShaped descs) in
  rmap shape_dtype out.

(** ** Registration and lowering *)

(** The kernel kept by a registration: the dispatcher given, or the
    one [numba.jit] makes of the function given. *)
Definition jitted (func : kernel) : kernel :=
  if k_is_dispatcher func then func else numba_jit func.

(** The descriptors handed to the abstract evaluation when operands
    are lowered. *)
Definition operand_descriptors (inputs : list xla_op) : list pyobj :=
  map (fun sh => PShaped (mkShaped (dimensions sh) (element_type sh)))
      (map get_shape inputs).

(** The function a lowering generates for given operands and output
    descriptors. *)
Definition trampoline_of (func : kernel) (inputs : list xla_op)
    (descs : list ShapedArray) : trampoline :=
  {| func_to_call := func;
     input_dtypes := map element_type (map get_shape inputs);
     input_shapes := map dimensions (map get_shape inputs);
     output_dtypes := map dtype_of descs;
     output_shapes := map shape descs |}.

(** A specification that is neither a callable, nor a descriptor, nor
    a sequence of descriptors. *)
Definition invalid_out_spec (out_shapes : out_spec) : bool :=
  match out_shapes with
  | OutCallable _ => false
  | OutShaped _ => false
  | OutSeq elems => existsb (fun elem => negb (is_ShapedArray elem)) elems
  | OutOther _ => true
  end.

(** Registration-time validation, as claimed: the call to
    [register_cpu_op] itself raises. *)
Definition rejected_at_registration
    (func : kernel) (out_shapes : out_spec) (st : runtime) : Prop :=
  exists e, fst (register_cpu_op func out_shapes st) = Raise e.


(** ** Example kernels *)

(** [lambda outs, ins: outs[0].fill(v)].  [outs[0]] is the first array
    of a tuple, and the first row of an array, which must have two
    dimensions at least for the row to be an array again. *)
Definition fill_first (v : Z) : kernel :=
  {| k_name := "<lambda>"; k_is_function := true; k_is_dispatcher := false;
     k_typable := fun outs _ =>
       match outs with
       | ArgTuple (_ :: _) => true
       | ArgTuple [] => false
       | ArgArray t => Nat.leb 2 (t_ndim t)
       end;
     k_run := fun outs _ =>
       (match outs with
        | ArgTuple (o :: rest) =>
            map (fun _ => v) (arr_data o) :: map arr_data rest
        | ArgTuple [] => []
        | ArgArray a =>
            let row := size_of (tl (arr_shape a)) in
            [(map (fun _ => v) (firstn row (arr_data a))
              ++ skipn row (arr_data a))%list]
        end, None) |}.

(** Two anonymous kernels, syntactically distinct. *)
Definition lambda_ones : kernel := fill_first 1.
Definition lambda_twos : kernel := fill_first 2.

(** The number [v] stored as an element of dtype [dt]. *)
Definition cast (dt : dtype) (v : Z) : Z :=
  match dt with
  | float32 | float64 => v
  | int32 => ((v + 2147483648) mod 4294967296 - 2147483648)%Z
  | int64 =>
      ((v + 9223372036854775808) mod 18446744073709551616
       - 9223372036854775808)%Z
  | uint8 => (v mod 256)%Z
  | bool_ => if Z.eqb v 0 then 0%Z else 1%Z
  end.

Fixpoint all_some {A} (l : list (option A)) : option (list A) :=
  match l with
  | [] => Some []
  | Some x :: rest => option_map (cons x) (all_some rest)
  | None :: _ => None
  end.

(** numpy broadcasting of data of shape [sx] to a shape [sy] of as
    many dimensions: a dimension of [sx] is that of [sy], or is 1 and
    the block is repeated. *)
Fixpoint broadcast_aligned (sy sx : list nat) (data : list Z)
  : option (list Z) :=
  match sy, sx with
  | [], [] => Some data
  | dy :: sy', dx :: sx' =>
      if Nat.eqb dx dy
      then option_map (@concat Z)
             (all_some (map (broadcast_aligned sy' sx')
                            (chunks dx (size_of sx') data)))
      else if Nat.eqb dx 1
           then option_map (fun block => concat (repeat block dy))
                           (broadcast_aligned sy' sx' data)
           else None
  | _, _ => None
  end.

(** Missing leading dimensions count as 1. *)
Definition broadcast (sy sx : list nat) (data : list Z) : option (list Z) :=
  broadcast_aligned sy
    (repeat 1 (List.length sy - List.length sx) ++ sx)%list data.

(** [y, y1 = outs]: the two elements of a tuple, or what iterating over
    an array gives, which must be two rows. *)
Definition unpack2 (x : pyarg ndarray) : option (ndarray * ndarray) :=
  match x with
  | ArgTuple [a; b] => Some (a, b)
  | ArgTuple _ => None
  | ArgArray a =>
      match rows a with
      | Ok [r; r'] => Some (r, r')
      | _ => None
      end
  end.

Definition unpack2_type (x : pyarg array_type)
  : option (array_type * array_type) :=
  match x with
  | ArgTuple [a; b] => Some (a, b)
  | ArgTuple _ => None
  | ArgArray t =>
      match t_ndim t with
      | 0 => None
      | S n => Some ({| t_dtype := t_dtype t; t_ndim := n |},
                     {| t_dtype := t_dtype t; t_ndim := n |})
      end
  end.

(** [y[:] = x + c]: [y] must be an array, and [x] have no more
    dimensions than [y]; the sum is broadcast to the shape of [y], which
    fails at run time when the shapes do not agree. *)
Definition assignable (y x : array_type) : bool :=
  Nat.leb 1 (t_ndim y) && Nat.leb (t_ndim x) (t_ndim y).

Definition assign_plus (y x : ndarray) (c : Z) : option (list Z) :=
  option_map (map (fun v => cast (arr_dtype y) (v + c)%Z))
             (broadcast (arr_shape y) (arr_shape x) (arr_data x)).

(** The contents of [outs] once its two parts hold [c] and [c1]. *)
Definition repack (outs : pyarg ndarray) (c c1 : list Z) : list (list Z) :=
  match outs with
  | ArgTuple _ => [c; c1]
  | ArgArray _ => [(c ++ c1)%list]
  end.

(** The kernel of the module's own example:
    [y, y1 = outs; x, x2 = ins; y[:] = x + 1; y1[:] = x2 + 2]. *)
Definition custom_op : kernel :=
  {| k_name := "custom_op"; k_is_function := true; k_is_dispatcher := false;
     k_typable := fun outs ins =>
       match unpack2_type outs, unpack2_type ins with
       | Some (y, y1), Some (x, x2) => assignable y x && assignable y1 x2
       | _, _ => false
       end;
     k_run := fun outs ins =>
       let unchanged := map arr_data (arg_items outs) in
       match unpack2 outs, unpack2 ins with
       | Some (y, y1), Some (x, x2) =>
           match assign_plus y x 1 with
           | None =>
               (unchanged,
                Some (ValueError
                        "cannot assign slice from input of different size"))
           | Some c =>
               match assign_plus y1 x2 2 with
               | None =>
                   (repack outs c (arr_data y1),
                    Some (ValueError
                            "cannot assign slice from input of different size"))
               | Some c1 => (repack outs c c1, None)
               end
           end
       | _, _ =>
           (unchanged, Some (ValueError "not enough values to unpack"))
       end |}.

(** The output-shape function of the example: [abs_eval], which
    returns its arguments. *)
Definition abs_eval : out_spec :=
  OutCallable (fun ins => Ok (RetCollection ins)).

(** [lambda x: ShapedArray((int(x[0]),), x.dtype)]: an output-shape
    function that reads its argument, which a descriptor does not
    allow. *)
Definition length_from_data : out_spec :=
  OutCallable (fun args =>
    match args with
    | [PArray a] =>
        match arr_shape a, arr_data a with
        | [_], first :: _ =>
            Ok (RetOne (PShaped {| shape := [Z.to_nat first];
                                   dtype_of := arr_dtype a |}))
        | _, _ =>
            Raise (TypeError
                     "only size-1 arrays can be converted to Python scalars")
        end
    | [PShaped _] =>
        Raise (TypeError "'ShapedArray' object is not subscriptable")
    | [POther t] => Raise (TypeError (t ++ " object is not subscriptable"))
    | _ => Raise (TypeError "<lambda>() takes 1 positional argument")
    end).

Definition vec2 : ShapedArray := {| shape := [2]; dtype_of := float32 |}.

Definition z : ndarray :=
  {| arr_shape := [1; 2]; arr_dtype := float32; arr_data := [5%Z; 7%Z] |}.

Definition counts : ndarray :=
  {| arr_shape := [3]; arr_dtype := int32; arr_data := [2%Z; 0%Z; 0%Z] |}.

Definition operand0 : xla_op :=
  {| op_id := 0;
     get_shape := {| dimensions := [1; 2]; element_type := float32;
                     minor_to_major := [1; 0] |} |}.

(** A mangled name for the function compiled at an address. *)
Definition cfunc_name (addr : nat) : string :=
  "cfunc.xla_cpu_custom_call_target." ++ str_of_nat addr.

End CpuOpSpec.

(* ================================================================== *)
(** * Statements about operators.py: auxiliary definitions *)
(* ================================================================== *)

Module OperatorsSpec.

Import Operators.
Local Open Scope R_scope.

(** The values mapped to group [g], in the order of their positions. *)
Fixpoint group_values {A} (values : list A) (group_ids : list nat) (g : nat)
  : list A :=
  match values, group_ids with
  | v :: vs, i :: ids =>
      if Nat.eqb i g then v :: group_values vs ids g
      else group_values vs ids g
  | _, _ => []
  end.

(** The sum of a list of numbers. *)
Definition total (l : list R) : R := fold_right Rplus 0 l.

(** The mean of the values mapped to group [g]: their sum over their
    number, and 0 where no value is mapped to the group. *)
Definition group_mean (values : list R) (group_ids : list nat) (g : nat) : R :=
  let members := group_values values group_ids g in
  match members with
  | [] => 0
  | _ :: _ => total members / INR (List.length members)
  end.

(** [c] added to exactly the values whose group id is [g]. *)
Fixpoint shift_group (c : R) (g : nat) (values : list fval) (group_ids : list nat)
  : list fval :=
  match values, group_ids with
  | v :: vs, i :: ids =>
      (if Nat.eqb i g then fadd v (Fin c) else v) :: shift_group c g vs ids
  | vs, [] => vs
  | [], _ :: _ => []
  end.

(** The five reductions of the pre-to-post family. *)
Inductive reduce_op : Type := Sum | Prod | Min | Max | Mean.

Definition pre2post (finfo_max : R) (op : reduce_op)
  : pre_value -> nat -> list nat -> option (list nat) -> result (list fval) :=
  match op with
  | Sum => pre2post_sum
  | Prod => pre2post_prod
  | Min => pre2post_min
  | Max => pre2post_max
  | Mean => pre2post_mean finfo_max
  end.

(** The binary operation of each reduction, on floating-point values
    and on real numbers. *)
Definition combine_of (op : reduce_op) : fval -> fval -> fval :=
  match op with
  | Sum | Mean => fadd
  | Prod => fmul
  | Min => fmin
  | Max => fmax
  end.







(** An extension whose two operators answer a vector of zeros. *)
Definition stub_brainpylib (version : string) : brainpylib_module :=
  {| __version__ := version;
     event_sum := fun _ _ post_num _ => Ok (zeros post_num);
     event_prod := fun _ _ post_num _ => Ok (zeros post_num) |}.

(** A version as the specification reads it: numbers separated by
    dots, compared number by number, a missing number counting as 0. *)
Fixpoint components (s : string) (current : string) : list string :=
  match s with
  | EmptyString => [current]
  | String c rest =>
      if Ascii.eqb c "."%char
      then current :: components rest EmptyString
      else components rest (current ++ String c EmptyString)%string
  end.

Definition number_of (s : string) : option nat :=
  match s with
  | EmptyString => None
  | _ => option_map Nat.of_uint (NilEmpty.uint_of_string s)
  end.

Fixpoint numbers_of (l : list string) : option (list nat) :=
  match l with
  | [] => Some []
  | s :: rest =>
      match number_of s, numbers_of rest with
      | Some n, Some ns => Some (n :: ns)
      | _, _ => None
      end
  end.

Definition parse_version (s : string) : option (list nat) :=
  numbers_of (components s EmptyString).

Fixpoint version_lt (a b : list nat) : bool :=
  match a, b with
  | [], [] => false
  | [], y :: b' => if Nat.ltb 0 y then true else version_lt [] b'
  | x :: a', [] => false
  | x :: a', y :: b' =>
      if Nat.ltb x y then true
      else if Nat.ltb y x then false
      else version_lt a' b'
  end.

(** The extension is available: installed, and its version not below
    the minimal one. *)
Definition extension_available (brainpylib : option brainpylib_module) : bool :=
  match brainpylib with
  | Some lib =>
      match parse_version (__version__ lib),
            parse_version _BRAINPYLIB_MINIMAL_VERSION with
      | Some version, Some minimum => negb (version_lt version minimum)
      | _, _ => false
      end
  | None => false
  end.

End OperatorsSpec.

Module DependencyCheckSpec.

Import DependencyCheck.
Local Open Scope string_scope.

Definition capsule0 : CpuOp.capsule :=
  {| CpuOp.address := 4096; CpuOp.capsule_name := "xla._CUSTOM_CALL_TARGET" |}.

Definition some_ops : ops_module :=
  {| registrations := [("cpu_event_sum", capsule0)] |}.

(** An installation of brainpylib older than the minimal version. *)
Definition old_brainpylib : brainpylib_package :=
  {| __version__ := "0.1.0";
     cpu_ops := Some some_ops;
     gpu_ops := None;
     check_brainpy_version := None |}.

End DependencyCheckSpec.

(* ================================================================== *)
(** * The rest of dependency_check.py *)
(* ================================================================== *)

Module DependencyCheckMore.

Import DependencyCheck.
Local Open Scope string_scope.

Definition _minimal_taichi_version : list nat := [1; 7; 0].

(** [a < b] on two tuples of integers: the first position where they
    differ decides, and a proper prefix is smaller. *)
Fixpoint tuple_lt (a b : list nat) : bool :=
  match a, b with
  | [], [] => false
  | [], _ :: _ => true
  | _ :: _, [] => false
  | x :: a', y :: b' =>
      if Nat.ltb x y then true
      else if Nat.ltb y x then false
      else tuple_lt a' b'
  end.

(** The [taichi] module: its [__version__], a tuple of integers. *)
Record taichi_module : Type := mkTaichi {
  taichi_version : list nat }.

(** How a call of [import_taichi] ends. *)
Inductive taichi_result : Type :=
| Returned (m : taichi_module)
| ModuleNotFoundError (msg : string)
| RuntimeError (msg : string).

(** [import_taichi()]: [site] is the taichi installed, if any, and the
    second argument the module global [taichi]; the global after the call
    is returned with the outcome.  The version test stands after the
    [if taichi is None] block, not inside it. *)
Definition import_taichi (site : option taichi_module)
    (taichi : option taichi_module) : taichi_result * option taichi_module :=
  let bound := match taichi with
               | Some m => Some m
               | None => site
               end in
  match bound with
  | None =>
      (ModuleNotFoundError
         ("Taichi is needed. Please install taichi through: "
          ++ "> pip install -i https://pypi.taichi.graphics/simple/ taichi-nightly"),
       None)
  | Some m =>
      if tuple_lt (taichi_version m) _minimal_taichi_version
      then (RuntimeError
              ("We need taichi>=(1, 7, 0). Currently you can install "
               ++ "taichi>=(1, 7, 0) through taichi-nightly: "
               ++ "> pip install -i https://pypi.taichi.graphics/simple/ taichi-nightly"),
            Some m)
      else (Returned m, Some m)
  end.

(** [False if brainpylib_gpu_ops is None else True] *)
Definition is_brainpylib_gpu_installed (g : globals) : bool :=
  match brainpylib_gpu_ops g with
  | None => false
  | Some _ => true
  end.

(** The entries the loop over [registrations().items()] leaves in the
    registry of custom call targets, latest first. *)
Definition registered_for (platform : string)
    (items : list (string * CpuOp.capsule))
  : list (string * CpuOp.capsule * string) :=
  rev (map (fun item => (fst item, snd item, platform)) items).

(** The texts of the two [ImportError] raised by the loaders. *)
Definition cpu_install_hint : string :=
  "Please install brainpylib. "
  ++ "See https://brainpy.readthedocs.io for installation instructions.".

Definition gpu_install_hint : string :=
  "Please install GPU version of brainpylib. "
  ++ "See https://brainpy.readthedocs.io for installation instructions.".

(** What the [except ImportError] clause makes of the outcome of the
    version check. *)
Definition after_check (hint : string) (ops : ops_module)
    (r : result unit) : result ops_module :=
  match r with
  | Ok _ => Ok ops
  | Raise (ImportError _) => Raise (ImportError hint)
  | Raise e => Raise e
  end.

End DependencyCheckMore.

(* ================================================================== *)
(** * The rest of cpu_op.py *)
(* ================================================================== *)

Module CpuOpMore.

Import CpuOp CpuOpSpec.
Local Open Scope string_scope.

(** Every key of the translation table is an object allocated already. *)
Definition keys_below (st : runtime) : Prop :=
  Forall (fun e => fst e < next_obj st) (cpu_translations st).

(** A buffer holds as many elements as its shape says. *)
Definition well_sized (a : ndarray) : Prop :=
  List.length (arr_data a) = size_of (arr_shape a).

(** Output memory filled with zeros, one block per descriptor. *)
Definition zero_memory (descs : list ShapedArray) : list (list Z) :=
  map (fun d => repeat 0%Z (size_of (shape d))) descs.

(** An operand stands for a concrete array: same dimensions, same
    element type. *)
Definition stands_for (o : xla_op) (a : ndarray) : Prop :=
  dimensions (get_shape o) = arr_shape a
  /\ element_type (get_shape o) = arr_dtype a.

(** One output of shape (2, 2), whatever the inputs. *)
Definition square : ShapedArray := {| shape := [2; 2]; dtype_of := float32 |}.

End CpuOpMore.

(* ================================================================== *)
(** * More on operators.py: auxiliary definitions *)
(* ================================================================== *)

Module OperatorsMore.

Import Operators OperatorsSpec.
Local Open Scope R_scope.

(** The softmax within each group, entry by entry: the exponential of
    the value over the sum of the exponentials of its group. *)
Fixpoint group_softmax_from (all_values : list R) (all_ids : list nat)
    (values : list R) (ids : list nat) : list R :=
  match values, ids with
  | v :: vs, i :: ids' =>
      exp v / total (map exp (group_values all_values all_ids i))
      :: group_softmax_from all_values all_ids vs ids'
  | _, _ => []
  end.

Definition group_softmax (values : list R) (ids : list nat) : list R :=
  group_softmax_from values ids values ids.

(** The largest of the values of group [g] (0 for a group without
    values). *)
Definition group_max (values : list R) (ids : list nat) (g : nat) : R :=
  match group_values values ids g with
  | [] => 0
  | x :: r => fold_left Rmax r x
  end.

(** The number of [true] among a list of booleans. *)
Definition count_true (l : list bool) : nat :=
  List.length (List.filter (fun b : bool => b) l).

End OperatorsMore.

(* ================================================================== *)
(** * Facts about cpu_op.py *)
(* ================================================================== *)

Section CpuOpFacts.

Import CpuOp CpuOpSpec.
Local Open Scope string_scope.

Ltac run_register :=
  cbv [register_cpu_op bind get new_object set_cpu_translation modify ret].

Lemma jitted_run func : k_run (jitted func) = k_run func.
Proof. unfold jitted. destruct (k_is_dispatcher func); reflexivity. Qed.

Lemma jitted_typable func : k_typable (jitted func) = k_typable func.
Proof. unfold jitted. destruct (k_is_dispatcher func); reflexivity. Qed.

(** Registration never raises, allocates one primitive, binds one
    translation rule, compiles nothing and leaves [_lambda_no] alone. *)
Lemma register_cpu_op_total func out_shapes st :
  exists prim st',
    register_cpu_op func out_shapes st = (Ok prim, st')
    /\ name prim = primitive_name func (_lambda_no st)
    /\ prim_obj prim = next_obj st
    /\ impl prim = eval_rule out_shapes (jitted func)
    /\ abstract_eval prim = abs_eval_rule out_shapes
    /\ _lambda_no st' = _lambda_no st
    /\ next_obj st' = S (next_obj st)
    /\ cpu_translations st'
       = (next_obj st, (jitted func, abs_eval_rule out_shapes))
           :: cpu_translations st
    /\ compiled st' = compiled st
    /\ custom_call_targets st' = custom_call_targets st.
Proof.
  eexists; eexists. split.
  - run_register. reflexivity.
  - simpl. repeat split; reflexivity.
Qed.

(** Every anonymous kernel is named after the counter, and the counter
    is the same before and after any registration. *)
Lemma lambda_names_collide func1 func2 out1 out2 st p1 st1 p2 st2 :
  k_is_function func1 = true -> k_name func1 = "<lambda>" ->
  k_is_function func2 = true -> k_name func2 = "<lambda>" ->
  register_cpu_op func1 out1 st = (Ok p1, st1) ->
  register_cpu_op func2 out2 st1 = (Ok p2, st2) ->
  name p1 = name p2 /\ prim_obj p1 <> prim_obj p2.
Proof.
  intros F1 N1 F2 N2 R1 R2.
  destruct (register_cpu_op_total func1 out1 st)
    as (q1 & t1 & E1 & Hn1 & Ho1 & _ & _ & Hl1 & Hx1 & _).
  destruct (register_cpu_op_total func2 out2 st1)
    as (q2 & t2 & E2 & Hn2 & Ho2 & _).
  rewrite R1 in E1. injection E1 as <- <-.
  rewrite R2 in E2. injection E2 as <- <-.
  rewrite Hn1, Hn2, Ho1, Ho2, Hl1, Hx1.
  unfold primitive_name. rewrite F1, N1, F2, N2. simpl.
  split; [reflexivity | lia].
Qed.

(** C1 (the code at the failing input).  Two syntactically distinct
    anonymous kernels registered one after the other in a fresh
    process both get the id [_lambda_func0]: the ids are not distinct.
    The two primitives are nevertheless two objects, and each operator
    still runs its own kernel. *)
Theorem anonymous_kernels_share_one_id :
  exists p1 st1 p2 st2,
    register_cpu_op lambda_ones (OutShaped vec2) initial = (Ok p1, st1)
    /\ register_cpu_op lambda_twos (OutShaped vec2) st1 = (Ok p2, st2)
    /\ name p1 = "_lambda_func0"
    /\ name p2 = "_lambda_func0"
    /\ prim_obj p1 <> prim_obj p2
    /\ fst (bind_primitive p1 [] st2)
       = Ok (Single (mkArray [2] float32 [1%Z; 1%Z]))
    /\ fst (bind_primitive p2 [] st2)
       = Ok (Single (mkArray [2] float32 [2%Z; 2%Z])).
Proof.
  do 4 eexists.
  split; [run_register; reflexivity|].
  split; [run_register; reflexivity|].
  simpl. repeat split; try reflexivity. discriminate.
Qed.

(** ** Lowering *)

Section Lowering.

Variable native_name : nat -> string.

Lemma rbind_Ok {A B} (r : result A) (k : A -> result B) b :
  rbind r k = Ok b -> exists a, r = Ok a /\ k a = Ok b.
Proof. destruct r; simpl; [eauto | discriminate]. Qed.

(** A lowering whose abstract evaluation fails stops there. *)
Lemma func_translation_stops func abs_eval_fn inputs st e :
  (try! out := abs_eval_fn (operand_descriptors inputs)
   in rmap shape_dtype out)%py = Raise e ->
  _func_translation native_name func abs_eval_fn inputs st = (Raise e, st).
Proof.
  intros H. unfold operand_descriptors in H.
  unfold _func_translation, bind at 1, lift at 1.
  destruct (abs_eval_fn _) as [out|e0]; simpl in H.
  - unfold bind at 1, lift at 1. rewrite H. reflexivity.
  - congruence.
Qed.

(** One lowering whose abstract evaluation succeeds, exactly: either
    the generated function compiles, and then it is added to the compiled
    functions and registered as a target, or the exception of numba
    leaves the lowering and nothing has changed. *)
Lemma func_translation_exact func abs_eval_fn inputs st descs :
  (try! out := abs_eval_fn (operand_descriptors inputs)
   in rmap shape_dtype out)%py = Ok descs ->
  _func_translation native_name func abs_eval_fn inputs st
  = if compiles (trampoline_of func inputs descs)
    then (Ok {| call_target_name := native_name (List.length (compiled st));
                operands := inputs;
                operand_shapes_with_layout := map get_shape inputs;
                shape_with_layout :=
                  map (fun d => mkXlaShape (shape d) (dtype_of d)
                                           (output_layout (shape d))) descs |},
          {| _lambda_no := _lambda_no st; next_obj := next_obj st;
             cpu_translations := cpu_translations st;
             compiled :=
               (compiled st ++ [trampoline_of func inputs descs])%list;
             custom_call_targets :=
               (native_name (List.length (compiled st)),
                mkCapsule (List.length (compiled st)) "xla._CUSTOM_CALL_TARGET",
                "cpu") :: custom_call_targets st |})
    else (Raise nopython_failure, st).
Proof.
  intros H. apply rbind_Ok in H as (out & Hout & Hdescs).
  unfold operand_descriptors in Hout.
  cbv [_func_translation _compile_cpu_signature bind lift ret numba_cfunc
       xla_register_custom_call_target modify].
  rewrite Hout, Hdescs. unfold trampoline_of.
  destruct (compiles _); reflexivity.
Qed.

(** A lowering that returns a call node: its abstract evaluation gave
    descriptors, and the function generated for them compiled. *)
Lemma func_translation_Ok func abs_eval_fn inputs st call st' :
  _func_translation native_name func abs_eval_fn inputs st = (Ok call, st') ->
  exists descs,
    (try! out := abs_eval_fn (operand_descriptors inputs)
     in rmap shape_dtype out)%py = Ok descs
    /\ compiles (trampoline_of func inputs descs) = true
    /\ call_target_name call = native_name (List.length (compiled st))
    /\ operands call = inputs
    /\ shape_with_layout call
       = map (fun d => mkXlaShape (shape d) (dtype_of d)
                                  (output_layout (shape d))) descs
    /\ compiled st' = (compiled st ++ [trampoline_of func inputs descs])%list
    /\ cpu_translations st' = cpu_translations st
    /\ custom_call_targets st'
       = (native_name (List.length (compiled st)),
          mkCapsule (List.length (compiled st)) "xla._CUSTOM_CALL_TARGET",
          "cpu") :: custom_call_targets st.
Proof.
  intros H.
  destruct ((try! out := abs_eval_fn (operand_descriptors inputs)
             in rmap shape_dtype out)%py) as [descs|e] eqn:Hd.
  - rewrite (@func_translation_exact func abs_eval_fn inputs st descs Hd) in H.
    destruct (compiles (trampoline_of func inputs descs)) eqn:Hc;
      [|discriminate H].
    injection H as <- <-. exists descs.
    repeat split; try reflexivity. exact Hc.
  - rewrite (@func_translation_stops func abs_eval_fn inputs st e Hd) in H.
    discriminate H.
Qed.

(** The backend calls the rule found under the primitive. *)
Lemma lower_exact p func abs_eval_fn inputs st :
  lookup_translation p st = Some (func, abs_eval_fn) ->
  lower native_name p inputs st
  = _func_translation native_name func abs_eval_fn inputs st.
Proof. intros Hl. unfold lower, bind, get. rewrite Hl. reflexivity. Qed.


(** One lowering that does not compile: the exception of numba, and
    the state as it was. *)
Lemma lower_fails_to_compile p func abs_eval_fn inputs st descs :
  lookup_translation p st = Some (func, abs_eval_fn) ->
  (try! out := abs_eval_fn (operand_descriptors inputs)
   in rmap shape_dtype out)%py = Ok descs ->
  compiles (trampoline_of func inputs descs) = false ->
  lower native_name p inputs st = (Raise nopython_failure, st).
Proof.
  intros Hl Hd Hc.
  rewrite (@lower_exact p func abs_eval_fn inputs st Hl).
  rewrite (@func_translation_exact func abs_eval_fn inputs st descs Hd), Hc.
  reflexivity.
Qed.


End Lowering.




(** A kernel that cannot be compiled for the arguments of the
    generated function: with one output of one dimension, [outs[0]] is a
    number, which has no [fill].  The lowering raises and nothing is
    compiled or registered. *)
Example lowering_can_fail_to_compile :
  exists p st,
    register_cpu_op lambda_ones (OutShaped vec2) initial = (Ok p, st)
    /\ lower cfunc_name p [] st = (Raise nopython_failure, st).
Proof.
  do 2 eexists. split; [run_register; reflexivity|]. reflexivity.
Qed.

(** ** Validation of the output-shape specification *)

Lemma find_existsb {A} (f : A -> bool) l :
  existsb f l = true -> exists x, find f l = Some x.
Proof.
  induction l as [|a l IH]; simpl; [discriminate|].
  destruct (f a); [eauto | exact IH].
Qed.

(** The abstract evaluation of an invalid specification raises
    [ValueError] whatever it is applied to. *)
Lemma abs_eval_rule_invalid out_shapes args :
  invalid_out_spec out_shapes = true ->
  exists msg, abs_eval_rule out_shapes args = Raise (ValueError msg).
Proof.
  destruct out_shapes as [f | s | elems | t]; try discriminate.
  - intros H. apply find_existsb in H as [x Hx].
    unfold abs_eval_rule. rewrite Hx. simpl. eauto.
  - intros _. simpl. eauto.
Qed.

(** C4 (as amended).  [register_cpu_op] does not look at the
    output-shape specification: given one that is neither a callable,
    nor a ShapedArray, nor a list or tuple of ShapedArray, the
    registration succeeds, without compiling or registering any target,
    and the [ValueError] is raised by every later use of the operator:
    by every eager call and by every abstract evaluation. *)
Theorem invalid_spec_fails_at_use :
  forall func out_shapes st,
    invalid_out_spec out_shapes = true ->
    exists prim st',
      register_cpu_op func out_shapes st = (Ok prim, st')
      /\ compiled st' = compiled st
      /\ custom_call_targets st' = custom_call_targets st
      /\ (forall inputs st0, exists msg,
            bind_primitive prim inputs st0 = (Raise (ValueError msg), st0))
      /\ (forall args, exists msg,
            abstract_eval prim args = Raise (ValueError msg)).
Proof.
  intros func out_shapes st Hinv.
  destruct (register_cpu_op_total func out_shapes st)
    as (prim & st' & E & _ & _ & Hi & Ha & _ & _ & _ & Hc & Hr).
  exists prim, st'. repeat split; auto.
  - intros inputs st0.
    destruct (abs_eval_rule_invalid out_shapes (map PArray inputs) Hinv)
      as [msg Hmsg].
    exists msg. unfold bind_primitive, prim_bind, bind, lift.
    rewrite Hi. unfold eval_rule. rewrite Hmsg. reflexivity.
  - intros args. rewrite Ha. apply abs_eval_rule_invalid, Hinv.
Qed.

(** Witness: an integer given as output-shape specification. *)
Lemma invalid_spec_fails_at_use_witness :
  invalid_out_spec (OutOther "int") = true
  /\ exists prim st',
      register_cpu_op custom_op (OutOther "int") initial = (Ok prim, st')
      /\ compiled st' = compiled initial
      /\ custom_call_targets st' = custom_call_targets initial
      /\ (forall inputs st0, exists msg,
            bind_primitive prim inputs st0 = (Raise (ValueError msg), st0))
      /\ (forall args, exists msg,
            abstract_eval prim args = Raise (ValueError msg)).
Proof.
  split; [reflexivity|].
  apply (invalid_spec_fails_at_use custom_op (OutOther "int") initial).
  reflexivity.
Defined.

(** C4 (counterexample).  Registering the example kernel with an
    integer as output-shape specification does not raise. *)
Lemma invalid_spec_is_registered :
  invalid_out_spec (OutOther "int") = true
  /\ ~ rejected_at_registration custom_op (OutOther "int") initial.
Proof.
  split; [reflexivity|].
  intros [e He]. vm_compute in He. discriminate He.
Qed.

(** ** The eager path *)

Lemma rmap_fuse {A B C} (f : A -> result B) (g : B -> C) l :
  rmap (fun a => try! b := f a in Ok (g b))%py l
  = (try! bs := rmap f l in Ok (map g bs))%py.
Proof.
  induction l as [|a l IH]; simpl; [reflexivity|].
  destruct (f a) as [b|e]; simpl; [|reflexivity].
  rewrite IH. destruct (rmap f l); reflexivity.
Qed.

(** The evaluation rule, by the descriptors the specification yields
    on the concrete inputs. *)
Lemma eval_rule_descriptors out_shapes func inputs :
  eval_rule out_shapes func inputs
  = (try! descs := out_descriptors out_shapes (map PArray inputs) in
     call_kernel func
       (map (fun d => np_zeros (shape d) (dtype_of d)) descs) inputs)%py.
Proof.
  unfold eval_rule, out_descriptors.
  destruct (abs_eval_rule out_shapes (map PArray inputs)) as [shapes|e];
    simpl; [|reflexivity].
  rewrite (rmap_fuse shape_dtype (fun s => np_zeros (shape s) (dtype_of s))).
  destruct (rmap shape_dtype shapes); reflexivity.
Qed.

Lemma rmap_shape_dtype_arrays inputs :
  rmap shape_dtype (map PArray inputs) = Ok (map descriptor inputs).
Proof.
  induction inputs as [|a l IH]; simpl; [reflexivity|].
  rewrite IH. reflexivity.
Qed.

Lemma rmap_shape_dtype_shaped descs :
  rmap shape_dtype (map PShaped descs) = Ok descs.
Proof.
  induction descs as [|d l IH]; simpl; [reflexivity|].
  rewrite IH. reflexivity.
Qed.

Lemma find_not_shaped descs :
  find (fun elem => negb (is_ShapedArray elem)) (map PShaped descs) = None.
Proof. induction descs as [|d l IH]; simpl; [reflexivity | exact IH]. Qed.

(** What the specification denotes is what the abstract evaluation
    rule yields, on arrays as on descriptors. *)
Lemma denotes_out_descriptors out_shapes evaluator args descs :
  denotes out_shapes evaluator ->
  rmap shape_dtype args = Ok descs ->
  out_descriptors out_shapes args = evaluator descs.
Proof.
  intros Hd Hargs. unfold out_descriptors, abs_eval_rule.
  destruct out_shapes as [f|s|elems|t]; simpl in Hd.
  - specialize (Hd args descs Hargs).
    destruct (evaluator descs) as [outs|e].
    + destruct Hd as [(objs & -> & Hobjs)|(d & -> & ->)]; simpl;
        [exact Hobjs | reflexivity].
    + rewrite Hd. reflexivity.
  - rewrite Hd. reflexivity.
  - destruct Hd as (outs & -> & Hev).
    rewrite find_not_shaped. simpl.
    rewrite rmap_shape_dtype_shaped, Hev. reflexivity.
  - contradiction.
Qed.

Lemma denotes_reads_descriptors_only out_shapes evaluator :
  denotes out_shapes evaluator -> reads_descriptors_only out_shapes.
Proof.
  intros Hd inputs.
  rewrite (@denotes_out_descriptors out_shapes evaluator _ _ Hd
             (rmap_shape_dtype_arrays inputs)).
  rewrite <- (map_map descriptor PShaped).
  rewrite (@denotes_out_descriptors out_shapes evaluator _ _ Hd
             (rmap_shape_dtype_shaped (map descriptor inputs))).
  reflexivity.
Qed.

(** The module's example [abs_eval] stands for the identity. *)
Lemma abs_eval_denotes : denotes abs_eval (fun descs => Ok descs).
Proof.
  intros args descs H. left. exists args. split; [reflexivity | exact H].
Qed.

Lemma map_const_repeat {A} (x : A) n : forall start,
  map (fun _ => x) (seq start n) = repeat x n.
Proof.
  induction n as [|n IH]; intros start; [reflexivity|].
  simpl. rewrite IH. reflexivity.
Qed.

Lemma zero_buffer_np_zeros d :
  zero_buffer d = np_zeros (shape d) (dtype_of d).
Proof.
  unfold zero_buffer, np_zeros, size_of. f_equal.
  rewrite map_const_repeat. f_equal.
  apply fold_symmetric; [apply Nat.mul_assoc | intros y; apply Nat.mul_comm].
Qed.

Lemma written_store bufs : forall contents,
  written bufs contents = store bufs contents.
Proof.
  unfold written.
  induction bufs as [|b bs IH]; intros contents; [destruct contents; reflexivity|].
  rewrite imap_cons. destruct contents as [|d ds].
  - simpl. destruct b as [sh dt data]. simpl. f_equal.
    transitivity (store bs []); [|destruct bs; reflexivity].
    rewrite <- (IH []). apply imap_ext. intros k x _. simpl.
    destruct k; reflexivity.
  - simpl. f_equal. apply IH.
Qed.

(** C5 (as amended).  An operator registered from a kernel and an
    output-shape specification that stands for a function of shapes and
    dtypes, called eagerly on concrete inputs, returns what the specified
    procedure returns: that function applied to the descriptors of the
    inputs, zero-initialised output buffers for the descriptors returned,
    the kernel run on (outputs, inputs) writing in place, the outputs
    handed back, unwrapped when there is exactly one.  The call changes
    nothing in the process state: no function is compiled and no target
    is registered. *)
Theorem eager_call_follows_procedure :
  forall func out_shapes evaluator st prim st' inputs st0,
    denotes out_shapes evaluator ->
    register_cpu_op func out_shapes st = (Ok prim, st') ->
    bind_primitive prim inputs st0
    = (eager_spec func evaluator inputs, st0).
Proof.
  intros func out_shapes evaluator st prim st' inputs st0 Hden Hreg.
  destruct (register_cpu_op_total func out_shapes st)
    as (q & t & E & _ & _ & Hi & _).
  rewrite Hreg in E. injection E as <- <-.
  unfold bind_primitive, prim_bind, bind, lift, ret.
  rewrite Hi, eval_rule_descriptors.
  rewrite (@denotes_out_descriptors out_shapes evaluator _ _ Hden
             (rmap_shape_dtype_arrays inputs)).
  unfold eager_spec.
  destruct (evaluator (map descriptor inputs)) as [descs|e];
    cbn [rbind]; [|reflexivity].
  unfold call_kernel. rewrite jitted_typable, jitted_run.
  replace (map zero_buffer descs)
    with (map (fun d => np_zeros (shape d) (dtype_of d)) descs)
    by (apply map_ext; intros d; symmetry; apply zero_buffer_np_zeros).
  destruct (k_typable func _ _); [|reflexivity].
  destruct (k_run func _ _) as [contents [e|]]; [reflexivity|].
  rewrite written_store.
  destruct (store _ contents) as [|o [|o' l]]; reflexivity.
Qed.

(** Witness: the module's own example, [custom_op] registered with
    [abs_eval] and called on two arrays of shape (1, 2). *)
Lemma eager_call_follows_procedure_witness :
  denotes abs_eval (fun descs => Ok descs)
  /\ register_cpu_op custom_op abs_eval initial
     = (Ok (mkPrimitive 0 "custom_op" true (abs_eval_rule abs_eval)
                        (eval_rule abs_eval (jitted custom_op))),
        mkRuntime 0 1 [(0, (jitted custom_op, abs_eval_rule abs_eval))] [] [])
  /\ bind_primitive
       (mkPrimitive 0 "custom_op" true (abs_eval_rule abs_eval)
                    (eval_rule abs_eval (jitted custom_op)))
       [z; z] initial
     = (eager_spec custom_op (fun descs => Ok descs) [z; z], initial).
Proof.
  split; [exact abs_eval_denotes|]. split; [reflexivity|].
  apply (@eager_call_follows_procedure custom_op abs_eval
           (fun descs => Ok descs) initial
           (mkPrimitive 0 "custom_op" true (abs_eval_rule abs_eval)
                        (eval_rule abs_eval (jitted custom_op)))
           (mkRuntime 0 1 [(0, (jitted custom_op, abs_eval_rule abs_eval))] [] [])
           [z; z] initial abs_eval_denotes).
  reflexivity.
Defined.

(** C5 (counterexample).  The abstract evaluation is handed the
    concrete arrays, not their descriptors.  With an output-shape
    function that reads the first element of its argument, the eager call
    on the array [2, 0, 0] returns a buffer of two ones, whereas the
    procedure, which runs the abstract evaluation on the descriptor of that
    array, raises. *)
Lemma eager_call_passes_the_arrays :
  exists prim st,
    register_cpu_op lambda_ones length_from_data initial = (Ok prim, st)
    /\ fst (bind_primitive prim [counts] st)
       = Ok (Single (mkArray [2] int32 [1%Z; 1%Z]))
    /\ eager_spec lambda_ones (on_descriptors (abstract_eval prim)) [counts]
       = Raise (TypeError "'ShapedArray' object is not subscriptable")
    /\ fst (bind_primitive prim [counts] st)
       <> eager_spec lambda_ones (on_descriptors (abstract_eval prim)) [counts].
Proof.
  do 2 eexists. split; [run_register; reflexivity|].
  split; [reflexivity|]. split; [reflexivity|].
  intros H. vm_compute in H. discriminate H.
Qed.

End CpuOpFacts.

(* ================================================================== *)
(** * Facts about dependency_check.py *)
(* ================================================================== *)

Section DependencyCheckFacts.

Import DependencyCheck DependencyCheckSpec.
Local Open Scope string_scope.

Ltac run_import :=
  cbv [import_brainpylib_cpu_ops import_brainpylib_gpu_ops except_ImportError
       import_from import_brainpylib check_version set_brainpylib_cpu_ops
       set_brainpylib_gpu_ops register_custom_call_target
       bind get modify ret raise lift].

(** A handle once bound is handed back as it is, whatever is installed
    now: nothing is loaded, checked or registered again. *)
Lemma cached_handle_is_returned site g ops :
  brainpylib_cpu_ops g = Some ops ->
  import_brainpylib_cpu_ops site g = (Ok ops, g).
Proof. intros H. run_import. rewrite H. reflexivity. Qed.

(** With no brainpylib installed the call raises [ImportError] and the
    globals are as before: the next call starts from scratch. *)
Lemma absent_library_leaves_no_trace g :
  brainpylib_cpu_ops g = None ->
  exists msg,
    import_brainpylib_cpu_ops None g = (Raise (ImportError msg), g).
Proof. intros H. run_import. rewrite H. simpl. eauto. Qed.

(** The loop over [registrations().items()] registers every symbol and
    touches nothing else. *)
Lemma registration_loop platform items : forall h,
  exists h',
    for_each items (fun item => register_custom_call_target
                                  (fst item) (snd item) platform) h = (Ok tt, h')
    /\ brainpylib_cpu_ops h' = brainpylib_cpu_ops h
    /\ brainpylib_gpu_ops h' = brainpylib_gpu_ops h
    /\ List.length (custom_call_targets h')
       = List.length (custom_call_targets h) + List.length items.
Proof.
  induction items as [|it items IH]; intros h.
  - exists h. simpl. unfold ret. repeat split; lia.
  - destruct (IH {| brainpylib_cpu_ops := brainpylib_cpu_ops h;
                    brainpylib_gpu_ops := brainpylib_gpu_ops h;
                    custom_call_targets :=
                      (fst it, snd it, platform) :: custom_call_targets h |})
      as (h' & E & Hc & Hg & Hl).
    exists h'. split.
    + change (for_each (it :: items) ?f h)
        with (bind (f it) (fun _ => for_each items f) h).
      unfold bind, register_custom_call_target at 1, modify. exact E.
    + simpl in *. repeat split; [exact Hc | exact Hg | lia].
Qed.

(** A successful load binds the handle and registers every exported
    symbol. *)
Lemma recent_library_is_loaded pkg ops g :
  brainpylib_cpu_ops g = None ->
  cpu_ops pkg = Some ops ->
  str_lt (__version__ pkg) _minimal_brainpylib_version = false ->
  check_brainpy_version pkg = None ->
  exists g',
    import_brainpylib_cpu_ops (Some pkg) g = (Ok ops, g')
    /\ brainpylib_cpu_ops g' = Some ops
    /\ List.length (custom_call_targets g')
       = List.length (custom_call_targets g) + List.length (registrations ops).
Proof.
  intros Hg Hops Hv Hc.
  destruct (registration_loop "cpu" (registrations ops)
              {| brainpylib_cpu_ops := Some ops;
                 brainpylib_gpu_ops := brainpylib_gpu_ops g;
                 custom_call_targets := custom_call_targets g |})
    as (g2 & E & Hb & _ & Hl).
  exists g2. split; [|split; [exact Hb | exact Hl]].
  unfold import_brainpylib_cpu_ops, bind at 1, get. rewrite Hg.
  unfold except_ImportError, import_from. rewrite Hops.
  unfold bind at 1, ret at 1. unfold bind at 1, set_brainpylib_cpu_ops, modify.
  unfold bind at 1. rewrite E.
  unfold bind, import_brainpylib, ret, check_version. rewrite Hv, Hc.
  reflexivity.
Qed.

(** The comparison is the one of Python strings: brainpylib 0.1.9 does
    not compare below the minimal 0.1.10. *)
Remark loader_version_order_is_string_order :
  str_lt "0.1.9" _minimal_brainpylib_version = false.
Proof. reflexivity. Qed.

(** C2 (the code at the failing input).  With brainpylib 0.1.0
    installed, below the minimal 0.1.10, the first call of the loader in
    a fresh process raises [SystemError], but the handle is bound and
    the exported symbol registered by then; the second call, nothing
    having changed, returns the handle instead of failing again. *)
Theorem old_library_is_cached_before_the_check :
  str_lt (__version__ old_brainpylib) _minimal_brainpylib_version = true
  /\ exists msg g1,
       import_brainpylib_cpu_ops (Some old_brainpylib) initial
       = (Raise (SystemError msg), g1)
       /\ brainpylib_cpu_ops g1 = Some some_ops
       /\ custom_call_targets g1 = [("cpu_event_sum", capsule0, "cpu")]
       /\ import_brainpylib_cpu_ops (Some old_brainpylib) g1
          = (Ok some_ops, g1).
Proof.
  split; [reflexivity|].
  do 2 eexists. split; [vm_compute; reflexivity|].
  split; [reflexivity|]. split; reflexivity.
Qed.

End DependencyCheckFacts.

(* ================================================================== *)
(** * Facts about operators.py *)
(* ================================================================== *)

Section OperatorsFacts.

Import Operators OperatorsSpec.
Local Open Scope R_scope.

(** ** Scatter, position by position *)

Lemma scatter_cons op out i ids v ups :
  scatter op out (i :: ids) (v :: ups)
  = scatter op (alter (fun x => op x v) i out) ids ups.
Proof. reflexivity. Qed.

Lemma group_values_nil_r {A} (values : list A) g :
  group_values values [] g = [].
Proof. destruct values; reflexivity. Qed.

(** The entry at [j] after a scatter: the entry before, combined in
    order with the updates sent to [j]. *)
Lemma scatter_lookup op ids : forall ups out (j : nat),
  scatter op out ids ups !! j
  = (fun x => fold_left op (group_values ups ids j) x) <$> (out !! j).
Proof.
  induction ids as [|i ids IH]; intros ups out j.
  - rewrite group_values_nil_r. unfold scatter. simpl.
    destruct (out !! j); reflexivity.
  - destruct ups as [|v ups].
    + unfold scatter. simpl. destruct (out !! j); reflexivity.
    + rewrite scatter_cons, IH, list_lookup_alter. simpl.
      destruct (decide (i = j)) as [->|Hne].
      * rewrite Nat.eqb_refl. destruct (out !! j); reflexivity.
      * apply Nat.eqb_neq in Hne. rewrite Hne. reflexivity.
Qed.

Lemma length_scatter op ids : forall ups out,
  List.length (scatter op out ids ups) = List.length out.
Proof.
  induction ids as [|i ids IH]; intros [|v ups] out; try reflexivity.
  rewrite scatter_cons, IH. apply length_alter.
Qed.

(** Scattering into a constant array: group by group. *)
Lemma scatter_replicate op e n ids ups :
  scatter op (replicate n e) ids ups
  = map (fun g => fold_left op (group_values ups ids g) e) (seq 0 n).
Proof.
  apply list_eq. intros j.
  rewrite scatter_lookup.
  change (map ?f ?l) with (f <$> l). rewrite list_lookup_fmap.
  destruct (Nat.lt_ge_cases j n) as [Hlt|Hge].
  - rewrite lookup_replicate_2, lookup_seq_lt by exact Hlt. reflexivity.
  - rewrite lookup_seq_ge by exact Hge.
    apply (lookup_replicate_None n e j) in Hge. rewrite Hge. reflexivity.
Qed.

Lemma group_values_map {A B} (f : A -> B) values : forall ids g,
  group_values (map f values) ids g = map f (group_values values ids g).
Proof.
  induction values as [|v vs IH]; intros [|i ids] g; simpl; try reflexivity.
  destruct (Nat.eqb i g); simpl; rewrite IH; reflexivity.
Qed.

(** The empty scatter is the zero vector, and gathering follows the
    index array. *)
Example segment_sum_of_nothing n sorted :
  _jit_seg_sum [] [] n sorted = Ok (zeros n).
Proof. reflexivity. Qed.

Example gather_example :
  gather [Fin 10; Fin 20] [0; 1; 0]%nat = Ok [Fin 10; Fin 20; Fin 10].
Proof. reflexivity. Qed.

(** With every index within the array the gather is the read. *)
Lemma gather_in_range (a : list fval) ids :
  Forall (fun i => (i < List.length a)%nat) ids ->
  gather a ids = Ok (read_clamped a ids).
Proof.
  intros H. destruct a as [|x a]; [|reflexivity].
  destruct ids as [|i ids]; [reflexivity|].
  apply Forall_cons_iff in H as [Hi _]. simpl in Hi. lia.
Qed.

Lemma gather_nonempty (a : list fval) ids :
  a <> [] -> gather a ids = Ok (read_clamped a ids).
Proof. intros H. destruct a as [|x a]; [congruence | reflexivity]. Qed.

Lemma length_read_clamped (a : list fval) ids :
  List.length (read_clamped a ids) = List.length ids.
Proof. unfold read_clamped. apply length_map. Qed.

(** ** Operations position by position *)

Lemma elementwise_zip op a b :
  List.length a = List.length b -> elementwise op a b = zip_op op a b.
Proof.
  destruct a as [|x [|x' a]], b as [|y [|y' b]]; intros H;
    try reflexivity; discriminate H.
Qed.

Lemma zip_op_map {A} op (f h : A -> fval) l :
  zip_op op (map f l) (map h l) = map (fun x => op (f x) (h x)) l.
Proof. induction l as [|x l IH]; simpl; [|rewrite IH]; reflexivity. Qed.

(** The updates of a segment operation on data as long as the ids. *)
Lemma segment_same_length op identity data ids n sorted :
  List.length data = List.length ids ->
  segment op identity data ids n sorted
  = Ok (map (fun g => fold_left op (group_values data ids g) identity)
            (seq 0 n)).
Proof.
  intros Hlen. unfold segment, at_, broadcast_to.
  rewrite Hlen, Nat.eqb_refl. cbn [rbind].
  rewrite scatter_replicate. reflexivity.
Qed.

Example unique_example : unique [2; 0; 2]%nat = [0; 2]%nat.
Proof. reflexivity. Qed.

(** ** The mean *)

Lemma fold_fadd_Fin l : forall a,
  fold_left fadd (map Fin l) (Fin a) = Fin (a + total l).
Proof.
  induction l as [|x l IH]; intros a; simpl.
  - f_equal. lra.
  - rewrite IH. f_equal. unfold total. simpl. lra.
Qed.

Lemma fold_fadd_ones {A} (l : list A) : forall a,
  fold_left fadd (map (fun _ => Fin 1) l) (Fin a) = Fin (a + INR (List.length l)).
Proof.
  induction l as [|x l IH]; intros a.
  - simpl. f_equal. lra.
  - change (fold_left fadd (map (fun _ => Fin 1) (x :: l)) (Fin a))
      with (fold_left fadd (map (fun _ => Fin 1) l) (Fin (a + 1))).
    rewrite IH. f_equal.
    change (List.length (x :: l)) with (S (List.length l)).
    rewrite S_INR. lra.
Qed.

Lemma divide_map {A} (f h : A -> fval) l :
  divide (map f l) (map h l) = map (fun x => fdiv (f x) (h x)) l.
Proof.
  unfold divide. rewrite elementwise_zip by (rewrite !length_map; reflexivity).
  apply zip_op_map.
Qed.

Lemma sign_0 : sign 0 = Eq.
Proof.
  unfold sign. destruct (Rlt_dec 0 0) as [H|_]; [lra|reflexivity].
Qed.

(** One entry of the mean: the quotient of the two sums, NaN turned
    into 0. *)
Lemma mean_entry finfo_max (members : list R) :
  nan_to_num finfo_max
    [fdiv (Fin (0 + total members)) (Fin (0 + INR (List.length members)))]
  = [Fin (match members with
          | [] => 0
          | _ :: _ => total members / INR (List.length members)
          end)].
Proof.
  destruct members as [|x l].
  - unfold total. simpl. rewrite !Rplus_0_l.
    destruct (Req_dec_T 0 0) as [_|H]; [|lra].
    rewrite sign_0. reflexivity.
  - assert (Hpos : 0 < INR (List.length (x :: l))) by (apply lt_0_INR; simpl; lia).
    unfold fdiv.
    destruct (Req_dec_T (0 + INR (List.length (x :: l))) 0) as [H|_]; [lra|].
    simpl. rewrite !Rplus_0_l. reflexivity.
Qed.

Lemma syn2post_mean_groups finfo_max values group_ids group_count sorted :
  List.length values = List.length group_ids ->
  syn2post_mean finfo_max (NumArray (map Fin values))
                group_ids group_count sorted
  = Ok (map (fun g => Fin (group_mean values group_ids g)) (seq 0 group_count)).
Proof.
  intros Hlen.
  unfold syn2post_mean, _jit_seg_sum, ones_like, promote_bool.
  rewrite !segment_same_length by (rewrite !length_map; exact Hlen).
  cbn [rbind]. rewrite divide_map. f_equal.
  unfold nan_to_num. rewrite map_map. apply map_ext. intros g.
  rewrite map_map, group_values_map, fold_fadd_Fin.
  rewrite (group_values_map (fun _ : R => Fin 1)), fold_fadd_ones.
  pose proof (mean_entry finfo_max (group_values values group_ids g)) as H.
  unfold nan_to_num in H. simpl in H. injection H as H.
  unfold group_mean. exact H.
Qed.

(** C8.  For values and group ids of equal length, the ids below the
    group count, [syn2post_mean] returns group by group the sum of the
    values of the group divided by their number, and 0 for a group
    without values (the case 0/0); values [1, 2, 3] with ids [0, 0, 1]
    and two groups give [1.5, 3]. *)
Theorem syn2post_mean_is_group_mean :
  (forall finfo_max values group_ids group_count sorted,
     List.length values = List.length group_ids ->
     Forall (fun i => (i < group_count)%nat) group_ids ->
     syn2post_mean finfo_max (NumArray (map Fin values))
                   group_ids group_count sorted
     = Ok (map (fun g => Fin (group_mean values group_ids g))
               (seq 0 group_count)))
  /\ (forall finfo_max sorted,
        syn2post_mean finfo_max (NumArray [Fin 1; Fin 2; Fin 3])
                      [0; 0; 1]%nat 2%nat sorted
        = Ok [Fin (3 / 2); Fin 3]).
Proof.
  split.
  - intros finfo_max values group_ids group_count sorted Hlen _.
    apply syn2post_mean_groups, Hlen.
  - intros finfo_max sorted.
    change [Fin 1; Fin 2; Fin 3] with (map Fin [1; 2; 3]).
    rewrite (syn2post_mean_groups finfo_max [1; 2; 3] [0; 0; 1]%nat 2 sorted eq_refl).
    unfold group_mean, total. simpl.
    assert (E0 : (1 + (2 + 0)) / (1 + 1) = 3 / 2) by field.
    assert (E1 : (3 + 0) / 1 = 3) by field.
    rewrite E0, E1. reflexivity.
Qed.

(** Witness: three values in two groups. *)
Lemma syn2post_mean_is_group_mean_witness :
  List.length [1; 2; 3] = List.length [0; 0; 1]%nat
  /\ Forall (fun i => (i < 2)%nat) [0; 0; 1]%nat
  /\ syn2post_mean 1000 (NumArray (map Fin [1; 2; 3])) [0; 0; 1]%nat 2 true
     = Ok (map (fun g => Fin (group_mean [1; 2; 3] [0; 0; 1]%nat g)) (seq 0 2)).
Proof.
  assert (H : Forall (fun i => (i < 2)%nat) [0; 0; 1]%nat)
    by (repeat constructor).
  split; [reflexivity|]. split; [exact H|].
  apply (proj1 syn2post_mean_is_group_mean 1000 [1; 2; 3] [0; 0; 1]%nat 2%nat true
           eq_refl H).
Defined.

(** ** The softmax *)

Lemma fmax_shift c a b :
  fmax (fadd a (Fin c)) (fadd b (Fin c)) = fadd (fmax a b) (Fin c).
Proof.
  destruct a, b; simpl; try reflexivity.
  f_equal. unfold Rmax.
  destruct (Rle_dec (x + c) (x0 + c)), (Rle_dec x x0); lra.
Qed.

Lemma fold_fmax_shift c l : forall a,
  fold_left fmax (map (fun v => fadd v (Fin c)) l) (fadd a (Fin c))
  = fadd (fold_left fmax l a) (Fin c).
Proof.
  induction l as [|x l IH]; intros a; simpl; [reflexivity|].
  rewrite fmax_shift. apply IH.
Qed.

Lemma fsub_shift c v m :
  fsub (fadd v (Fin c)) (fadd m (Fin c)) = fsub v m.
Proof.
  destruct v, m; simpl; try reflexivity.
  unfold fsub. simpl. f_equal. lra.
Qed.

Lemma length_shift_group c g values : forall ids,
  List.length (shift_group c g values ids) = List.length values.
Proof.
  induction values as [|v vs IH]; intros [|i ids]; simpl; try reflexivity.
  rewrite IH. reflexivity.
Qed.

Lemma group_values_shift_same c g values : forall ids,
  group_values (shift_group c g values ids) ids g
  = map (fun v => fadd v (Fin c)) (group_values values ids g).
Proof.
  induction values as [|v vs IH]; intros [|i ids]; simpl; try reflexivity.
  destruct (Nat.eqb i g); simpl; rewrite IH; reflexivity.
Qed.

Lemma group_values_shift_other c g j values : forall ids,
  j <> g ->
  group_values (shift_group c g values ids) ids j = group_values values ids j.
Proof.
  induction values as [|v vs IH]; intros [|i ids] Hne; simpl; try reflexivity.
  destruct (Nat.eqb_spec i j) as [->|Hij].
  - rewrite (proj2 (Nat.eqb_neq j g) Hne), IH by exact Hne. reflexivity.
  - apply IH, Hne.
Qed.

Lemma nth_map_seq {A} (f : nat -> A) n j d :
  (j < n)%nat -> nth j (map f (seq 0 n)) d = f j.
Proof.
  intros H. rewrite (nth_indep _ d (f 0%nat)) by (rewrite length_map, length_seq; exact H).
  rewrite map_nth, seq_nth by exact H. reflexivity.
Qed.

(** The maxima of the groups after the shift: the maximum of group [g]
    is shifted, the others are as before. *)
Lemma segment_max_shift c g values ids j :
  fold_left fmax (group_values (shift_group c g values ids) ids j) NInf
  = if Nat.eqb j g
    then fadd (fold_left fmax (group_values values ids j) NInf) (Fin c)
    else fold_left fmax (group_values values ids j) NInf.
Proof.
  destruct (Nat.eqb_spec j g) as [->|Hne].
  - rewrite group_values_shift_same.
    change NInf with (fadd NInf (Fin c)) at 1.
    apply fold_fmax_shift.
  - rewrite group_values_shift_other by exact Hne. reflexivity.
Qed.

(** The values less the maximum of their group are what they were. *)
Lemma subtract_gather_shift c g n maxs maxs' :
  List.length maxs = n -> List.length maxs' = n ->
  (forall j, (j < n)%nat ->
     nth j maxs' NaN
     = if Nat.eqb j g then fadd (nth j maxs NaN) (Fin c) else nth j maxs NaN) ->
  forall values ids,
    Forall (fun i => (i < n)%nat) ids ->
    zip_op fsub (shift_group c g values ids) (read_clamped maxs' ids)
    = zip_op fsub values (read_clamped maxs ids).
Proof.
  intros Hl Hl' Hrel.
  induction values as [|v vs IH]; intros [|i ids] Hin; simpl; try reflexivity.
  apply Forall_cons_iff in Hin as [Hi Hin].
  rewrite Hl, Hl'.
  replace (Nat.min i (n - 1)) with i by lia.
  rewrite (Hrel i Hi).
  fold (read_clamped maxs' ids). fold (read_clamped maxs ids).
  rewrite (IH ids Hin).
  destruct (Nat.eqb i g); [rewrite fsub_shift|]; reflexivity.
Qed.

(** Values and ids of equal length. *)
Lemma softmax_shift_same_length finfo_max values ids n c g sorted :
  List.length values = List.length ids ->
  Forall (fun i => (i < n)%nat) ids ->
  syn2post_softmax finfo_max (NumArray (shift_group c g values ids)) ids n sorted
  = syn2post_softmax finfo_max (NumArray values) ids n sorted.
Proof.
  intros Hlen Hin.
  unfold syn2post_softmax, _jit_seg_max, promote_bool, is_boolean.
  rewrite !segment_same_length by (rewrite ?length_shift_group; exact Hlen).
  cbn [rbind].
  rewrite !gather_in_range by (rewrite length_map, length_seq; exact Hin).
  cbn [rbind]. unfold subtract.
  rewrite !elementwise_zip
    by (rewrite ?length_shift_group, length_read_clamped; exact Hlen).
  rewrite (@subtract_gather_shift c g n
             (map (fun j => fold_left fmax (group_values values ids j) NInf)
                  (seq 0 n))
             (map (fun j => fold_left fmax
                              (group_values (shift_group c g values ids) ids j)
                              NInf)
                  (seq 0 n))).
  - reflexivity.
  - rewrite length_map. apply length_seq.
  - rewrite length_map. apply length_seq.
  - intros j Hj. rewrite !nth_map_seq by exact Hj. apply segment_max_shift.
  - exact Hin.
Qed.

(** One value for several ids: it is broadcast to the ids, and the
    result does not depend on it. *)
Lemma group_values_replicate {A} (x : A) ids g :
  group_values (replicate (List.length ids) x) ids g
  = replicate (count_occ Nat.eq_dec ids g) x.
Proof.
  induction ids as [|i ids IH]; [reflexivity|].
  cbn [List.length replicate group_values count_occ].
  destruct (Nat.eq_dec i g) as [->|Hne].
  - rewrite Nat.eqb_refl, IH. reflexivity.
  - rewrite (proj2 (Nat.eqb_neq i g) Hne). exact IH.
Qed.

Lemma fold_fmax_copies r k :
  fold_left fmax (replicate (S k) (Fin r)) NInf = Fin r.
Proof.
  cbn [replicate fold_left fmax].
  induction k as [|k IH]; [reflexivity|].
  cbn [replicate fold_left fmax]. rewrite Rmax_left by lra. exact IH.
Qed.

Lemma elementwise_one op x b :
  (2 <= List.length b)%nat -> elementwise op [x] b = map (op x) b.
Proof.
  destruct b as [|y [|y' b]]; simpl; intros H; try lia. reflexivity.
Qed.

Lemma subtract_one_value r ids n :
  (2 <= List.length ids)%nat ->
  Forall (fun i => (i < n)%nat) ids ->
  subtract [Fin r]
    (read_clamped
       (map (fun j => fold_left fmax
                        (group_values (replicate (List.length ids) (Fin r)) ids j)
                        NInf)
            (seq 0 n))
       ids)
  = map (fun _ => Fin 0) ids.
Proof.
  intros Hlen Hin. unfold subtract.
  rewrite elementwise_one by (rewrite length_read_clamped; exact Hlen).
  unfold read_clamped. rewrite map_map. apply map_ext_in. intros i Hi.
  assert (Hlt : (i < n)%nat).
  { rewrite Forall_forall in Hin. apply Hin, list_elem_of_In, Hi. }
  rewrite length_map, length_seq.
  replace (Nat.min i (n - 1)) with i by lia.
  rewrite nth_map_seq by exact Hlt.
  rewrite group_values_replicate.
  apply (count_occ_In Nat.eq_dec) in Hi.
  destruct (count_occ Nat.eq_dec ids i) as [|k]; [lia|].
  rewrite fold_fmax_copies. unfold fsub. simpl. f_equal. lra.
Qed.

Lemma softmax_of_one_value finfo_max r ids n sorted :
  (2 <= List.length ids)%nat ->
  Forall (fun i => (i < n)%nat) ids ->
  syn2post_softmax finfo_max (NumArray [Fin r]) ids n sorted
  = syn2post_softmax finfo_max (NumArray [Fin 0]) ids n sorted.
Proof.
  intros Hlen Hin.
  assert (Hne : Nat.eqb 1 (List.length ids) = false)
    by (apply Nat.eqb_neq; lia).
  unfold syn2post_softmax, _jit_seg_max, promote_bool, is_boolean.
  unfold segment, at_ at 1 2, broadcast_to.
  change (List.length [Fin r]) with 1%nat.
  change (List.length [Fin 0]) with 1%nat.
  rewrite Hne. cbn [rbind].
  rewrite !scatter_replicate.
  rewrite !gather_in_range by (rewrite length_map, length_seq; exact Hin).
  cbn [rbind].
  rewrite !subtract_one_value by assumption.
  reflexivity.
Qed.

(** C9.  With the group ids below the group count, adding a constant
    [c] to exactly the values of one group [g] leaves the result of
    [syn2post_softmax] unchanged (over the reals): the maximum of the
    group moves by [c] as well, so that the values less their group
    maximum, hence the exponentials, the normalizers and the quotients,
    are the same. *)
Theorem syn2post_softmax_shift_invariant :
  forall finfo_max values group_ids group_count c g sorted,
    Forall (fun i => (i < group_count)%nat) group_ids ->
    syn2post_softmax finfo_max
      (NumArray (shift_group c g values group_ids))
      group_ids group_count sorted
    = syn2post_softmax finfo_max (NumArray values)
        group_ids group_count sorted.
Proof.
  intros finfo_max values ids n c g sorted Hin.
  destruct (Nat.eq_dec (List.length values) (List.length ids)) as [Hlen|Hlen].
  { apply softmax_shift_same_length; assumption. }
  destruct values as [|x [|y values]].
  - destruct ids; reflexivity.
  - destruct ids as [|i ids]; [reflexivity|].
    assert (Hnil : shift_group c g [] ids = []) by (destruct ids; reflexivity).
    change (shift_group c g [x] (i :: ids))
      with ((if Nat.eqb i g then fadd x (Fin c) else x)
            :: shift_group c g [] ids).
    rewrite Hnil.
    destruct (Nat.eqb i g); [|reflexivity].
    destruct x as [r| | |]; try reflexivity.
    cbn [fadd].
    assert (H2 : (2 <= List.length (i :: ids))%nat)
      by (destruct ids; simpl in *; [congruence | lia]).
    rewrite (@softmax_of_one_value finfo_max (r + c) _ n sorted H2 Hin).
    rewrite (@softmax_of_one_value finfo_max r _ n sorted H2 Hin).
    reflexivity.
  - unfold syn2post_softmax, _jit_seg_max, segment, at_, broadcast_to,
           promote_bool.
    rewrite length_shift_group, (proj2 (Nat.eqb_neq _ _) Hlen).
    destruct ids as [|i [|i' ids]]; reflexivity.
Qed.

(** Two equal values in one group share it equally. *)
Example softmax_of_two_equal_values finfo_max sorted :
  syn2post_softmax finfo_max (NumArray [Fin 0; Fin 0]) [0; 0]%nat 1 sorted
  = Ok [Fin (1 / 2); Fin (1 / 2)].
Proof.
  unfold syn2post_softmax, _jit_seg_max, _jit_seg_sum, segment, at_, scatter.
  simpl. unfold fsub. simpl.
  assert (Hm : Rmax 0 0 = 0) by (apply Rmax_left; lra).
  rewrite Hm.
  assert (He : exp (0 + - 0) = 1) by (replace (0 + - 0) with 0 by lra; apply exp_0).
  rewrite He.
  destruct (Req_dec_T (0 + 1 + 1) 0) as [H|_]; [lra|].
  replace (1 / (0 + 1 + 1)) with (1 / 2) by lra. reflexivity.
Qed.

(** Witness: the values [1, 2, 3] in the groups [0, 0, 1], group 0
    shifted by 5. *)
Lemma syn2post_softmax_shift_invariant_witness :
  Forall (fun i => (i < 2)%nat) [0; 0; 1]%nat
  /\ syn2post_softmax 1000
       (NumArray (shift_group 5 0 [Fin 1; Fin 2; Fin 3] [0; 0; 1]%nat))
       [0; 0; 1]%nat 2 true
     = syn2post_softmax 1000 (NumArray [Fin 1; Fin 2; Fin 3])
         [0; 0; 1]%nat 2 true.
Proof.
  assert (H : Forall (fun i => (i < 2)%nat) [0; 0; 1]%nat)
    by (repeat constructor).
  split; [exact H|].
  apply (@syn2post_softmax_shift_invariant 1000 [Fin 1; Fin 2; Fin 3]
           [0; 0; 1]%nat 2%nat 5 0%nat true H).
Defined.

(** ** The mean of a scalar *)

Lemma existsb_unique j l :
  existsb (Nat.eqb j) (unique l) = existsb (Nat.eqb j) l.
Proof.
  apply eq_true_iff_eq. rewrite !existsb_exists. split.
  - intros (x & Hin & Hx). apply Nat.eqb_eq in Hx as <-.
    unfold unique in Hin. apply filter_In in Hin as [_ Hin].
    apply existsb_exists in Hin. exact Hin.
  - intros (x & Hin & Hx). apply Nat.eqb_eq in Hx as <-.
    exists j. split; [|apply Nat.eqb_refl].
    unfold unique. apply filter_In. split.
    + apply in_seq. split; [lia|]. simpl.
      assert (Hmax : Forall (fun k => (k <= list_max l)%nat) l)
        by (apply list_max_le; lia).
      rewrite Forall_forall in Hmax.
      apply list_elem_of_In, Hmax in Hin. lia.
    + apply existsb_exists. exists j. split; [exact Hin | apply Nat.eqb_refl].
Qed.

(** Setting one and the same value at some indices: the indices hit
    hold the value, whatever the number of hits. *)
Lemma fold_set_op_const s j ids : forall a,
  fold_left set_op (group_values (replicate (List.length ids) s) ids j) a
  = if existsb (Nat.eqb j) ids then s else a.
Proof.
  induction ids as [|i ids IH]; intros a; [reflexivity|].
  simpl. rewrite (Nat.eqb_sym j i).
  destruct (Nat.eqb i j); simpl.
  - rewrite IH. destruct (existsb (Nat.eqb j) ids); reflexivity.
  - apply IH.
Qed.

Lemma pre2post_mean_scalar_groups finfo_max s post_num post_ids pre_ids :
  pre2post_mean finfo_max (Scalar s) post_num post_ids pre_ids
  = Ok (map (fun j => if existsb (Nat.eqb j) post_ids then s else Fin 0)
            (seq 0 post_num)).
Proof.
  unfold pre2post_mean, at_, broadcast_to, zeros. simpl.
  rewrite scatter_replicate. f_equal. apply map_ext. intros j.
  rewrite fold_set_op_const, existsb_unique. reflexivity.
Qed.

(** C10.  For a scalar [pre_values] and [post_num] above every entry
    of [post_ids], [pre2post_mean] returns a vector of length [post_num]
    that holds the scalar itself at every index occurring in [post_ids],
    however often it occurs, and 0 at every other index. *)
Theorem pre2post_mean_scalar_sets_once :
  forall finfo_max (s : fval) post_num post_ids pre_ids,
    Forall (fun i => (i < post_num)%nat) post_ids ->
    exists out,
      pre2post_mean finfo_max (Scalar s) post_num post_ids pre_ids = Ok out
      /\ List.length out = post_num
      /\ (forall j, In j post_ids -> out !! j = Some s)
      /\ (forall j, (j < post_num)%nat -> ~ In j post_ids ->
                    out !! j = Some (Fin 0)).
Proof.
  intros finfo_max s post_num post_ids pre_ids Hin.
  eexists. split; [apply pre2post_mean_scalar_groups|].
  split; [rewrite length_map; apply length_seq|].
  change (map ?f ?l) with (f <$> l).
  split.
  - intros j Hj.
    assert (Hlt : (j < post_num)%nat).
    { rewrite Forall_forall in Hin. apply Hin, list_elem_of_In, Hj. }
    rewrite list_lookup_fmap, lookup_seq_lt by exact Hlt. simpl.
    replace (existsb (Nat.eqb j) post_ids) with true; [reflexivity|].
    symmetry. apply existsb_exists. exists j.
    split; [exact Hj | apply Nat.eqb_refl].
  - intros j Hlt Hj.
    rewrite list_lookup_fmap, lookup_seq_lt by exact Hlt. simpl.
    replace (existsb (Nat.eqb j) post_ids) with false; [reflexivity|].
    symmetry. apply not_true_is_false. intros H.
    apply existsb_exists in H as (x & Hx & E).
    apply Nat.eqb_eq in E as <-. exact (Hj Hx).
Qed.

(** Witness: the scalar 7 sent to the indices [2, 0, 2] of a vector of
    length 4. *)
Lemma pre2post_mean_scalar_sets_once_witness :
  Forall (fun i => (i < 4)%nat) [2; 0; 2]%nat
  /\ exists out,
       pre2post_mean 1000 (Scalar (Fin 7)) 4 [2; 0; 2]%nat None = Ok out
       /\ List.length out = 4%nat
       /\ (forall j, In j [2; 0; 2]%nat -> out !! j = Some (Fin 7))
       /\ (forall j, (j < 4)%nat -> ~ In j [2; 0; 2]%nat ->
                     out !! j = Some (Fin 0)).
Proof.
  assert (H : Forall (fun i => (i < 4)%nat) [2; 0; 2]%nat)
    by (repeat constructor).
  split; [exact H|].
  apply (@pre2post_mean_scalar_sets_once 1000 (Fin 7) 4 [2; 0; 2]%nat None H).
Defined.

(** ** The pre-to-post family *)




(** Reading finite values. *)
Lemma read_clamped_Fin values ids :
  values <> [] ->
  read_clamped (map Fin values) ids
  = map Fin (map (fun i => nth (Nat.min i (List.length values - 1)) values 0)
                 ids).
Proof.
  intros Hne. unfold read_clamped. rewrite map_map, length_map.
  apply map_ext. intros i.
  assert (Hlt : (Nat.min i (List.length values - 1) < List.length values)%nat).
  { destruct values; [congruence|]. simpl. lia. }
  rewrite (nth_indep _ NaN (Fin 0)) by (rewrite length_map; exact Hlt).
  apply map_nth.
Qed.


Lemma map_Fin_nonempty (values : list R) : values <> [] -> map Fin values <> [].
Proof. destruct values; [congruence | discriminate]. Qed.

(** The four plain reductions, group by group: the entry at [j] is 0
    combined in order with the gathered values sent to [j]. *)
Lemma pre2post_groups finfo_max op values post_num post_ids pre_ids :
  op <> Mean ->
  values <> [] ->
  List.length pre_ids = List.length post_ids ->
  pre2post finfo_max op (Vector (map Fin values)) post_num post_ids
           (Some pre_ids)
  = Ok (map (fun j =>
               fold_left (combine_of op)
                 (map Fin
                    (group_values
                       (map (fun i => nth (Nat.min i (List.length values - 1))
                                          values 0) pre_ids)
                       post_ids j))
                 (Fin 0))
            (seq 0 post_num)).
Proof.
  intros Hop Hne Hlen.
  pose proof (map_Fin_nonempty Hne) as Hne'.
  destruct op; try congruence;
    unfold pre2post, pre2post_sum, pre2post_prod, pre2post_min, pre2post_max,
           _raise_pre_ids_is_none, as_device_array; cbn [rbind];
    rewrite (gather_nonempty pre_ids Hne'); cbn [rbind];
    unfold at_, broadcast_to, zeros;
    rewrite length_read_clamped, Hlen, Nat.eqb_refl; cbn [rbind];
    rewrite scatter_replicate, (read_clamped_Fin pre_ids Hne);
    f_equal; apply map_ext; intros j; rewrite group_values_map; reflexivity.
Qed.

Lemma fold_fmul_zero l : forall a,
  a = 0 -> fold_left fmul (map Fin l) (Fin a) = Fin 0.
Proof.
  induction l as [|x l IH]; intros a ->; [reflexivity|].
  cbn [map fold_left fmul]. apply IH. lra.
Qed.

Lemma fold_fmax_Fin l : forall a,
  fold_left fmax (map Fin l) (Fin a) = Fin (fold_left Rmax l a).
Proof.
  induction l as [|x l IH]; intros a; [reflexivity|].
  cbn [map fold_left fmax]. apply IH.
Qed.

Lemma fold_fmin_Fin l : forall a,
  fold_left fmin (map Fin l) (Fin a) = Fin (fold_left Rmin l a).
Proof.
  induction l as [|x l IH]; intros a; [reflexivity|].
  cbn [map fold_left fmin]. apply IH.
Qed.



(** The mean of the values the synapses read. *)
Lemma pre2post_mean_groups finfo_max values post_num post_ids pre_ids :
  values <> [] ->
  List.length pre_ids = List.length post_ids ->
  pre2post_mean finfo_max (Vector (map Fin values)) post_num post_ids
                (Some pre_ids)
  = Ok (map (fun j => Fin (group_mean
               (map (fun i => nth (Nat.min i (List.length values - 1))
                                  values 0) pre_ids)
               post_ids j))
            (seq 0 post_num)).
Proof.
  intros Hne Hlen.
  unfold pre2post_mean, _raise_pre_ids_is_none, as_device_array, pre2syn,
         _pre2syn.
  cbn [rbind].
  destruct (map Fin values) as [|v vs] eqn:E;
    [exfalso; exact (map_Fin_nonempty Hne E)|].
  rewrite <- E. cbn [rbind].
  rewrite (read_clamped_Fin pre_ids Hne).
  apply syn2post_mean_groups. rewrite length_map. exact Hlen.
Qed.

(** Sums start from 0 as they should; so do products, which are
    therefore 0 whatever the finite values are. *)
Example pre2post_prod_is_zero :
  pre2post_prod (Vector [Fin 2; Fin 3]) 1 [0; 0]%nat (Some [0; 1]%nat)
  = Ok [Fin (0 * 2 * 3)].
Proof. reflexivity. Qed.




(** ** The gate of the event-driven operators *)

(** The gate is the comparison of the two version strings. *)
Lemma check_brainpylib_passes lib ops_name :
  str_lt (__version__ lib) _BRAINPYLIB_MINIMAL_VERSION = false ->
  _check_brainpylib (Some lib) ops_name = Ok tt.
Proof. intros H. unfold _check_brainpylib. rewrite H. reflexivity. Qed.

Lemma check_brainpylib_fails brainpylib ops_name :
  match brainpylib with
  | Some lib => str_lt (__version__ lib) _BRAINPYLIB_MINIMAL_VERSION = true
  | None => True
  end ->
  exists msg,
    _check_brainpylib brainpylib ops_name = Raise (PackageMissingError msg).
Proof.
  destruct brainpylib as [lib|]; simpl; [|eauto].
  intros ->. eauto.
Qed.

(** Without brainpylib, or with a version string that compares below
    the minimal one, both operators raise PackageMissingError and no
    operator of the extension has been invoked; otherwise each call goes
    on to the operator of the extension and returns what it returns. *)
Lemma gate_follows_the_string_order
    brainpylib events pre2post post_num values log :
  (match brainpylib with
   | Some lib => str_lt (__version__ lib) _BRAINPYLIB_MINIMAL_VERSION = true
   | None => True
   end ->
   (exists msg,
      pre2post_event_sum brainpylib events pre2post post_num values log
      = (Raise (PackageMissingError msg), log))
   /\ (exists msg,
         pre2post_event_prod brainpylib events pre2post post_num values log
         = (Raise (PackageMissingError msg), log)))
  /\ (forall lib,
        brainpylib = Some lib ->
        str_lt (__version__ lib) _BRAINPYLIB_MINIMAL_VERSION = false ->
        pre2post_event_sum brainpylib events pre2post post_num values log
        = (event_sum lib events pre2post post_num values,
           (log ++ ["event_sum"%string])%list)
        /\ pre2post_event_prod brainpylib events pre2post post_num values log
           = (event_prod lib events pre2post post_num values,
              (log ++ ["event_prod"%string])%list)).
Proof.
  destruct pre2post as [indices idnptr]. split.
  - intros Hun. split.
    + destruct (check_brainpylib_fails brainpylib "pre2post_event_sum" Hun)
        as [msg Hmsg].
      exists msg. unfold pre2post_event_sum, bind, lift. rewrite Hmsg. reflexivity.
    + destruct (check_brainpylib_fails brainpylib "pre2post_event_prod" Hun)
        as [msg Hmsg].
      exists msg. unfold pre2post_event_prod, bind, lift. rewrite Hmsg. reflexivity.
  - intros lib -> Hav. split.
    + unfold pre2post_event_sum, bind, lift.
      rewrite (check_brainpylib_passes _ _ Hav). reflexivity.
    + unfold pre2post_event_prod, bind, lift.
      rewrite (check_brainpylib_passes _ _ Hav). reflexivity.
Qed.

(** The versions 0.0.0, 0.0.1 and 0.0.2 are below the minimal one in
    both orders. *)
Lemma versions_below_minimum_are_rejected c :
  (c < 3)%nat ->
  str_lt ("0.0." ++ str_of_nat c)%string _BRAINPYLIB_MINIMAL_VERSION = true
  /\ extension_available (Some (stub_brainpylib ("0.0." ++ str_of_nat c))) = false.
Proof.
  intros H. destruct c as [|[|[|c]]]; try (split; reflexivity). lia.
Qed.

(** The comparison is the one of Python strings: 0.0.10 compares
    below 0.0.3, one character after the other. *)
Remark version_order_is_string_order :
  str_lt "0.0.10" _BRAINPYLIB_MINIMAL_VERSION = true
  /\ parse_version "0.0.10" = Some [0; 0; 10]%nat
  /\ parse_version _BRAINPYLIB_MINIMAL_VERSION = Some [0; 0; 3]%nat
  /\ version_lt [0; 0; 10]%nat [0; 0; 3]%nat = false.
Proof. repeat split; reflexivity. Qed.

(** C6 (the code at the failing input).  With brainpylib 0.0.10
    installed, which is not below the minimal 0.0.3, the extension is
    available; yet [pre2post_event_sum] and [pre2post_event_prod] raise
    PackageMissingError, whatever the operators of the extension and the
    arguments are, and no operator of the extension is invoked: the two
    version strings are compared as strings. *)
Theorem newer_extension_is_rejected :
  forall event_sum event_prod events pre2post post_num values log,
    extension_available (Some (mkBrainpylib "0.0.10" event_sum event_prod))
    = true
    /\ (exists msg,
          pre2post_event_sum (Some (mkBrainpylib "0.0.10" event_sum event_prod))
                             events pre2post post_num values log
          = (Raise (PackageMissingError msg), log))
    /\ (exists msg,
          pre2post_event_prod (Some (mkBrainpylib "0.0.10" event_sum event_prod))
                              events pre2post post_num values log
          = (Raise (PackageMissingError msg), log)).
Proof.
  intros event_sum event_prod events pre2post post_num values log.
  split; [reflexivity|].
  apply (proj1 (gate_follows_the_string_order
                  (Some (mkBrainpylib "0.0.10" event_sum event_prod))
                  events pre2post post_num values log)).
  reflexivity.
Qed.

End OperatorsFacts.

(* ================================================================== *)
(** * More facts about dependency_check.py *)
(* ================================================================== *)

Section DependencyCheckMoreFacts.

Import DependencyCheck DependencyCheckSpec DependencyCheckMore.
Local Open Scope string_scope.

(** The loop over the exported symbols, exactly. *)
Lemma registration_loop_exact platform items : forall h,
  for_each items (fun item => register_custom_call_target
                                (fst item) (snd item) platform) h
  = (Ok tt,
     {| brainpylib_cpu_ops := brainpylib_cpu_ops h;
        brainpylib_gpu_ops := brainpylib_gpu_ops h;
        custom_call_targets :=
          (registered_for platform items ++ custom_call_targets h)%list |}).
Proof.
  induction items as [|it items IH]; intros h.
  - destruct h. reflexivity.
  - change (for_each (it :: items) ?f h)
      with (bind (f it) (fun _ => for_each items f) h).
    unfold bind, register_custom_call_target at 1, modify.
    rewrite IH. simpl. unfold registered_for. simpl.
    rewrite <- app_assoc. reflexivity.
Qed.

(** The version check reads the globals and leaves them. *)
Lemma check_version_state pkg h : snd (check_version pkg h) = h.
Proof.
  unfold check_version.
  destruct (str_lt (__version__ pkg) _minimal_brainpylib_version);
    [reflexivity|].
  destruct (check_brainpy_version pkg); reflexivity.
Qed.

(** The CPU loader on an installed package whose [cpu_ops] can be
    imported, the handle not being bound yet. *)
Lemma cpu_loader_unfolded pkg ops g :
  brainpylib_cpu_ops g = None ->
  cpu_ops pkg = Some ops ->
  import_brainpylib_cpu_ops (Some pkg) g
  = (after_check cpu_install_hint ops
       (fst (check_version pkg
               {| brainpylib_cpu_ops := Some ops;
                  brainpylib_gpu_ops := brainpylib_gpu_ops g;
                  custom_call_targets :=
                    (registered_for "cpu" (registrations ops)
                     ++ custom_call_targets g)%list |})),
     {| brainpylib_cpu_ops := Some ops;
        brainpylib_gpu_ops := brainpylib_gpu_ops g;
        custom_call_targets :=
          (registered_for "cpu" (registrations ops)
           ++ custom_call_targets g)%list |}).
Proof.
  intros Hg Hops.
  unfold import_brainpylib_cpu_ops, bind at 1, get. rewrite Hg.
  unfold except_ImportError, import_from. rewrite Hops.
  unfold bind at 1, ret at 1. unfold bind at 1, set_brainpylib_cpu_ops, modify.
  unfold bind at 1. rewrite registration_loop_exact. simpl.
  unfold bind at 1, import_brainpylib, ret at 1. unfold bind.
  match goal with |- context [check_version pkg ?h] =>
    pose proof (check_version_state pkg h) as Hs;
    destruct (check_version pkg h) as [[u|e] h'] end;
    simpl in Hs; subst; simpl; [reflexivity|].
  destruct e; reflexivity.
Qed.

Lemma gpu_loader_unfolded pkg ops g :
  brainpylib_gpu_ops g = None ->
  gpu_ops pkg = Some ops ->
  import_brainpylib_gpu_ops (Some pkg) g
  = (after_check gpu_install_hint ops
       (fst (check_version pkg
               {| brainpylib_cpu_ops := brainpylib_cpu_ops g;
                  brainpylib_gpu_ops := Some ops;
                  custom_call_targets :=
                    (registered_for "gpu" (registrations ops)
                     ++ custom_call_targets g)%list |})),
     {| brainpylib_cpu_ops := brainpylib_cpu_ops g;
        brainpylib_gpu_ops := Some ops;
        custom_call_targets :=
          (registered_for "gpu" (registrations ops)
           ++ custom_call_targets g)%list |}).
Proof.
  intros Hg Hops.
  unfold import_brainpylib_gpu_ops, bind at 1, get. rewrite Hg.
  unfold except_ImportError, import_from. rewrite Hops.
  unfold bind at 1, ret at 1. unfold bind at 1, set_brainpylib_gpu_ops, modify.
  unfold bind at 1. rewrite registration_loop_exact. simpl.
  unfold bind at 1, import_brainpylib, ret at 1. unfold bind.
  match goal with |- context [check_version pkg ?h] =>
    pose proof (check_version_state pkg h) as Hs;
    destruct (check_version pkg h) as [[u|e] h'] end;
    simpl in Hs; subst; simpl; [reflexivity|].
  destruct e; reflexivity.
Qed.

(** The loaders when the import statement itself fails. *)
Lemma cpu_loader_import_fails site g :
  brainpylib_cpu_ops g = None ->
  (site = None \/ exists pkg, site = Some pkg /\ cpu_ops pkg = None) ->
  import_brainpylib_cpu_ops site g = (Raise (ImportError cpu_install_hint), g).
Proof.
  intros Hg Hsite.
  unfold import_brainpylib_cpu_ops, bind at 1, get. rewrite Hg.
  unfold except_ImportError, import_from.
  destruct Hsite as [->|(pkg & -> & Hnone)]; [reflexivity|].
  rewrite Hnone. reflexivity.
Qed.

Lemma gpu_loader_import_fails site g :
  brainpylib_gpu_ops g = None ->
  (site = None \/ exists pkg, site = Some pkg /\ gpu_ops pkg = None) ->
  import_brainpylib_gpu_ops site g = (Raise (ImportError gpu_install_hint), g).
Proof.
  intros Hg Hsite.
  unfold import_brainpylib_gpu_ops, bind at 1, get. rewrite Hg.
  unfold except_ImportError, import_from.
  destruct Hsite as [->|(pkg & -> & Hnone)]; [reflexivity|].
  rewrite Hnone. reflexivity.
Qed.

Lemma site_cases (site : option brainpylib_package)
    (sub : brainpylib_package -> option ops_module) :
  (site = None \/ exists pkg, site = Some pkg /\ sub pkg = None)
  \/ exists pkg ops, site = Some pkg /\ sub pkg = Some ops.
Proof.
  destruct site as [pkg|]; [|left; left; reflexivity].
  destruct (sub pkg) as [ops|] eqn:E; [right; eauto | left; right; eauto].
Qed.

(** ** [import_taichi] *)

Lemma tuple_lt_triple a b c :
  tuple_lt [a; b; c] _minimal_taichi_version = false
  <-> 1 < a \/ (a = 1 /\ 7 <= b).
Proof.
  unfold _minimal_taichi_version. simpl.
  destruct (Nat.ltb_spec a 1), (Nat.ltb_spec 1 a),
           (Nat.ltb_spec b 7), (Nat.ltb_spec 7 b),
           (Nat.ltb_spec c 0), (Nat.ltb_spec 0 c);
    split; intros Hx; try discriminate; try reflexivity; lia.
Qed.

(** X1.  With a taichi of version (a, b, c) bound or installed,
    [import_taichi] returns the module exactly when the version is at
    least (1, 7, 0) as a triple of numbers, that is when 1 < a, or a = 1
    and 7 <= b, and raises [RuntimeError] when it is older, that is when
    a < 1, or a = 1 and b < 7; the module is bound in either case, and
    the test is made again at every call: calling once more ends the same
    way. *)
Theorem import_taichi_checks_every_call :
  forall a b c site taichi,
    taichi = Some (mkTaichi [a; b; c])
    \/ (taichi = None /\ site = Some (mkTaichi [a; b; c])) ->
    (fst (import_taichi site taichi) = Returned (mkTaichi [a; b; c])
     <-> 1 < a \/ (a = 1 /\ 7 <= b))
    /\ (a < 1 \/ (a = 1 /\ b < 7) ->
        exists msg, fst (import_taichi site taichi) = RuntimeError msg)
    /\ snd (import_taichi site taichi) = Some (mkTaichi [a; b; c])
    /\ import_taichi site (snd (import_taichi site taichi))
       = import_taichi site taichi.
Proof.
  intros a b c site taichi H.
  pose proof (tuple_lt_triple a b c) as T.
  destruct (tuple_lt [a; b; c] _minimal_taichi_version) eqn:Et;
    destruct H as [->|[-> ->]];
    unfold import_taichi; cbn [taichi_version]; rewrite Et;
    cbn [fst snd taichi_version]; rewrite ?Et;
    (split; [|split; [|split; reflexivity]]).
  all: try (intros _; eexists; reflexivity).
  all: try (intros Hold; exfalso;
            assert (Hnew : 1 < a \/ (a = 1 /\ 7 <= b))
              by (apply T; reflexivity); lia).
  all: split; intros H'; try reflexivity;
    try discriminate H'; try (apply T; reflexivity);
    apply T in H'; discriminate H'.
Qed.

(** Witness: taichi 1.6.0 installed, nothing bound yet. *)
Lemma import_taichi_checks_every_call_witness :
  (fst (import_taichi (Some (mkTaichi [1; 6; 0])) None)
   = Returned (mkTaichi [1; 6; 0])
   <-> 1 < 1 \/ (1 = 1 /\ 7 <= 6))
  /\ (1 < 1 \/ (1 = 1 /\ 6 < 7) ->
      exists msg,
        fst (import_taichi (Some (mkTaichi [1; 6; 0])) None)
        = RuntimeError msg)
  /\ snd (import_taichi (Some (mkTaichi [1; 6; 0])) None)
     = Some (mkTaichi [1; 6; 0])
  /\ import_taichi (Some (mkTaichi [1; 6; 0]))
       (snd (import_taichi (Some (mkTaichi [1; 6; 0])) None))
     = import_taichi (Some (mkTaichi [1; 6; 0])) None.
Proof.
  apply (@import_taichi_checks_every_call 1 6 0
           (Some (mkTaichi [1; 6; 0])) None).
  right. split; reflexivity.
Defined.

(** ** The two loaders side by side *)

(** X2.  The two loaders keep to their own global: whatever is
    installed and however the call ends, [import_brainpylib_cpu_ops]
    leaves the answer of [is_brainpylib_gpu_installed] as it was, and
    [import_brainpylib_gpu_ops] leaves the CPU handle as it was. *)
Theorem loaders_keep_to_their_own_global :
  forall site g,
    is_brainpylib_gpu_installed (snd (import_brainpylib_cpu_ops site g))
    = is_brainpylib_gpu_installed g
    /\ brainpylib_cpu_ops (snd (import_brainpylib_gpu_ops site g))
       = brainpylib_cpu_ops g.
Proof.
  intros site g. split.
  - destruct (brainpylib_cpu_ops g) as [ops|] eqn:Hg.
    + rewrite (@cached_handle_is_returned site g _ Hg). reflexivity.
    + destruct (site_cases site cpu_ops) as [Hf|(pkg & ops & -> & Hops)].
      * rewrite (@cpu_loader_import_fails _ _ Hg Hf). reflexivity.
      * rewrite (@cpu_loader_unfolded pkg _ g Hg Hops). reflexivity.
  - destruct (brainpylib_gpu_ops g) as [ops|] eqn:Hg.
    + unfold import_brainpylib_gpu_ops, bind, get. rewrite Hg. reflexivity.
    + destruct (site_cases site gpu_ops) as [Hf|(pkg & ops & -> & Hops)].
      * rewrite (@gpu_loader_import_fails _ _ Hg Hf). reflexivity.
      * rewrite (@gpu_loader_unfolded pkg _ g Hg Hops). reflexivity.
Qed.

(** X3.  A first successful call of [import_brainpylib_gpu_ops] (the
    GPU module importable, the version not below the minimal one, no
    [check_brainpy_version] or one that returns) binds the handle and
    adds to the registry exactly the exported symbols, each for the
    platform gpu, in the order of the export, and nothing else. *)
Theorem gpu_load_registers_the_exports :
  forall pkg ops g,
    brainpylib_gpu_ops g = None ->
    gpu_ops pkg = Some ops ->
    str_lt (__version__ pkg) _minimal_brainpylib_version = false ->
    (check_brainpy_version pkg = None
     \/ check_brainpy_version pkg = Some (Ok tt)) ->
    import_brainpylib_gpu_ops (Some pkg) g
    = (Ok ops,
       {| brainpylib_cpu_ops := brainpylib_cpu_ops g;
          brainpylib_gpu_ops := Some ops;
          custom_call_targets :=
            (registered_for "gpu" (registrations ops)
             ++ custom_call_targets g)%list |}).
Proof.
  intros pkg ops g Hg Hops Hv Hc.
  rewrite (@gpu_loader_unfolded pkg _ g Hg Hops).
  unfold check_version. rewrite Hv.
  destruct Hc as [-> | ->]; reflexivity.
Qed.

(** Witness: a GPU build exporting two symbols. *)
Lemma gpu_load_registers_the_exports_witness :
  import_brainpylib_gpu_ops
    (Some (mkPackage "0.2.8" None
             (Some (mkOps [("gpu_event_sum", capsule0);
                           ("gpu_csr_matvec", capsule0)]))
             None))
    initial
  = (Ok (mkOps [("gpu_event_sum", capsule0); ("gpu_csr_matvec", capsule0)]),
     {| brainpylib_cpu_ops := None;
        brainpylib_gpu_ops :=
          Some (mkOps [("gpu_event_sum", capsule0);
                       ("gpu_csr_matvec", capsule0)]);
        custom_call_targets :=
          [("gpu_csr_matvec", capsule0, "gpu");
           ("gpu_event_sum", capsule0, "gpu")] |}).
Proof.
  apply (@gpu_load_registers_the_exports
           (mkPackage "0.2.8" None
              (Some (mkOps [("gpu_event_sum", capsule0);
                            ("gpu_csr_matvec", capsule0)]))
              None)
           (mkOps [("gpu_event_sum", capsule0); ("gpu_csr_matvec", capsule0)])
           initial).
  - reflexivity.
  - reflexivity.
  - reflexivity.
  - left. reflexivity.
Defined.

(** X4.  Once [import_brainpylib_cpu_ops] has returned a handle, every
    later call returns that same handle and changes nothing, whatever is
    installed by then: no symbol is registered a second time. *)
Theorem returned_handle_stays :
  forall site g ops g1,
    import_brainpylib_cpu_ops site g = (Ok ops, g1) ->
    forall site', import_brainpylib_cpu_ops site' g1 = (Ok ops, g1).
Proof.
  intros site g ops g1 H site'.
  apply cached_handle_is_returned.
  destruct (brainpylib_cpu_ops g) as [ops0|] eqn:Hg.
  - rewrite (@cached_handle_is_returned site g _ Hg) in H.
    injection H as <- <-. exact Hg.
  - destruct (site_cases site cpu_ops) as [Hf|(pkg & ops' & -> & Hops)].
    + rewrite (@cpu_loader_import_fails _ _ Hg Hf) in H. discriminate H.
    + rewrite (@cpu_loader_unfolded pkg _ g Hg Hops) in H.
      injection H as Hr <-. simpl.
      destruct (fst (check_version pkg _)) as [u|e]; simpl in Hr.
      * injection Hr as ->. reflexivity.
      * destruct e; discriminate Hr.
Qed.

(** Witness: brainpylib 0.2.8 loaded in a fresh process, then removed. *)
Lemma returned_handle_stays_witness :
  import_brainpylib_cpu_ops
    (Some (mkPackage "0.2.8" (Some some_ops) None None)) initial
  = (Ok some_ops,
     mkGlobals (Some some_ops) None [("cpu_event_sum", capsule0, "cpu")])
  /\ import_brainpylib_cpu_ops None
       (mkGlobals (Some some_ops) None [("cpu_event_sum", capsule0, "cpu")])
     = (Ok some_ops,
        mkGlobals (Some some_ops) None [("cpu_event_sum", capsule0, "cpu")]).
Proof.
  assert (H : import_brainpylib_cpu_ops
                (Some (mkPackage "0.2.8" (Some some_ops) None None)) initial
              = (Ok some_ops,
                 mkGlobals (Some some_ops) None
                           [("cpu_event_sum", capsule0, "cpu")]))
    by reflexivity.
  split; [exact H|].
  apply (@returned_handle_stays
           (Some (mkPackage "0.2.8" (Some some_ops) None None)) initial
           some_ops
           (mkGlobals (Some some_ops) None [("cpu_event_sum", capsule0, "cpu")])
           H None).
Defined.

(** X5.  An [ImportError] that leaves a loader always carries the
    installation hint of that loader: the message of the error raised
    inside the [try] block, by the import or by
    [brainpylib.check_brainpy_version], never gets out. *)
Theorem import_errors_carry_the_hint :
  forall site g msg g',
    (import_brainpylib_cpu_ops site g = (Raise (ImportError msg), g') ->
     msg = cpu_install_hint)
    /\ (import_brainpylib_gpu_ops site g = (Raise (ImportError msg), g') ->
        msg = gpu_install_hint).
Proof.
  intros site g msg g'. split; intros H.
  - destruct (brainpylib_cpu_ops g) as [ops|] eqn:Hg.
    + rewrite (@cached_handle_is_returned site g _ Hg) in H. discriminate H.
    + destruct (site_cases site cpu_ops) as [Hf|(pkg & ops & -> & Hops)].
      * rewrite (@cpu_loader_import_fails _ _ Hg Hf) in H. congruence.
      * rewrite (@cpu_loader_unfolded pkg _ g Hg Hops) in H.
        injection H as Hr _.
        destruct (fst (check_version pkg _)) as [u|e]; simpl in Hr;
          [discriminate Hr|].
        destruct e; simpl in Hr; congruence.
  - destruct (brainpylib_gpu_ops g) as [ops|] eqn:Hg.
    + unfold import_brainpylib_gpu_ops, bind, get in H. rewrite Hg in H.
      discriminate H.
    + destruct (site_cases site gpu_ops) as [Hf|(pkg & ops & -> & Hops)].
      * rewrite (@gpu_loader_import_fails _ _ Hg Hf) in H. congruence.
      * rewrite (@gpu_loader_unfolded pkg _ g Hg Hops) in H.
        injection H as Hr _.
        destruct (fst (check_version pkg _)) as [u|e]; simpl in Hr;
          [discriminate Hr|].
        destruct e; simpl in Hr; congruence.
Qed.

(** Witness: brainpylib installed, whose [check_brainpy_version] raises
    an [ImportError] of its own. *)
Lemma import_errors_carry_the_hint_witness :
  import_brainpylib_cpu_ops
    (Some (mkPackage "0.2.8" (Some some_ops) None
             (Some (Raise (ImportError "No module named 'brainpy'")))))
    initial
  = (Raise (ImportError cpu_install_hint),
     mkGlobals (Some some_ops) None [("cpu_event_sum", capsule0, "cpu")])
  /\ cpu_install_hint = cpu_install_hint.
Proof.
  assert (H : import_brainpylib_cpu_ops
                (Some (mkPackage "0.2.8" (Some some_ops) None
                         (Some (Raise (ImportError "No module named 'brainpy'")))))
                initial
              = (Raise (ImportError cpu_install_hint),
                 mkGlobals (Some some_ops) None
                           [("cpu_event_sum", capsule0, "cpu")]))
    by reflexivity.
  split; [exact H|].
  exact (proj1 (@import_errors_carry_the_hint
                  (Some (mkPackage "0.2.8" (Some some_ops) None
                           (Some (Raise (ImportError "No module named 'brainpy'")))))
                  initial cpu_install_hint
                  (mkGlobals (Some some_ops) None
                             [("cpu_event_sum", capsule0, "cpu")]))
               H).
Defined.

End DependencyCheckMoreFacts.

(* ================================================================== *)
(** * More facts about cpu_op.py *)
(* ================================================================== *)

Section CpuOpMoreFacts.

Import CpuOp CpuOpSpec CpuOpMore.
Local Open Scope string_scope.

(** ** The translation table *)

Lemma lookup_head obj rule rest p st :
  cpu_translations st = (obj, rule) :: rest ->
  prim_obj p = obj ->
  lookup_translation p st = Some rule.
Proof.
  intros Ht Hp. unfold lookup_translation. rewrite Ht. simpl.
  rewrite Hp, Nat.eqb_refl. reflexivity.
Qed.

Lemma lookup_in_table p st rule :
  lookup_translation p st = Some rule ->
  exists e, In e (cpu_translations st) /\ fst e = prim_obj p.
Proof.
  unfold lookup_translation.
  destruct (find _ (cpu_translations st)) as [e|] eqn:E; [|discriminate].
  intros _. apply find_some in E as [Hin Heq].
  apply Nat.eqb_eq in Heq. eauto.
Qed.

Lemma keys_below_In st e :
  keys_below st -> In e (cpu_translations st) -> fst e < next_obj st.
Proof.
  unfold keys_below. intros H Hin.
  induction H as [|x l Hx Hl IH]; [destruct Hin|].
  destruct Hin as [<-|Hin]; [exact Hx | exact (IH Hin)].
Qed.

(** X6.  In a process where every key of the translation table is an
    object allocated earlier (as in a fresh process), a registration
    keeps it so, the rule just bound is found under the new primitive: the
    kernel (jitted) with the abstract evaluation of the specification
    given, and every rule found before is still found, unchanged. *)
Theorem registered_rule_is_found :
  forall func out_shapes st prim st',
    keys_below st ->
    register_cpu_op func out_shapes st = (Ok prim, st') ->
    lookup_translation prim st'
    = Some (jitted func, abs_eval_rule out_shapes)
    /\ keys_below st'
    /\ (forall p rule,
          lookup_translation p st = Some rule ->
          lookup_translation p st' = Some rule).
Proof.
  intros func out_shapes st prim st' Hk Hreg.
  destruct (register_cpu_op_total func out_shapes st)
    as (q & t & E & _ & Ho & _ & _ & _ & Hn & Ht & _).
  rewrite Hreg in E. injection E as <- <-.
  split; [exact (@lookup_head _ _ _ prim st' Ht Ho)|]. split.
  - unfold keys_below. rewrite Ht, Hn. constructor; [simpl; lia|].
    unfold keys_below in Hk. revert Hk.
    generalize (cpu_translations st). intros l Hl.
    induction Hl as [|x l Hx Hl IH]; constructor; [lia | exact IH].
  - intros p rule Hp.
    destruct (@lookup_in_table p st rule Hp) as (e & Hin & He).
    pose proof (@keys_below_In st e Hk Hin) as Hlt.
    unfold lookup_translation in *. rewrite Ht. simpl.
    destruct (Nat.eqb_spec (next_obj st) (prim_obj p)) as [Heq|_]; [lia|].
    exact Hp.
Qed.

(** Witness: the first registration of a fresh process. *)
Lemma registered_rule_is_found_witness :
  keys_below initial
  /\ lookup_translation
       (mkPrimitive 0 "custom_op" true (abs_eval_rule abs_eval)
                    (eval_rule abs_eval (jitted custom_op)))
       (mkRuntime 0 1 [(0, (jitted custom_op, abs_eval_rule abs_eval))] [] [])
     = Some (jitted custom_op, abs_eval_rule abs_eval)
  /\ keys_below
       (mkRuntime 0 1 [(0, (jitted custom_op, abs_eval_rule abs_eval))] [] [])
  /\ (forall p rule,
        lookup_translation p initial = Some rule ->
        lookup_translation p
          (mkRuntime 0 1 [(0, (jitted custom_op, abs_eval_rule abs_eval))] [] [])
        = Some rule).
Proof.
  assert (H : keys_below initial) by constructor.
  split; [exact H|].
  apply (@registered_rule_is_found custom_op abs_eval initial
           (mkPrimitive 0 "custom_op" true (abs_eval_rule abs_eval)
                        (eval_rule abs_eval (jitted custom_op)))
           (mkRuntime 0 1 [(0, (jitted custom_op, abs_eval_rule abs_eval))] [] [])
           H).
  reflexivity.
Defined.

(** ** Lowering *)

(** X7.  A lowering whose abstract evaluation raises, or returns an
    object without shape and dtype, raises that exception before anything
    is compiled: the process state is as it was, with no new function and
    no new custom call target. *)
Theorem failed_lowering_changes_nothing :
  forall (native_name : nat -> string) func abs_eval_fn inputs st e,
    (try! out := abs_eval_fn (operand_descriptors inputs)
     in rmap shape_dtype out)%py = Raise e ->
    _func_translation native_name func abs_eval_fn inputs st = (Raise e, st).
Proof.
  intros native_name func abs_eval_fn inputs st e H.
  apply func_translation_stops, H.
Qed.

(** Witness: the example kernel with an output-shape function that
    returns an integer, lowered on one operand. *)
Lemma failed_lowering_changes_nothing_witness :
  _func_translation cfunc_name (jitted custom_op)
    (abs_eval_rule (OutCallable (fun _ => Ok (RetOne (POther "int")))))
    [operand0] initial
  = (Raise (AttributeError "int object has no attribute shape"), initial).
Proof.
  apply (@failed_lowering_changes_nothing cfunc_name (jitted custom_op)
           (abs_eval_rule (OutCallable (fun _ => Ok (RetOne (POther "int")))))
           [operand0] initial
           (AttributeError "int object has no attribute shape")).
  reflexivity.
Defined.

(** X8.  A lowering that returns a call node has registered its
    target: the name of the node is the latest entry of the registry of
    custom call targets, for the platform cpu, under a capsule tagged
    [xla._CUSTOM_CALL_TARGET] whose address is that of the function just
    compiled; that function is closed over the kernel, the dimensions and
    element types of the operands and the shapes and dtypes the abstract
    evaluation gave; the node passes the operands on and lays every
    output out with its dimensions in reverse order. *)
Theorem lowering_registers_its_target :
  forall (native_name : nat -> string) func abs_eval_fn inputs st call st',
    _func_translation native_name func abs_eval_fn inputs st = (Ok call, st') ->
    exists descs addr,
      (try! out := abs_eval_fn (operand_descriptors inputs)
       in rmap shape_dtype out)%py = Ok descs
      /\ custom_call_targets st'
         = (call_target_name call,
            mkCapsule addr "xla._CUSTOM_CALL_TARGET", "cpu")
             :: custom_call_targets st
      /\ nth_error (compiled st') addr
         = Some (mkTrampoline func
                   (map element_type (map get_shape inputs))
                   (map dimensions (map get_shape inputs))
                   (map dtype_of descs) (map shape descs))
      /\ List.length (compiled st') = S addr
      /\ operands call = inputs
      /\ map dimensions (shape_with_layout call) = map shape descs
      /\ map minor_to_major (shape_with_layout call)
         = map (fun d => rev (seq 0 (List.length (shape d)))) descs.
Proof.
  intros native_name func abs_eval_fn inputs st call st' H.
  destruct (@func_translation_Ok native_name func abs_eval_fn inputs st call st' H)
    as (descs & Hd & _ & Hname & Hops & Hlay & Hcomp & _ & Htargets).
  exists descs, (List.length (compiled st)).
  split; [exact Hd|]. split; [rewrite Htargets, Hname; reflexivity|].
  split; [rewrite Hcomp, nth_error_app2 by lia;
          rewrite Nat.sub_diag; reflexivity|].
  split; [rewrite Hcomp, length_app; simpl; lia|].
  split; [exact Hops|].
  rewrite Hlay, !map_map. split; reflexivity.
Qed.

(** Witness: the example operator lowered on two operands of shape
    (1, 2) in a fresh process. *)
Lemma lowering_registers_its_target_witness :
  exists call st',
    _func_translation cfunc_name (jitted custom_op) (abs_eval_rule abs_eval)
                      [operand0; operand0] initial = (Ok call, st')
    /\ exists descs addr,
         (try! out := abs_eval_rule abs_eval
                        (operand_descriptors [operand0; operand0])
          in rmap shape_dtype out)%py = Ok descs
         /\ custom_call_targets st'
            = (call_target_name call,
               mkCapsule addr "xla._CUSTOM_CALL_TARGET", "cpu")
                :: custom_call_targets initial
         /\ nth_error (compiled st') addr
            = Some (mkTrampoline (jitted custom_op)
                      (map element_type (map get_shape [operand0; operand0]))
                      (map dimensions (map get_shape [operand0; operand0]))
                      (map dtype_of descs) (map shape descs))
         /\ List.length (compiled st') = S addr
         /\ operands call = [operand0; operand0]
         /\ map dimensions (shape_with_layout call) = map shape descs
         /\ map minor_to_major (shape_with_layout call)
            = map (fun d => rev (seq 0 (List.length (shape d)))) descs.
Proof.
  pose proof (@func_translation_exact cfunc_name (jitted custom_op)
                (abs_eval_rule abs_eval) [operand0; operand0] initial
                [mkShaped [1; 2] float32; mkShaped [1; 2] float32] eq_refl)
    as H.
  assert (Hc : compiles (trampoline_of (jitted custom_op) [operand0; operand0]
                           [mkShaped [1; 2] float32; mkShaped [1; 2] float32])
               = true) by reflexivity.
  rewrite Hc in H.
  do 2 eexists. split; [exact H|].
  apply (@lowering_registers_its_target cfunc_name (jitted custom_op)
           (abs_eval_rule abs_eval) [operand0; operand0] initial _ _ H).
Defined.

(** ** The eager path and the compiled path *)

Lemma store_descriptors bufs : forall contents,
  map descriptor (store bufs contents) = map descriptor bufs.
Proof.
  induction bufs as [|b bs IH]; intros [|d ds]; simpl; try reflexivity.
  rewrite IH. reflexivity.
Qed.

Lemma zeros_descriptors descs :
  map descriptor (map (fun d => np_zeros (shape d) (dtype_of d)) descs) = descs.
Proof.
  induction descs as [|[sh dt] l IH]; simpl; [reflexivity|].
  rewrite IH. reflexivity.
Qed.

Lemma carrays_zero_memory descs :
  carrays (zero_memory descs) (map shape descs) (map dtype_of descs)
  = map (fun d => np_zeros (shape d) (dtype_of d)) descs.
Proof.
  induction descs as [|d l IH]; simpl; [reflexivity|].
  rewrite IH. unfold carray, np_zeros.
  rewrite firstn_all2 by (rewrite repeat_length; lia). reflexivity.
Qed.

Lemma carrays_inputs operands inputs :
  Forall well_sized inputs ->
  Forall2 stands_for operands inputs ->
  carrays (map arr_data inputs)
          (map dimensions (map get_shape operands))
          (map element_type (map get_shape operands))
  = inputs.
Proof.
  intros Hw H. induction H as [|o a os l [Hd He] _ IH]; [reflexivity|].
  apply Forall_cons_iff in Hw as [Ha Hw].
  simpl. rewrite (IH Hw), Hd, He. unfold carray.
  unfold well_sized in Ha.
  rewrite firstn_all2 by lia. destruct a; reflexivity.
Qed.

Lemma operand_descriptors_stand operands inputs :
  Forall2 stands_for operands inputs ->
  operand_descriptors operands = map (fun a => PShaped (descriptor a)) inputs.
Proof.
  intros H. unfold operand_descriptors.
  induction H as [|o a os l [Hd He] _ IH]; [reflexivity|].
  simpl. rewrite IH, Hd, He. reflexivity.
Qed.

Lemma register_binds func out_shapes st prim st' :
  register_cpu_op func out_shapes st = (Ok prim, st') ->
  impl prim = eval_rule out_shapes (jitted func)
  /\ abstract_eval prim = abs_eval_rule out_shapes
  /\ lookup_translation prim st'
     = Some (jitted func, abs_eval_rule out_shapes).
Proof.
  intros Hreg.
  destruct (register_cpu_op_total func out_shapes st)
    as (q & t & E & _ & Ho & Hi & Ha & _ & _ & Ht & _).
  rewrite Hreg in E. injection E as <- <-.
  split; [exact Hi|]. split; [exact Ha|].
  exact (@lookup_head _ _ _ prim st' Ht Ho).
Qed.

(** An eager call that returns: the descriptors the specification
    gave on the inputs, and the contents the kernel left in zero-filled
    buffers for them. *)
Lemma eval_rule_Ok out_shapes func inputs outputs :
  eval_rule out_shapes func inputs = Ok outputs ->
  exists descs contents,
    out_descriptors out_shapes (map PArray inputs) = Ok descs
    /\ k_run func
         (ArgTuple (map (fun d => np_zeros (shape d) (dtype_of d)) descs))
         (ArgTuple inputs)
       = (contents, None)
    /\ outputs
       = store (map (fun d => np_zeros (shape d) (dtype_of d)) descs) contents.
Proof.
  rewrite eval_rule_descriptors.
  destruct (out_descriptors out_shapes (map PArray inputs)) as [descs|e];
    cbn [rbind]; [|discriminate].
  unfold call_kernel.
  destruct (k_typable func _ _); [|discriminate].
  destruct (k_run func _ _) as [contents [e|]] eqn:Hrun; [discriminate|].
  intros H. injection H as <-. exists descs, contents.
  repeat split; first [exact Hrun | reflexivity].
Qed.

(** X9.  The buffers an eager call returns have exactly the shapes and
    dtypes that the abstract evaluation of the primitive gives on the same
    inputs, whatever the kernel writes into them. *)
Theorem eager_outputs_have_the_inferred_shapes :
  forall func out_shapes st prim st' inputs outputs,
    register_cpu_op func out_shapes st = (Ok prim, st') ->
    impl prim inputs = Ok outputs ->
    (try! shapes := abstract_eval prim (map PArray inputs)
     in rmap shape_dtype shapes)%py
    = Ok (map descriptor outputs).
Proof.
  intros func out_shapes st prim st' inputs outputs Hreg Himpl.
  destruct (register_binds Hreg) as (Hi & Ha & _).
  rewrite Hi in Himpl. rewrite Ha.
  destruct (eval_rule_Ok _ _ _ Himpl) as (descs & contents & Hd & _ & ->).
  fold (out_descriptors out_shapes (map PArray inputs)).
  rewrite Hd, store_descriptors, zeros_descriptors. reflexivity.
Qed.

(** Witness: the kernel of the module's example with its two outputs,
    registered with [abs_eval] and called on two arrays of shape (1, 2). *)
Lemma eager_outputs_have_the_inferred_shapes_witness :
  impl (mkPrimitive 0 "custom_op" true (abs_eval_rule abs_eval)
                    (eval_rule abs_eval (jitted custom_op))) [z; z]
  = Ok [mkArray [1; 2] float32 [6%Z; 8%Z]; mkArray [1; 2] float32 [7%Z; 9%Z]]
  /\ (try! shapes :=
         abstract_eval
           (mkPrimitive 0 "custom_op" true (abs_eval_rule abs_eval)
                        (eval_rule abs_eval (jitted custom_op)))
           (map PArray [z; z])
       in rmap shape_dtype shapes)%py
     = Ok (map descriptor
             [mkArray [1; 2] float32 [6%Z; 8%Z];
              mkArray [1; 2] float32 [7%Z; 9%Z]]).
Proof.
  assert (H : impl (mkPrimitive 0 "custom_op" true (abs_eval_rule abs_eval)
                      (eval_rule abs_eval (jitted custom_op))) [z; z]
              = Ok [mkArray [1; 2] float32 [6%Z; 8%Z];
                    mkArray [1; 2] float32 [7%Z; 9%Z]]) by reflexivity.
  split; [exact H|].
  apply (@eager_outputs_have_the_inferred_shapes custom_op abs_eval initial
           (mkPrimitive 0 "custom_op" true (abs_eval_rule abs_eval)
                        (eval_rule abs_eval (jitted custom_op)))
           (mkRuntime 0 1 [(0, (jitted custom_op, abs_eval_rule abs_eval))] [] [])
           [z; z] _ eq_refl H).
Defined.

Lemma parenthesized_tuple {A} (l : list A) :
  List.length l <> 1 -> parenthesized l = ArgTuple l.
Proof. destruct l as [|a [|b l]]; simpl; intros H; congruence. Qed.

(** X10.  The two execution paths agree when the kernel is handed
    tuples on both.  Take an operator registered with an abstract
    evaluator that reads shapes and dtypes only, lowered on operands that
    stand for well-sized concrete inputs, the eager call on those inputs
    returning some outputs, with neither exactly one input nor exactly
    one output.  The function compiled by the lowering, run on the memory
    of the inputs and on output memory filled with zeros, leaves in the
    output memory exactly the contents of the buffers the eager call
    returned. *)
Theorem compiled_and_eager_paths_agree :
  forall (native_name : nat -> string)
         func out_shapes st prim st1 inputs operands call st2 outputs,
    reads_descriptors_only out_shapes ->
    Forall well_sized inputs ->
    Forall2 stands_for operands inputs ->
    register_cpu_op func out_shapes st = (Ok prim, st1) ->
    lower native_name prim operands st1 = (Ok call, st2) ->
    impl prim inputs = Ok outputs ->
    List.length inputs <> 1 ->
    List.length outputs <> 1 ->
    exists t,
      nth_error (compiled st2) (List.length (compiled st1)) = Some t
      /\ xla_cpu_custom_call_target t
           (zero_memory (map descriptor outputs)) (map arr_data inputs)
         = map arr_data outputs.
Proof.
  intros native_name func out_shapes st prim st1 inputs operands call st2
         outputs Hro Hw Hst Hreg Hlow Himpl Hin Hout.
  destruct (register_binds Hreg) as (Hi & _ & Hl).
  rewrite (@lower_exact native_name prim _ _ operands st1 Hl) in Hlow.
  destruct (@func_translation_Ok native_name _ _ operands st1 call st2 Hlow)
    as (descs' & Hd' & _ & _ & _ & _ & Hcomp & _).
  rewrite Hi in Himpl.
  destruct (eval_rule_Ok _ _ _ Himpl) as (descs & contents & Hd & Hrun & ->).
  rewrite (operand_descriptors_stand Hst) in Hd'.
  fold (out_descriptors out_shapes
          (map (fun a => PShaped (descriptor a)) inputs)) in Hd'.
  rewrite <- (Hro inputs), Hd in Hd'. injection Hd' as <-.
  exists (trampoline_of (jitted func) operands descs). split.
  - rewrite Hcomp, nth_error_app2 by lia. rewrite Nat.sub_diag. reflexivity.
  - unfold xla_cpu_custom_call_target, trampoline_of.
    cbn [output_shapes output_dtypes input_shapes input_dtypes func_to_call].
    rewrite store_descriptors, zeros_descriptors.
    rewrite carrays_zero_memory, (carrays_inputs Hw Hst).
    assert (Hlen : List.length
                     (map (fun d => np_zeros (shape d) (dtype_of d)) descs)
                   <> 1).
    { intros E. apply Hout.
      rewrite <- (length_map descriptor), store_descriptors, length_map.
      exact E. }
    rewrite !parenthesized_tuple by assumption.
    rewrite jitted_run in Hrun. rewrite jitted_run, Hrun. reflexivity.
Qed.

(** Witness: the kernel of the module's example with its two outputs,
    called eagerly and lowered on two arrays of shape (1, 2). *)
Lemma compiled_and_eager_paths_agree_witness :
  exists call st2 outputs,
    lower cfunc_name
      (mkPrimitive 0 "custom_op" true (abs_eval_rule abs_eval)
                   (eval_rule abs_eval (jitted custom_op)))
      [operand0; operand0]
      (mkRuntime 0 1 [(0, (jitted custom_op, abs_eval_rule abs_eval))] [] [])
    = (Ok call, st2)
    /\ impl (mkPrimitive 0 "custom_op" true (abs_eval_rule abs_eval)
                         (eval_rule abs_eval (jitted custom_op))) [z; z]
       = Ok outputs
    /\ exists t,
         nth_error (compiled st2) 0 = Some t
         /\ xla_cpu_custom_call_target t
              (zero_memory (map descriptor outputs)) (map arr_data [z; z])
            = map arr_data outputs.
Proof.
  pose proof (@denotes_reads_descriptors_only _ _ abs_eval_denotes) as Hro.
  assert (Hw : Forall well_sized [z; z]) by (repeat constructor).
  assert (Hst : Forall2 stands_for [operand0; operand0] [z; z])
    by (repeat constructor).
  pose proof (@func_translation_exact cfunc_name (jitted custom_op)
                (abs_eval_rule abs_eval) [operand0; operand0]
                (mkRuntime 0 1
                   [(0, (jitted custom_op, abs_eval_rule abs_eval))] [] [])
                [mkShaped [1; 2] float32; mkShaped [1; 2] float32] eq_refl)
    as Hlow.
  assert (Hc : compiles (trampoline_of (jitted custom_op) [operand0; operand0]
                           [mkShaped [1; 2] float32; mkShaped [1; 2] float32])
               = true) by reflexivity.
  rewrite Hc in Hlow.
  rewrite <- (@lower_exact cfunc_name
                (mkPrimitive 0 "custom_op" true (abs_eval_rule abs_eval)
                             (eval_rule abs_eval (jitted custom_op)))
                (jitted custom_op) (abs_eval_rule abs_eval)
                [operand0; operand0]
                (mkRuntime 0 1
                   [(0, (jitted custom_op, abs_eval_rule abs_eval))] [] [])
                eq_refl) in Hlow.
  assert (Himpl : impl (mkPrimitive 0 "custom_op" true (abs_eval_rule abs_eval)
                          (eval_rule abs_eval (jitted custom_op))) [z; z]
                  = Ok [mkArray [1; 2] float32 [6%Z; 8%Z];
                        mkArray [1; 2] float32 [7%Z; 9%Z]]) by reflexivity.
  do 2 eexists.
  exists [mkArray [1; 2] float32 [6%Z; 8%Z]; mkArray [1; 2] float32 [7%Z; 9%Z]].
  split; [exact Hlow|]. split; [exact Himpl|].
  apply (@compiled_and_eager_paths_agree cfunc_name custom_op abs_eval initial
           (mkPrimitive 0 "custom_op" true (abs_eval_rule abs_eval)
                        (eval_rule abs_eval (jitted custom_op)))
           (mkRuntime 0 1 [(0, (jitted custom_op, abs_eval_rule abs_eval))] [] [])
           [z; z] [operand0; operand0] _ _ _ Hro Hw Hst eq_refl Hlow Himpl).
  - simpl. lia.
  - simpl. lia.
Defined.

(** With exactly one output the generated function hands the kernel
    the array itself where the eager path hands it a tuple of one array:
    [outs[0]] is then the first row of the output instead of the output.
    One output of shape (2, 2), filled with ones by the eager call, has
    its first row only filled by the compiled function. *)
Example one_output_is_passed_bare :
  eval_rule (OutShaped square) (jitted lambda_ones) []
  = Ok [mkArray [2; 2] float32 [1%Z; 1%Z; 1%Z; 1%Z]]
  /\ compiles (trampoline_of (jitted lambda_ones) [] [square]) = true
  /\ xla_cpu_custom_call_target
       (trampoline_of (jitted lambda_ones) [] [square])
       (zero_memory [square]) []
     = [[1%Z; 1%Z; 0%Z; 0%Z]].
Proof. repeat split; reflexivity. Qed.

End CpuOpMoreFacts.

(* ================================================================== *)
(** * More facts about operators.py *)
(* ================================================================== *)

Section OperatorsMoreFacts.

Import Operators OperatorsSpec OperatorsMore.
Local Open Scope R_scope.

(** ** Sums *)

Lemma total_cons x l : total (x :: l) = x + total l.
Proof. reflexivity. Qed.

Lemma total_map_plus {A} (f h : A -> R) l :
  total (map (fun a => f a + h a) l) = total (map f l) + total (map h l).
Proof.
  induction l as [|a l IH].
  - unfold total. simpl. lra.
  - rewrite !map_cons, !total_cons, IH. lra.
Qed.

(** The indicator of one index sums to its value over a range that
    holds the index, and to 0 over one that does not. *)
Lemma total_indicator v i : forall n start,
  total (map (fun g => if Nat.eqb i g then v else 0) (seq start n))
  = if (Nat.leb start i && Nat.ltb i (start + n))%bool then v else 0.
Proof.
  induction n as [|n IH]; intros start.
  - simpl. destruct (Nat.leb_spec start i), (Nat.ltb_spec i (start + 0));
      simpl; try reflexivity; lia.
  - simpl seq. simpl map. rewrite total_cons, IH.
    destruct (Nat.eqb_spec i start) as [->|Hne].
    + destruct (Nat.leb_spec (S start) start); [lia|].
      destruct (Nat.leb_spec start start); [|lia].
      destruct (Nat.ltb_spec start (start + S n)); [|lia]. simpl. lra.
    + destruct (Nat.leb_spec (S start) i), (Nat.leb_spec start i),
               (Nat.ltb_spec i (S start + n)), (Nat.ltb_spec i (start + S n));
        simpl; try lra; lia.
Qed.

(** The sums of the groups add up to the sum of the values whose id is
    below the number of groups. *)
Lemma group_totals_add_up n values : forall ids,
  List.length values = List.length ids ->
  Forall (fun i => (i < n)%nat) ids ->
  total (map (fun g => total (group_values values ids g)) (seq 0 n))
  = total values.
Proof.
  induction values as [|v vs IH]; intros [|i ids] Hlen Hin;
    try discriminate Hlen.
  - induction (seq 0 n) as [|g l IHl]; [reflexivity|].
    rewrite map_cons, total_cons, IHl. unfold total. simpl. lra.
  - apply Forall_cons_iff in Hin as [Hi Hin].
    injection Hlen as Hlen.
    transitivity
      (total (map (fun g => (if Nat.eqb i g then v else 0)
                            + total (group_values vs ids g)) (seq 0 n))).
    + f_equal. apply map_ext. intros g. cbn [group_values].
      destruct (Nat.eqb i g); rewrite ?total_cons; lra.
    + rewrite total_map_plus, total_indicator, (IH ids Hlen Hin), total_cons.
      destruct (Nat.leb_spec 0 i); [|lia].
      destruct (Nat.ltb_spec i (0 + n)); simpl; [lra | lia].
Qed.

(** X11.  On finite values and ids of equal length, all below the
    number of groups, [syn2post_sum] gives for each group the sum of its
    values, and loses nothing: the entries of the result add up to the sum
    of all the values. *)
Theorem syn2post_sum_conserves_the_total :
  forall values post_ids post_num sorted,
    List.length values = List.length post_ids ->
    Forall (fun i => (i < post_num)%nat) post_ids ->
    exists out,
      syn2post_sum (NumArray (map Fin values)) post_ids post_num sorted
      = Ok (map Fin out)
      /\ List.length out = post_num
      /\ (forall g, (g < post_num)%nat ->
            nth g out 0 = total (group_values values post_ids g))
      /\ total out = total values.
Proof.
  intros values ids n sorted Hlen Hin.
  exists (map (fun g => total (group_values values ids g)) (seq 0 n)).
  split; [|split; [|split]].
  - unfold syn2post_sum, _jit_seg_sum, promote_bool.
    rewrite segment_same_length by (rewrite length_map; exact Hlen).
    rewrite map_map. f_equal. apply map_ext. intros g.
    rewrite group_values_map, fold_fadd_Fin. f_equal. lra.
  - rewrite length_map. apply length_seq.
  - intros g Hg.
    exact (@nth_map_seq _ (fun g => total (group_values values ids g)) n g 0 Hg).
  - apply group_totals_add_up; assumption.
Qed.

(** Witness: the values 1, 2, 3 in the groups 0, 0, 1. *)
Lemma syn2post_sum_conserves_the_total_witness :
  exists out,
    syn2post_sum (NumArray (map Fin [1; 2; 3])) [0; 0; 1]%nat 2 true
    = Ok (map Fin out)
    /\ List.length out = 2%nat
    /\ (forall g, (g < 2)%nat ->
          nth g out 0 = total (group_values [1; 2; 3] [0; 0; 1]%nat g))
    /\ total out = total [1; 2; 3].
Proof.
  apply (@syn2post_sum_conserves_the_total [1; 2; 3] [0; 0; 1]%nat 2%nat true).
  - reflexivity.
  - repeat constructor.
Defined.

Lemma fold_fadd_bools l : forall a,
  fold_left fadd (map (fun b : bool => if b then Fin 1 else Fin 0) l) (Fin a)
  = Fin (a + INR (count_true l)).
Proof.
  induction l as [|b l IH]; intros a.
  - simpl. f_equal. lra.
  - change (fold_left fadd
              (map (fun b : bool => if b then Fin 1 else Fin 0) (b :: l)) (Fin a))
      with (fold_left fadd
              (map (fun b : bool => if b then Fin 1 else Fin 0) l)
              (fadd (Fin a) (if b then Fin 1 else Fin 0))).
    destruct b; simpl fadd; rewrite IH; f_equal; unfold count_true; simpl.
    + destruct (List.length (List.filter (fun b : bool => b) l)); simpl; lra.
    + lra.
Qed.

(** X12.  A boolean array is summed as an array of 0 and 1: each group
    gets the number of its entries that are true. *)
Theorem syn2post_sum_counts_the_true :
  forall events post_ids post_num sorted,
    List.length events = List.length post_ids ->
    syn2post_sum (BoolArray events) post_ids post_num sorted
    = Ok (map (fun g => Fin (INR (count_true (group_values events post_ids g))))
              (seq 0 post_num)).
Proof.
  intros events ids n sorted Hlen.
  unfold syn2post_sum, _jit_seg_sum, promote_bool.
  rewrite segment_same_length by (rewrite length_map; exact Hlen).
  f_equal. apply map_ext. intros g.
  rewrite group_values_map, fold_fadd_bools. f_equal. lra.
Qed.

(** Witness: three spikes out of four synapses onto two neurons. *)
Lemma syn2post_sum_counts_the_true_witness :
  syn2post_sum (BoolArray [true; false; true; true]) [0; 0; 1; 1]%nat 2 true
  = Ok (map (fun g => Fin (INR (count_true
                (group_values [true; false; true; true] [0; 0; 1; 1]%nat g))))
            (seq 0 2)).
Proof.
  apply (@syn2post_sum_counts_the_true [true; false; true; true]
           [0; 0; 1; 1]%nat 2%nat true).
  reflexivity.
Defined.

(** ** A scalar sent to the postsynaptic indices *)

Lemma fold_fadd_replicate s c : forall a,
  fold_left fadd (replicate c (Fin s)) (Fin a) = Fin (a + INR c * s).
Proof.
  induction c as [|c IH]; intros a.
  - simpl. f_equal. lra.
  - cbn [replicate fold_left fadd]. rewrite IH, S_INR. f_equal. lra.
Qed.

(** X13.  [pre2post_sum] of a scalar accumulates it once for every
    occurrence of an index: the entry at [j] is the scalar times the
    number of occurrences of [j] in [post_ids] (where [pre2post_mean]
    sets it once). *)
Theorem pre2post_sum_scalar_counts_occurrences :
  forall s post_num post_ids pre_ids,
    pre2post_sum (Scalar (Fin s)) post_num post_ids pre_ids
    = Ok (map (fun j => Fin (INR (count_occ Nat.eq_dec post_ids j) * s))
              (seq 0 post_num)).
Proof.
  intros s n post pre_ids.
  unfold pre2post_sum, at_, broadcast_to, zeros. simpl.
  rewrite scatter_replicate. f_equal. apply map_ext. intros j.
  rewrite group_values_replicate, fold_fadd_replicate. f_equal. lra.
Qed.

(** ** Products, maxima and minima start from zero *)

Lemma fold_Rmax_ge l : forall a, a <= fold_left Rmax l a.
Proof.
  induction l as [|x l IH]; intros a; simpl; [lra|].
  pose proof (IH (Rmax a x)). pose proof (Rmax_l a x). lra.
Qed.

Lemma fold_Rmin_le l : forall a, fold_left Rmin l a <= a.
Proof.
  induction l as [|x l IH]; intros a; simpl; [lra|].
  pose proof (IH (Rmin a x)). pose proof (Rmin_l a x). lra.
Qed.

Lemma Forall_map_all {A B} (P : B -> Prop) (f : A -> B) l :
  (forall a, P (f a)) -> Forall P (map f l).
Proof.
  intros H. induction l as [|a l IH]; constructor; [apply H | exact IH].
Qed.

Lemma map_const_seq {A} (x : A) n start :
  map (fun _ => x) (seq start n) = replicate n x.
Proof.
  revert start. induction n as [|n IH]; intros start; [reflexivity|].
  simpl. rewrite IH. reflexivity.
Qed.

(** X14.  [pre2post_prod] multiplies into a vector of zeros: on finite
    values it returns the zero vector, whatever the values are, for a
    scalar as for a non-empty array with as many [pre_ids] as
    [post_ids]. *)
Theorem pre2post_prod_is_always_zero :
  forall post_num post_ids,
    (forall s pre_ids,
       pre2post_prod (Scalar (Fin s)) post_num post_ids pre_ids
       = Ok (zeros post_num))
    /\ (forall values pre_ids,
          values <> [] ->
          List.length pre_ids = List.length post_ids ->
          pre2post_prod (Vector (map Fin values)) post_num post_ids
                        (Some pre_ids)
          = Ok (zeros post_num)).
Proof.
  intros n post. split.
  - intros s pre_ids.
    unfold pre2post_prod, at_, broadcast_to, zeros. simpl.
    rewrite scatter_replicate. f_equal.
    rewrite <- (map_const_seq (Fin 0) n 0). apply map_ext. intros j.
    rewrite group_values_replicate.
    change (replicate ?c (Fin s)) with (replicate c (Fin s)).
    induction (count_occ Nat.eq_dec post j) as [|c IH]; [reflexivity|].
    cbn [replicate fold_left fmul].
    replace (0 * s) with 0 by lra. exact IH.
  - intros values pre Hne Hlen.
    change (pre2post_prod ?a ?b ?c ?d) with (pre2post 0 Prod a b c d).
    rewrite pre2post_groups by (assumption || discriminate).
    unfold zeros. f_equal.
    rewrite <- (map_const_seq (Fin 0) n 0). apply map_ext. intros j.
    apply fold_fmul_zero. reflexivity.
Qed.

(** Witness: the values 2 and 3 multiplied into one postsynaptic
    neuron. *)
Lemma pre2post_prod_is_always_zero_witness :
  [2; 3] <> []
  /\ List.length [0; 1]%nat = List.length [0; 0]%nat
  /\ pre2post_prod (Vector (map Fin [2; 3])) 1 [0; 0]%nat (Some [0; 1]%nat)
     = Ok (zeros 1).
Proof.
  assert (Hne : [2; 3] <> []) by discriminate.
  split; [exact Hne|]. split; [reflexivity|].
  exact (proj2 (@pre2post_prod_is_always_zero 1%nat [0; 0]%nat)
               [2; 3] [0; 1]%nat Hne eq_refl).
Defined.

(** X15.  [pre2post_max] and [pre2post_min] start from a vector of
    zeros as well: on finite values no entry of the maximum is negative
    and no entry of the minimum is positive; the entry at [j] is the
    largest (smallest) of 0 and the gathered values sent to [j]. *)
Theorem pre2post_max_min_are_clamped_at_zero :
  forall values post_num post_ids pre_ids,
    values <> [] ->
    List.length pre_ids = List.length post_ids ->
    exists gathered,
      gather (map Fin values) pre_ids = Ok (map Fin gathered)
      /\ pre2post_max (Vector (map Fin values)) post_num post_ids (Some pre_ids)
         = Ok (map (fun j => Fin (fold_left Rmax
                                   (group_values gathered post_ids j) 0))
                   (seq 0 post_num))
      /\ pre2post_min (Vector (map Fin values)) post_num post_ids (Some pre_ids)
         = Ok (map (fun j => Fin (fold_left Rmin
                                   (group_values gathered post_ids j) 0))
                   (seq 0 post_num))
      /\ (forall j, 0 <= fold_left Rmax (group_values gathered post_ids j) 0)
      /\ (forall j, fold_left Rmin (group_values gathered post_ids j) 0 <= 0).
Proof.
  intros values n post pre Hne Hlen.
  eexists. split.
  { rewrite (gather_nonempty pre (map_Fin_nonempty Hne)).
    rewrite (read_clamped_Fin pre Hne). reflexivity. }
  split; [|split; [|split]].
  - change (pre2post_max ?a ?b ?c ?d) with (pre2post 0 Max a b c d).
    rewrite pre2post_groups by (assumption || discriminate).
    f_equal. apply map_ext. intros j. apply fold_fmax_Fin.
  - change (pre2post_min ?a ?b ?c ?d) with (pre2post 0 Min a b c d).
    rewrite pre2post_groups by (assumption || discriminate).
    f_equal. apply map_ext. intros j. apply fold_fmin_Fin.
  - intros j. apply fold_Rmax_ge.
  - intros j. apply fold_Rmin_le.
Qed.

(** Witness: the values -2 and -3 sent to one postsynaptic neuron. *)
Lemma pre2post_max_min_are_clamped_at_zero_witness :
  exists gathered,
    gather (map Fin [-2; -3]) [0; 1]%nat = Ok (map Fin gathered)
    /\ pre2post_max (Vector (map Fin [-2; -3])) 1 [0; 0]%nat (Some [0; 1]%nat)
       = Ok (map (fun j => Fin (fold_left Rmax
                                 (group_values gathered [0; 0]%nat j) 0))
                 (seq 0 1))
    /\ pre2post_min (Vector (map Fin [-2; -3])) 1 [0; 0]%nat (Some [0; 1]%nat)
       = Ok (map (fun j => Fin (fold_left Rmin
                                 (group_values gathered [0; 0]%nat j) 0))
                 (seq 0 1))
    /\ (forall j, 0 <= fold_left Rmax (group_values gathered [0; 0]%nat j) 0)
    /\ (forall j, fold_left Rmin (group_values gathered [0; 0]%nat j) 0 <= 0).
Proof.
  apply (@pre2post_max_min_are_clamped_at_zero [-2; -3] 1%nat [0; 0]%nat
           [0; 1]%nat).
  - discriminate.
  - reflexivity.
Defined.

(** ** The mean of a scalar and of a constant array *)

Lemma read_clamped_replicate x k ids :
  read_clamped (replicate (S k) x) ids = replicate (List.length ids) x.
Proof.
  unfold read_clamped. rewrite length_replicate.
  induction ids as [|i ids IH]; [reflexivity|].
  rewrite map_cons, IH.
  change (replicate (List.length (i :: ids)) x)
    with (x :: replicate (List.length ids) x).
  f_equal. rewrite nth_lookup, lookup_replicate_2 by lia. reflexivity.
Qed.

Lemma pre2syn_replicate x k ids :
  pre2syn (Vector (replicate (S k) x)) ids
  = Ok (replicate (List.length ids) x).
Proof.
  unfold pre2syn, _pre2syn. cbn [replicate].
  change (x :: replicate k x) with (replicate (S k) x).
  rewrite read_clamped_replicate. reflexivity.
Qed.

Lemma total_replicate c s : total (replicate c s) = INR c * s.
Proof.
  induction c as [|c IH].
  - unfold total. simpl. lra.
  - cbn [replicate]. rewrite total_cons, IH, S_INR. lra.
Qed.

Lemma count_occ_existsb ids g :
  existsb (Nat.eqb g) ids
  = negb (Nat.eqb (count_occ Nat.eq_dec ids g) 0).
Proof.
  induction ids as [|i ids IH]; [reflexivity|].
  cbn [existsb count_occ]. rewrite (Nat.eqb_sym g i).
  destruct (Nat.eq_dec i g) as [->|Hne].
  - rewrite Nat.eqb_refl. reflexivity.
  - rewrite (proj2 (Nat.eqb_neq i g) Hne). exact IH.
Qed.

Lemma replicate_Fin m s : replicate m (Fin s) = map Fin (replicate m s).
Proof.
  induction m as [|m IH]; [reflexivity|].
  cbn [replicate map]. rewrite IH. reflexivity.
Qed.

(** X16.  The two branches of [pre2post_mean] agree on homogeneous
    input: a non-empty array holding one finite value everywhere, with as
    many [pre_ids] as [post_ids], gives the result the scalar gives: the
    value at the indices that occur in [post_ids], 0 elsewhere. *)
Theorem pre2post_mean_scalar_as_constant_array :
  forall finfo_max s k post_num post_ids pre_ids pre_ids',
    List.length pre_ids = List.length post_ids ->
    pre2post_mean finfo_max (Vector (replicate (S k) (Fin s)))
                  post_num post_ids (Some pre_ids)
    = pre2post_mean finfo_max (Scalar (Fin s)) post_num post_ids pre_ids'.
Proof.
  intros finfo_max s k n post pre pre' Hlen.
  rewrite pre2post_mean_scalar_groups.
  unfold pre2post_mean, _raise_pre_ids_is_none, as_device_array.
  cbn [rbind]. rewrite pre2syn_replicate. cbn [rbind].
  rewrite Hlen, replicate_Fin, syn2post_mean_groups by (apply length_replicate).
  f_equal. apply map_ext. intros j.
  unfold group_mean. rewrite group_values_replicate, count_occ_existsb.
  destruct (count_occ Nat.eq_dec post j) as [|c]; [reflexivity|].
  cbn [Nat.eqb negb]. f_equal.
  rewrite total_replicate, length_replicate.
  change (replicate (S c) s) with (s :: replicate c s). cbv iota beta.
  assert (Hc : INR (S c) <> 0) by (apply not_0_INR; lia).
  field. exact Hc.
Qed.

(** Witness: the value 7 held by three presynaptic neurons, sent
    through four synapses. *)
Lemma pre2post_mean_scalar_as_constant_array_witness :
  List.length [0; 2; 1; 1]%nat = List.length [2; 0; 2; 3]%nat
  /\ pre2post_mean 1000 (Vector (replicate 3 (Fin 7))) 5 [2; 0; 2; 3]%nat
       (Some [0; 2; 1; 1]%nat)
     = pre2post_mean 1000 (Scalar (Fin 7)) 5 [2; 0; 2; 3]%nat None.
Proof.
  split; [reflexivity|].
  apply (@pre2post_mean_scalar_as_constant_array 1000 7 2 5%nat
           [2; 0; 2; 3]%nat [0; 2; 1; 1]%nat None).
  reflexivity.
Defined.

(** ** [pre2syn] *)

Lemma sign_1 : sign 1 = Gt.
Proof.
  unfold sign. destruct (Rlt_dec 1 0) as [H|_]; [lra|].
  destruct (Rlt_dec 0 1) as [_|H]; [reflexivity | lra].
Qed.

Lemma fmul_one x : fmul (Fin 1) x = x.
Proof.
  destruct x as [y| | |]; simpl; rewrite ?sign_1; try reflexivity.
  f_equal. lra.
Qed.

(** X17.  [pre2syn] gives one value per synapse: a scalar is handed to
    every synapse as it is, and from a non-empty array the synapse [k]
    gets the value of its presynaptic neuron, [pre_values[pre_ids[k]]],
    when that index is within the array. *)
Theorem pre2syn_reads_the_presynaptic_value :
  forall pre_ids,
    (forall x,
       pre2syn (Scalar x) pre_ids = Ok (replicate (List.length pre_ids) x))
    /\ (forall values : list fval,
          values <> [] ->
          exists out,
            pre2syn (Vector values) pre_ids = Ok out
            /\ List.length out = List.length pre_ids
            /\ (forall k i : nat,
                  pre_ids !! k = Some i ->
                  (i < List.length values)%nat ->
                  out !! k = values !! i)).
Proof.
  intros pre_ids. split.
  - intros x. unfold pre2syn. f_equal.
    induction (List.length pre_ids) as [|m IH]; [reflexivity|].
    cbn [replicate map]. rewrite IH, fmul_one. reflexivity.
  - intros values Hne.
    exists (read_clamped values pre_ids). split; [|split].
    + unfold pre2syn, _pre2syn. destruct values; [congruence | reflexivity].
    + apply length_read_clamped.
    + intros k i Hk Hi. unfold read_clamped.
      change (map ?f ?l) with (f <$> l).
      rewrite list_lookup_fmap, Hk. simpl.
      replace (Nat.min i (List.length values - 1)) with i by lia.
      rewrite nth_lookup.
      destruct (lookup_lt_is_Some_2 values i Hi) as [y Hy].
      rewrite Hy. reflexivity.
Qed.

(** Witness: three synapses reading two presynaptic values. *)
Lemma pre2syn_reads_the_presynaptic_value_witness :
  [Fin 10; Fin 20] <> []
  /\ exists out,
       pre2syn (Vector [Fin 10; Fin 20]) [0; 1; 0]%nat = Ok out
       /\ List.length out = List.length [0; 1; 0]%nat
       /\ (forall k i : nat,
             [0; 1; 0]%nat !! k = Some i ->
             (i < List.length [Fin 10; Fin 20])%nat ->
             out !! k = [Fin 10; Fin 20] !! i).
Proof.
  assert (Hne : [Fin 10; Fin 20] <> []) by discriminate.
  split; [exact Hne|].
  exact (proj2 (@pre2syn_reads_the_presynaptic_value [0; 1; 0]%nat)
               [Fin 10; Fin 20] Hne).
Defined.

(** ** The softmax, in closed form *)

Lemma in_ids_group_nonempty {A} (values : list A) : forall ids i,
  List.length values = List.length ids ->
  In i ids -> group_values values ids i <> [].
Proof.
  induction values as [|v vs IH]; intros [|j ids] i Hlen Hin;
    try discriminate Hlen; try contradiction.
  cbn [group_values]. destruct (Nat.eqb_spec j i) as [->|Hne]; [discriminate|].
  apply IH; [simpl in Hlen; lia|].
  destruct Hin as [Heq|Hin]; [congruence | exact Hin].
Qed.

Lemma segment_max_Fin values ids i :
  group_values values ids i <> [] ->
  fold_left fmax (group_values (map Fin values) ids i) NInf
  = Fin (group_max values ids i).
Proof.
  intros Hne.
  rewrite group_values_map. unfold group_max.
  destruct (group_values values ids i) as [|x r]; [congruence|].
  cbn [map fold_left fmax]. apply fold_fmax_Fin.
Qed.

Lemma read_clamped_cons (a : list fval) i ids :
  read_clamped a (i :: ids)
  = nth (Nat.min i (List.length a - 1)) a NaN :: read_clamped a ids.
Proof. reflexivity. Qed.

Lemma subtract_gather_Fin n maxs (M : nat -> R) :
  List.length maxs = n ->
  forall values ids,
    (forall i, In i ids -> (i < n)%nat /\ nth i maxs NaN = Fin (M i)) ->
    zip_op fsub (map Fin values) (read_clamped maxs ids)
    = map Fin (zip_with (fun v i => v + - M i) values ids).
Proof.
  intros Hl. induction values as [|v vs IH]; intros [|i ids] H;
    try reflexivity.
  rewrite read_clamped_cons. cbn [map zip_op zip_with].
  destruct (H i (or_introl eq_refl)) as [Hi Hm].
  rewrite Hl. replace (Nat.min i (n - 1)) with i by lia. rewrite Hm.
  rewrite IH by (intros j Hj; apply H; right; exact Hj).
  reflexivity.
Qed.

Lemma divide_gather_Fin n norms (N : nat -> R) :
  List.length norms = n ->
  forall es ids,
    (forall i, In i ids ->
       (i < n)%nat /\ nth i norms NaN = Fin (N i) /\ N i <> 0) ->
    zip_op fdiv (map Fin es) (read_clamped norms ids)
    = map Fin (zip_with (fun e i => e / N i) es ids).
Proof.
  intros Hl. induction es as [|e es IH]; intros [|i ids] H;
    try reflexivity.
  rewrite read_clamped_cons. cbn [map zip_op zip_with].
  destruct (H i (or_introl eq_refl)) as (Hi & Hn & Hnz).
  rewrite Hl. replace (Nat.min i (n - 1)) with i by lia. rewrite Hn.
  rewrite IH by (intros j Hj; apply H; right; exact Hj).
  unfold fdiv. destruct (Req_dec_T (N i) 0) as [Hz|_]; [contradiction|].
  reflexivity.
Qed.

Lemma group_values_zip_with {A} (f : R -> nat -> A) values : forall ids g,
  group_values (zip_with f values ids) ids g
  = map (fun v => f v g) (group_values values ids g).
Proof.
  induction values as [|v vs IH]; intros [|i ids] g; try reflexivity.
  cbn [zip_with group_values].
  destruct (Nat.eqb_spec i g) as [->|_]; cbn [map]; rewrite IH; reflexivity.
Qed.

Lemma map_zip_with {A B} (h : A -> B) (f : R -> nat -> A) values : forall ids,
  map h (zip_with f values ids) = zip_with (fun v i => h (f v i)) values ids.
Proof.
  induction values as [|v vs IH]; intros [|i ids]; try reflexivity.
  cbn [zip_with map]. rewrite IH. reflexivity.
Qed.

Lemma zip_with_zip_with {A B} (h : A -> nat -> B) (f : R -> nat -> A) values :
  forall ids,
    zip_with h (zip_with f values ids) ids
    = zip_with (fun v i => h (f v i) i) values ids.
Proof.
  induction values as [|v vs IH]; intros [|i ids]; try reflexivity.
  cbn [zip_with]. rewrite IH. reflexivity.
Qed.

Lemma zip_with_ext_in {A} (f h : R -> nat -> A) values : forall ids,
  (forall v i, In i ids -> f v i = h v i) ->
  zip_with f values ids = zip_with h values ids.
Proof.
  induction values as [|v vs IH]; intros [|i ids] H; try reflexivity.
  cbn [zip_with]. rewrite (H v i (or_introl eq_refl)).
  rewrite IH by (intros w j Hj; apply H; right; exact Hj). reflexivity.
Qed.

Lemma length_zip_with_ids {A} (f : R -> nat -> A) values : forall ids,
  List.length values = List.length ids ->
  List.length (zip_with f values ids) = List.length ids.
Proof.
  induction values as [|v vs IH]; intros [|i ids] H; try discriminate H;
    [reflexivity|].
  cbn [zip_with List.length]. rewrite IH by (simpl in H; lia). reflexivity.
Qed.

Lemma group_softmax_zip all_values all_ids values : forall ids,
  group_softmax_from all_values all_ids values ids
  = zip_with (fun v i => exp v
                         / total (map exp (group_values all_values all_ids i)))
             values ids.
Proof.
  induction values as [|v vs IH]; intros [|i ids]; try reflexivity.
  cbn [group_softmax_from zip_with]. rewrite IH. reflexivity.
Qed.

Lemma total_exp_pos l : l <> [] -> 0 < total (map exp l).
Proof.
  intros Hne. destruct l as [|x l]; [congruence|].
  rewrite map_cons, total_cons.
  assert (H : 0 <= total (map exp l)).
  { clear. induction l as [|y l IH]; [unfold total; simpl; lra|].
    rewrite map_cons, total_cons. pose proof (exp_pos y). lra. }
  pose proof (exp_pos x). lra.
Qed.

Lemma total_map_scale {A} c (f : A -> R) l :
  total (map (fun a => c * f a) l) = c * total (map f l).
Proof.
  induction l as [|a l IH].
  - unfold total. simpl. lra.
  - rewrite !map_cons, !total_cons, IH. lra.
Qed.

Lemma nan_to_num_Fin finfo_max l :
  nan_to_num finfo_max (map Fin l) = map Fin l.
Proof. unfold nan_to_num. rewrite map_map. reflexivity. Qed.

Lemma map_fexp_Fin l : map fexp (map Fin l) = map Fin (map exp l).
Proof. rewrite !map_map. reflexivity. Qed.

(** The entry of the shifted computation is the entry of the plain
    softmax. *)
Lemma softmax_entry_unshifted v m l :
  l <> [] ->
  exp (v + - m) / (0 + total (map (fun w => exp (w + - m)) l))
  = exp v / total (map exp l).
Proof.
  intros Hne.
  pose proof (total_exp_pos Hne) as HT.
  pose proof (exp_pos (- m)) as Hm.
  assert (E : map (fun w => exp (w + - m)) l
              = map (fun w => exp (- m) * exp w) l).
  { apply map_ext. intros w. rewrite exp_plus. lra. }
  rewrite E, total_map_scale, exp_plus. field. split; lra.
Qed.

Lemma syn2post_softmax_closed_form finfo_max values ids n sorted :
  List.length values = List.length ids ->
  Forall (fun i => (i < n)%nat) ids ->
  syn2post_softmax finfo_max (NumArray (map Fin values)) ids n sorted
  = Ok (map Fin (group_softmax values ids)).
Proof.
  intros Hlen Hin.
  assert (Hlt : forall i, In i ids -> (i < n)%nat).
  { intros i Hi. rewrite Forall_forall in Hin.
    apply Hin, list_elem_of_In, Hi. }
  assert (Hne : forall i, In i ids -> group_values values ids i <> [])
    by (intros i Hi; apply in_ids_group_nonempty; assumption).
  unfold syn2post_softmax, _jit_seg_max, _jit_seg_sum, promote_bool, is_boolean.
  rewrite segment_same_length by (rewrite length_map; exact Hlen).
  cbn [rbind].
  rewrite gather_in_range by (rewrite length_map, length_seq; exact Hin).
  cbn [rbind]. unfold subtract.
  rewrite elementwise_zip
    by (rewrite length_map, length_read_clamped; exact Hlen).
  rewrite (@subtract_gather_Fin n _ (group_max values ids)).
  2: { rewrite length_map. apply length_seq. }
  2: { intros i Hi. split; [apply Hlt, Hi|].
       rewrite nth_map_seq by (apply Hlt, Hi).
       apply segment_max_Fin, Hne, Hi. }
  rewrite map_fexp_Fin, map_zip_with.
  rewrite segment_same_length
    by (rewrite length_map; apply length_zip_with_ids, Hlen).
  cbn [rbind].
  rewrite gather_in_range by (rewrite length_map, length_seq; exact Hin).
  cbn [rbind]. unfold divide.
  rewrite elementwise_zip
    by (rewrite length_map, length_read_clamped;
        apply length_zip_with_ids, Hlen).
  rewrite (@divide_gather_Fin n _
             (fun i => 0 + total (map (fun w => exp (w + - group_max values ids i))
                                      (group_values values ids i)))).
  2: { rewrite length_map. apply length_seq. }
  2: { intros i Hi. split; [apply Hlt, Hi|]. split.
       - rewrite nth_map_seq by (apply Hlt, Hi).
         rewrite group_values_map, fold_fadd_Fin, group_values_zip_with.
         reflexivity.
       - rewrite Rplus_0_l.
         assert (E : map (fun w => exp (w + - group_max values ids i))
                         (group_values values ids i)
                     = map exp (map (fun w => w + - group_max values ids i)
                                    (group_values values ids i)))
           by (rewrite map_map; reflexivity).
         rewrite E.
         assert (Hne' : map (fun w => w + - group_max values ids i)
                            (group_values values ids i) <> []).
         { specialize (Hne i Hi).
           destruct (group_values values ids i); [congruence | discriminate]. }
         pose proof (total_exp_pos Hne'). lra. }
  rewrite nan_to_num_Fin, zip_with_zip_with. do 2 f_equal.
  unfold group_softmax. rewrite group_softmax_zip.
  apply zip_with_ext_in. intros v i Hi.
  apply softmax_entry_unshifted, Hne, Hi.
Qed.

(** X18.  On finite values and ids of equal length, all below the
    number of groups, [syn2post_softmax] returns the softmax of each
    group: at every position the exponential of the value over the sum of
    the exponentials of the values of its group; the subtraction of the
    group maximum and the replacement of NaN change nothing. *)
Theorem syn2post_softmax_is_the_group_softmax :
  forall finfo_max values post_ids post_num sorted,
    List.length values = List.length post_ids ->
    Forall (fun i => (i < post_num)%nat) post_ids ->
    syn2post_softmax finfo_max (NumArray (map Fin values))
                     post_ids post_num sorted
    = Ok (map Fin (group_softmax values post_ids)).
Proof.
  intros finfo_max values ids n sorted Hlen Hin.
  apply syn2post_softmax_closed_form; assumption.
Qed.

(** Witness: the values 1, 2, 3 in the groups 0, 0, 1. *)
Lemma syn2post_softmax_is_the_group_softmax_witness :
  syn2post_softmax 1000 (NumArray (map Fin [1; 2; 3])) [0; 0; 1]%nat 2 true
  = Ok (map Fin (group_softmax [1; 2; 3] [0; 0; 1]%nat)).
Proof.
  apply (@syn2post_softmax_is_the_group_softmax 1000 [1; 2; 3]
           [0; 0; 1]%nat 2%nat true).
  - reflexivity.
  - repeat constructor.
Defined.

Lemma Forall_zip_with {A} (P : A -> Prop) (f : R -> nat -> A) values :
  forall ids,
    (forall v i, In (v, i) (combine values ids) -> P (f v i)) ->
    Forall P (zip_with f values ids).
Proof.
  induction values as [|v vs IH]; intros [|i ids] H; try constructor.
  - apply H. left. reflexivity.
  - apply IH. intros w j Hj. apply H. right. exact Hj.
Qed.

Lemma in_combine_group (values : list R) : forall ids v i,
  In (v, i) (combine values ids) -> In v (group_values values ids i).
Proof.
  induction values as [|w vs IH]; intros [|j ids] v i Hin;
    try contradiction.
  cbn [combine] in Hin. cbn [group_values].
  destruct Hin as [Heq|Hin].
  - injection Heq as -> ->. rewrite Nat.eqb_refl. left. reflexivity.
  - destruct (Nat.eqb j i); [right|]; apply IH, Hin.
Qed.

Lemma total_exp_nonneg l : 0 <= total (map exp l).
Proof.
  induction l as [|y l IH]; [unfold total; simpl; lra|].
  rewrite map_cons, total_cons. pose proof (exp_pos y). lra.
Qed.

Lemma exp_le_total v l : In v l -> exp v <= total (map exp l).
Proof.
  induction l as [|y l IH]; intros Hin; [contradiction|].
  rewrite map_cons, total_cons.
  destruct Hin as [->|Hin].
  - pose proof (total_exp_nonneg l). lra.
  - pose proof (IH Hin). pose proof (exp_pos y). lra.
Qed.

(** X19.  On finite values and ids of equal length, all below the
    number of groups, the entries [syn2post_softmax] returns are
    probabilities: each lies in [0, 1], and the entries of every group
    that occurs add up to 1. *)
Theorem syn2post_softmax_sums_to_one :
  forall finfo_max values post_ids post_num sorted,
    List.length values = List.length post_ids ->
    Forall (fun i => (i < post_num)%nat) post_ids ->
    exists out,
      syn2post_softmax finfo_max (NumArray (map Fin values))
                       post_ids post_num sorted
      = Ok (map Fin out)
      /\ List.length out = List.length values
      /\ Forall (fun p => 0 <= p /\ p <= 1) out
      /\ (forall g, In g post_ids -> total (group_values out post_ids g) = 1).
Proof.
  intros finfo_max values ids n sorted Hlen Hin.
  exists (group_softmax values ids).
  split; [apply syn2post_softmax_closed_form; assumption|].
  unfold group_softmax. rewrite group_softmax_zip.
  split; [rewrite length_zip_with_ids; [symmetry|]; exact Hlen|].
  split.
  - apply Forall_zip_with. intros v i Hvi.
    pose proof (@in_combine_group values ids v i Hvi) as Hv.
    assert (Hne : group_values values ids i <> [])
      by (intros E; rewrite E in Hv; contradiction).
    pose proof (total_exp_pos Hne) as HT.
    pose proof (@exp_le_total v _ Hv) as Hle.
    pose proof (exp_pos v) as Hp.
    split.
    + apply Rlt_le, Rdiv_lt_0_compat; assumption.
    + apply (Rmult_le_reg_r (total (map exp (group_values values ids i))));
        [exact HT|].
      unfold Rdiv. rewrite Rmult_assoc, Rinv_l by lra. lra.
  - intros g Hg.
    pose proof (@in_ids_group_nonempty _ values ids g Hlen Hg) as Hne.
    pose proof (total_exp_pos Hne) as HT.
    rewrite group_values_zip_with.
    assert (E : map (fun v => exp v
                              / total (map exp (group_values values ids g)))
                    (group_values values ids g)
                = map (fun v => / total (map exp (group_values values ids g))
                                * exp v)
                      (group_values values ids g)).
    { apply map_ext. intros v. unfold Rdiv. lra. }
    rewrite E, total_map_scale. apply Rinv_l. lra.
Qed.

(** Witness: the values 1, 2, 3 in the groups 0, 0, 1. *)
Lemma syn2post_softmax_sums_to_one_witness :
  exists out,
    syn2post_softmax 1000 (NumArray (map Fin [1; 2; 3])) [0; 0; 1]%nat 2 true
    = Ok (map Fin out)
    /\ List.length out = List.length [1; 2; 3]
    /\ Forall (fun p => 0 <= p /\ p <= 1) out
    /\ (forall g, In g [0; 0; 1]%nat ->
          total (group_values out [0; 0; 1]%nat g) = 1).
Proof.
  apply (@syn2post_softmax_sums_to_one 1000 [1; 2; 3] [0; 0; 1]%nat 2%nat true).
  - reflexivity.
  - repeat constructor.
Defined.

(** ** The array branch of the pre-to-post family *)

(** X21.  [pre2post_mean] of a non-empty array of finite values, with
    as many [pre_ids] as [post_ids]: the entry at [j] is the mean, over
    the synapses onto [j], of the value of their presynaptic neuron (an id
    beyond the array reading its last value), and 0 where no synapse
    arrives. *)
Theorem pre2post_mean_is_the_mean_over_synapses :
  forall finfo_max values post_num post_ids pre_ids,
    values <> [] ->
    List.length pre_ids = List.length post_ids ->
    pre2post_mean finfo_max (Vector (map Fin values)) post_num post_ids
                  (Some pre_ids)
    = Ok (map (fun j => Fin (group_mean
                 (map (fun i => nth (Nat.min i (List.length values - 1))
                                    values 0) pre_ids)
                 post_ids j))
              (seq 0 post_num)).
Proof.
  intros finfo_max values n post pre Hne Hlen.
  apply pre2post_mean_groups; assumption.
Qed.

(** Witness: two presynaptic values read by three synapses onto two
    neurons. *)
Lemma pre2post_mean_is_the_mean_over_synapses_witness :
  [10; 20] <> []
  /\ List.length [0; 1; 1]%nat = List.length [0; 0; 1]%nat
  /\ pre2post_mean 1000 (Vector (map Fin [10; 20])) 2 [0; 0; 1]%nat
       (Some [0; 1; 1]%nat)
     = Ok (map (fun j => Fin (group_mean
                  (map (fun i => nth (Nat.min i (List.length [10; 20] - 1))
                                     [10; 20] 0) [0; 1; 1]%nat)
                  [0; 0; 1]%nat j))
               (seq 0 2)).
Proof.
  assert (Hne : [10; 20] <> []) by discriminate.
  split; [exact Hne|]. split; [reflexivity|].
  apply (@pre2post_mean_is_the_mean_over_synapses 1000 [10; 20] 2%nat
           [0; 0; 1]%nat [0; 1; 1]%nat Hne).
  reflexivity.
Defined.

(** X22.  The pre-to-post sum factors through the synapses: for a
    non-empty array, with as many [pre_ids] as [post_ids],
    [pre2post_sum] is [syn2post_sum] of what [pre2syn] gives, whatever the
    values are. *)
Theorem pre2post_sum_factors_through_synapses :
  forall values post_num post_ids pre_ids sorted,
    values <> [] ->
    List.length pre_ids = List.length post_ids ->
    exists syn_values,
      pre2syn (Vector values) pre_ids = Ok syn_values
      /\ pre2post_sum (Vector values) post_num post_ids (Some pre_ids)
         = syn2post_sum (NumArray syn_values) post_ids post_num sorted.
Proof.
  intros values n post pre sorted Hne Hlen.
  exists (read_clamped values pre). split.
  - unfold pre2syn, _pre2syn. destruct values; [congruence | reflexivity].
  - unfold pre2post_sum, _raise_pre_ids_is_none, as_device_array.
    cbn [rbind]. rewrite (gather_nonempty pre Hne). cbn [rbind].
    unfold syn2post_sum, _jit_seg_sum, segment, promote_bool, zeros.
    reflexivity.
Qed.

(** Witness: two presynaptic values read by three synapses. *)
Lemma pre2post_sum_factors_through_synapses_witness :
  [Fin 10; Fin 20] <> []
  /\ List.length [0; 1; 1]%nat = List.length [0; 0; 1]%nat
  /\ exists syn_values,
       pre2syn (Vector [Fin 10; Fin 20]) [0; 1; 1]%nat = Ok syn_values
       /\ pre2post_sum (Vector [Fin 10; Fin 20]) 2 [0; 0; 1]%nat
                       (Some [0; 1; 1]%nat)
          = syn2post_sum (NumArray syn_values) [0; 0; 1]%nat 2 true.
Proof.
  assert (Hne : [Fin 10; Fin 20] <> []) by discriminate.
  split; [exact Hne|]. split; [reflexivity|].
  apply (@pre2post_sum_factors_through_synapses [Fin 10; Fin 20] 2%nat
           [0; 0; 1]%nat [0; 1; 1]%nat true Hne).
  reflexivity.
Defined.

(** ** The mean of a boolean array *)

(** X23.  [syn2post_mean] of a boolean array gives for each group the
    fraction of its entries that are true, and 0 for a group without
    entries. *)
Theorem syn2post_mean_of_booleans_is_a_fraction :
  forall finfo_max events post_ids post_num sorted,
    List.length events = List.length post_ids ->
    syn2post_mean finfo_max (BoolArray events) post_ids post_num sorted
    = Ok (map (fun g =>
                 Fin (match group_values events post_ids g with
                      | [] => 0
                      | members =>
                          INR (count_true members) / INR (List.length members)
                      end))
              (seq 0 post_num)).
Proof.
  intros finfo_max events ids n sorted Hlen.
  unfold syn2post_mean, _jit_seg_sum, ones_like, promote_bool.
  rewrite !segment_same_length by (rewrite !length_map; exact Hlen).
  cbn [rbind]. rewrite divide_map. f_equal.
  unfold nan_to_num. rewrite map_map. apply map_ext. intros g.
  rewrite map_map, group_values_map, fold_fadd_bools.
  rewrite (group_values_map (fun _ : bool => Fin 1)), fold_fadd_ones.
  destruct (group_values events ids g) as [|b l].
  - unfold count_true. simpl. rewrite Rplus_0_l.
    destruct (Req_dec_T 0 0) as [_|H]; [|lra].
    rewrite sign_0. reflexivity.
  - assert (Hpos : 0 < INR (List.length (b :: l)))
      by (apply lt_0_INR; simpl; lia).
    unfold fdiv.
    destruct (Req_dec_T (0 + INR (List.length (b :: l))) 0) as [H|_]; [lra|].
    rewrite !Rplus_0_l. reflexivity.
Qed.

(** Witness: three spikes out of four synapses onto two neurons. *)
Lemma syn2post_mean_of_booleans_is_a_fraction_witness :
  syn2post_mean 1000 (BoolArray [true; false; true; true])
                [0; 0; 1; 1]%nat 2 true
  = Ok (map (fun g =>
               Fin (match group_values [true; false; true; true]
                                       [0; 0; 1; 1]%nat g with
                    | [] => 0
                    | members =>
                        INR (count_true members) / INR (List.length members)
                    end))
            (seq 0 2)).
Proof.
  apply (@syn2post_mean_of_booleans_is_a_fraction 1000
           [true; false; true; true] [0; 0; 1; 1]%nat 2%nat true).
  reflexivity.
Defined.

End OperatorsMoreFacts.
